(** * copt.randomized: SAGA and block coordinate descent

    A shallow embedding of [copt/randomized.py].  Floating-point scalars are
    modelled as exact rationals ([Q], compared with [==]); NumPy arrays as
    lists, with their element type beside them where it decides what a
    store keeps; Python exceptions as the [Raise] branch of an error monad; the
    process-global NumPy random generator as an explicit state threaded
    through every [np.random.shuffle]. *)

From Stdlib Require Import List String ZArith QArith Qabs Qminmax.
From Stdlib Require Import Lia Lqa Bool Arith Permutation.
Import ListNotations.

(** ** Exceptions and the error monad *)

Inductive exn : Type :=
| ValueError
| NameError (name : string)
| TypeError
| ZeroDivisionError
| AttributeError (attr : string)
| IndexError.

Inductive result (A : Type) : Type :=
| Ok (a : A)
| Raise (e : exn).

Arguments Ok {A} a.
Arguments Raise {A} e.

Definition bind {A B : Type} (c : result A) (k : A -> result B) : result B :=
  match c with
  | Ok a => k a
  | Raise e => Raise e
  end.

Declare Scope py_scope.
Delimit Scope py_scope with py.
Notation "x <- c ;; k" := (bind c (fun x => k))
  (at level 61, c at next level, right associativity) : py_scope.
Notation "' p <- c ;; k" := (bind c (fun x => match x with p => k end))
  (at level 61, p pattern, c at next level, right associativity) : py_scope.

Definition raises {A : Type} (c : result A) : Prop := exists e, c = Raise e.

(** ** Scalars and arrays *)

Definition Qltb (a b : Q) : bool := negb (Qle_bool b a).

(** [range(a, b)] over Python integers. *)
Definition py_range (a b : Z) : list Z :=
  map (fun k => (a + Z.of_nat k)%Z) (seq 0 (Z.to_nat (b - a))).

(** [range(a, b)] over array positions. *)
Definition range (a b : nat) : list nat := seq a (b - a).

(** [np.zeros(n)] and [np.arange(n)]. *)
Definition zeros (n : nat) : list Q := repeat 0%Q n.
Definition arange (n : nat) : list nat := seq 0 n.

(** In-place item assignment [l[i] = v] on a fixed-size array. *)
Fixpoint store {A : Type} (l : list A) (i : nat) (v : A) : list A :=
  match l, i with
  | [], _ => []
  | _ :: t, O => v :: t
  | h :: t, S i' => h :: store t i' v
  end.

(** ** Element types

    A NumPy array has one element type.  [np.zeros] allocates floats;
    [np.array(x0, copy=True)] and [np.ascontiguousarray(x0)] keep the
    element type of the data they are given, so integers stay integers, and
    a float stored into an array of integers loses its fractional part. *)
Inductive dtype : Type := float64 | int64.

(** Conversion of a float to an integer: toward zero. *)
Definition truncate (v : Q) : Z := Z.quot (Qnum v) (Zpos (Qden v)).

(** What an array of element type [t] holds after [a[i] = v]. *)
Definition astype (t : dtype) (v : Q) : Q :=
  match t with
  | float64 => v
  | int64 => inject_Z (truncate v)
  end.

(** What a caller passes as a start vector: an array or a Python list, of
    floats or of integers. *)
Inductive array_like : Type :=
| FloatArray (a : list Q)
| IntArray (a : list Z)
| FloatList (l : list Q)
| IntList (l : list Z).

(** Element type and content of [np.array(a)]. *)
Definition dtype_of (a : array_like) : dtype :=
  match a with
  | FloatArray _ | FloatList _ => float64
  | IntArray _ | IntList _ => int64
  end.

Definition items (a : array_like) : list Q :=
  match a with
  | FloatArray a | FloatList a => a
  | IntArray a | IntList a => map inject_Z a
  end.

(** [x0.size]: arrays have the attribute, lists and [None] do not. *)
Definition size (x0 : option array_like) : result nat :=
  match x0 with
  | Some (FloatArray a) => Ok (List.length a)
  | Some (IntArray a) => Ok (List.length a)
  | Some (FloatList _) | Some (IntList _) | None => Raise (AttributeError "size")
  end.

(** Elementwise [x - y] on arrays of one shape. *)
Definition vsub (x y : list Q) : list Q :=
  map (fun p => (fst p - snd p)%Q) (combine x y).

(** [a.sum()] accumulates from zero, left to right. *)
Definition vsum (a : list Q) : Q := fold_left Qplus a 0%Q.

(** [np.abs(x - x_old).sum()]. *)
Definition abs_change (x x_old : list Q) : Q := vsum (map Qabs (vsub x x_old)).

(** ** The random generator

    [np.random.shuffle] permutes its argument in place and advances the
    global generator.  The generator is a parameter of the development; the
    only fact used about it is that a shuffle is a permutation. *)

Record Shuffler : Type := {
  RNG : Type;
  shuffle : RNG -> list nat -> list nat * RNG;
  shuffle_perm : forall r l, Permutation l (fst (shuffle r l))
}.

(** ** Name resolution

    The names a function body may read are its own local names, the local
    names of the functions that enclose it, the globals of the module and
    the builtins.  Reading any other name raises [NameError]. *)

Module Scope.

Local Open Scope string_scope.

(** What a [def] binds and reads: its parameters, the names assigned in its
    body (including nested [def]s and loop variables), and the names loaded
    in its body, in order of first occurrence. *)
Record code : Type := {
  co_name : string;
  co_params : list string;
  co_assigned : list string;
  co_loads : list string
}.

Definition co_locals (c : code) : list string := co_params c ++ co_assigned c.

Definition mem (name : string) (l : list string) : bool :=
  existsb (String.eqb name) l.

(** Module-level bindings of [randomized.py]: five imports and three [def]s. *)
Definition module_globals : list string :=
  [ "datetime"; "np"; "sparse"; "optimize"; "njit"; "utils";
    "minimizelp_SAGA"; "_factory_SAGA_epoch"; "minimize_BCD" ].

(** Names of the [builtins] module of Python 3. *)
Definition builtins : list string :=
  [ "abs"; "aiter"; "all"; "anext"; "any"; "ascii"; "bin"; "bool";
    "breakpoint"; "bytearray"; "bytes"; "callable"; "chr"; "classmethod";
    "compile"; "complex"; "copyright"; "credits"; "delattr"; "dict"; "dir";
    "divmod"; "enumerate"; "eval"; "exec"; "exit"; "filter"; "float";
    "format"; "frozenset"; "getattr"; "globals"; "hasattr"; "hash"; "help";
    "hex"; "id"; "input"; "int"; "isinstance"; "issubclass"; "iter"; "len";
    "license"; "list"; "locals"; "map"; "max"; "memoryview"; "min"; "next";
    "object"; "oct"; "open"; "ord"; "pow"; "print"; "property"; "quit";
    "range"; "repr"; "reversed"; "round"; "set"; "setattr"; "slice";
    "sorted"; "staticmethod"; "str"; "sum"; "super"; "tuple"; "type";
    "vars"; "zip"; "__import__"; "__build_class__"; "__debug__"; "__doc__";
    "__name__"; "__package__"; "__loader__"; "__spec__";
    "None"; "True"; "False"; "Ellipsis"; "NotImplemented";
    "BaseException"; "Exception"; "ArithmeticError"; "AssertionError";
    "AttributeError"; "BlockingIOError"; "BrokenPipeError"; "BufferError";
    "BytesWarning"; "ChildProcessError"; "ConnectionAbortedError";
    "ConnectionError"; "ConnectionRefusedError"; "ConnectionResetError";
    "DeprecationWarning"; "EOFError"; "EnvironmentError"; "FileExistsError";
    "FileNotFoundError"; "FloatingPointError"; "FutureWarning";
    "GeneratorExit"; "IOError"; "ImportError"; "ImportWarning";
    "IndentationError"; "IndexError"; "InterruptedError";
    "IsADirectoryError"; "KeyError"; "KeyboardInterrupt"; "LookupError";
    "MemoryError"; "ModuleNotFoundError"; "NameError";
    "NotADirectoryError"; "NotImplementedError"; "OSError"; "OverflowError";
    "PendingDeprecationWarning"; "PermissionError"; "ProcessLookupError";
    "RecursionError"; "ReferenceError"; "ResourceWarning"; "RuntimeError";
    "RuntimeWarning"; "StopAsyncIteration"; "StopIteration"; "SyntaxError";
    "SyntaxWarning"; "SystemError"; "SystemExit"; "TabError";
    "TimeoutError"; "TypeError"; "UnboundLocalError"; "UnicodeDecodeError";
    "UnicodeEncodeError"; "UnicodeError"; "UnicodeTranslateError";
    "UnicodeWarning"; "UserWarning"; "ValueError"; "Warning";
    "ZeroDivisionError" ].

(** [bound enclosing name]: [name] resolves from a body whose chain of
    function scopes, innermost first, is [enclosing]. *)
Definition bound (enclosing : list code) (name : string) : bool :=
  existsb (fun c => mem name (co_locals c)) enclosing
  || mem name module_globals
  || mem name builtins.

(** The objects the module namespace and the builtins hold. *)
Inductive pyobj : Type :=
| PyModule (name : string)
| PyFunction (name : string)
| PyBuiltin (name : string).

Definition module_namespace : list (string * pyobj) :=
  [ ("datetime", PyModule "datetime.datetime");
    ("np", PyModule "numpy");
    ("sparse", PyModule "scipy.sparse");
    ("optimize", PyModule "scipy.optimize");
    ("njit", PyFunction "numba.njit");
    ("utils", PyModule "copt.utils");
    ("minimizelp_SAGA", PyFunction "minimizelp_SAGA");
    ("_factory_SAGA_epoch", PyFunction "_factory_SAGA_epoch");
    ("minimize_BCD", PyFunction "minimize_BCD") ].

Fixpoint assoc (name : string) (ns : list (string * pyobj)) : option pyobj :=
  match ns with
  | [] => None
  | (k, v) :: rest => if String.eqb name k then Some v else assoc name rest
  end.

(** LOAD_GLOBAL: the module namespace, then the builtins, else [NameError]. *)
Definition load_global (name : string) : result pyobj :=
  match assoc name module_namespace with
  | Some o => Ok o
  | None => if mem name builtins then Ok (PyBuiltin name)
            else Raise (NameError name)
  end.

(** Loads that cannot be resolved from the body of [c] nested in [enclosing]. *)
Definition unbound_loads (enclosing : list code) (c : code) : list string :=
  filter (fun name => negb (bound (c :: enclosing) name)) (co_loads c).

(** Binding [nargs] positional arguments to parameters without defaults. *)
Definition bind_positional (c : code) (nargs : nat) : result unit :=
  if Nat.eqb nargs (List.length (co_params c)) then Ok tt else Raise TypeError.

End Scope.

(** ** Result record

    [scipy.optimize.OptimizeResult] is a dictionary with attribute access.
    A key that a call does not set is [None] here; the key [certificate],
    which [minimize_BCD] sets to the Python value [None], holds [Some PyNone]
    in that case. *)

Inductive pyval : Type :=
| PyNone
| PyFloat (v : Q).

Record OptimizeResult : Type := {
  r_x : list Q;
  r_success : bool;
  r_nit : Z;
  r_message : option string;
  r_trace_func : option (list Q);
  r_trace_time : option (list Q);
  r_certificate : option pyval
}.

(** ** SAGA *)

Module SAGA.

Import Scope.
Local Open Scope py_scope.
Local Open Scope Q_scope.

(** The expression statement in the body of the L1 [prox]:
    [np.fmax(x - beta * step_size, 0) - np.fmax(- x - beta * step_size, 0)]. *)
Definition soft_threshold (beta x step_size : Q) : Q :=
  Qmax (x - beta * step_size) 0 - Qmax (- x - beta * step_size) 0.

(** [prox] for [beta > 0]: the body is a bare expression statement, so the
    value is computed, dropped, and the call falls off the end of the
    function. *)
Definition prox_l1 (beta : Q) (x step_size : Q) : pyval :=
  let _ := soft_threshold beta x step_size in
  PyNone.

(** [prox] for [beta == 0]. *)
Definition prox_zero (x step_size : Q) : pyval := PyFloat x.

(** The [if beta > 0 / elif beta == 0 / else] that opens the factory. *)
Definition select_prox (beta : Q) : result (Q -> Q -> pyval) :=
  if Qltb 0 beta then Ok (prox_l1 beta)
  else if Qeq_bool beta 0 then Ok prox_zero
  else Raise ValueError.

(** Binding structure of the three [def]s of the factory. *)
Definition code_factory : code := {|
  co_name := "_factory_SAGA_epoch";
  co_params := ["f_deriv"; "alpha"; "beta"; "line_search"]%string;
  co_assigned := ["prox"; "A_data"; "A_indices"; "A_indptr"; "n_samples";
                  "n_features"; "_saga_algorithm"]%string;
  co_loads := ["beta"; "njit"; "ValueError"; "A"; "_saga_algorithm"]%string
|}.

Definition code_prox : code := {|
  co_name := "prox";
  co_params := ["x"; "step_size"]%string;
  co_assigned := [];
  co_loads := ["np"; "x"; "beta"; "step_size"]%string
|}.

Definition code_saga_algorithm : code := {|
  co_name := "_saga_algorithm";
  co_params := ["x"; "memory_gradient"; "gradient_average"; "step_size";
                "max_iter"; "tol"; "trace"; "trace_x"]%string;
  co_assigned := ["cert"; "it"; "trace_idx"; "sample_indices"; "i"; "p"; "j";
                  "j_idx"; "grad_i"; "old_grad"; "delta"; "incr"; "tmp"]%string;
  co_loads := ["np"; "n_samples"; "range"; "max_iter"; "sample_indices";
               "A_indptr"; "i"; "A_indices"; "j"; "p"; "x"; "j_idx"; "A_data";
               "partial_gradient"; "b"; "memory_gradient"; "grad_i";
               "old_grad"; "delta"; "d"; "gradient_average"; "f_alpha";
               "prox"; "step_size"; "incr"; "trace_x"; "trace_idx"; "tmp";
               "tol"; "trace"; "it"; "cert"]%string
|}.

(** Attribute reads [A.data], [A.indices], [A.indptr], [A.shape].  No
    object of the module namespace or of the builtins has a [data]
    attribute, so the first read raises. *)
Definition csr_attributes (A : pyobj) : result (pyobj * pyobj * pyobj * pyobj) :=
  Raise (AttributeError "data").

(** Mutable arrays shared between the driver loop and the epoch. *)
Record State : Type := {
  x : list Q;
  idx : list nat;
  memory_gradient : list Q;
  gradient_average : list Q;
  step_size : list Q
}.

Definition with_x (st : State) (x' : list Q) : State :=
  {| x := x'; idx := idx st; memory_gradient := memory_gradient st;
     gradient_average := gradient_average st; step_size := step_size st |}.

Definition with_idx (st : State) (idx' : list nat) : State :=
  {| x := x st; idx := idx'; memory_gradient := memory_gradient st;
     gradient_average := gradient_average st; step_size := step_size st |}.

(** What the closure returned by the factory captures. *)
Record closure : Type := {
  cl_code : code;
  cl_f_deriv : Q -> Q -> Q;
  cl_alpha : Q;
  cl_prox : Q -> Q -> pyval;
  cl_A : pyobj * pyobj * pyobj * pyobj
}.

Section Engine.

Variable Sh : Shuffler.

(** The arithmetic of [_saga_algorithm] once its eight parameters and its
    free names are bound.  It stays a parameter: every statement below
    holds whatever it computes. *)
Variable saga_algorithm_body : closure -> State -> result State.

Definition _factory_SAGA_epoch (f_deriv : Q -> Q -> Q) (alpha beta : Q)
  : result closure :=
  prox <- select_prox beta ;;
  A <- load_global "A" ;;
  A_arrays <- csr_attributes A ;;
  Ok {| cl_code := code_saga_algorithm; cl_f_deriv := f_deriv;
        cl_alpha := alpha; cl_prox := prox; cl_A := A_arrays |}.

(** The call [epoch_iteration(x, idx, memory_gradient, gradient_average,
    step_size)]: five positional arguments. *)
Definition call_epoch (epoch_iteration : closure) (st : State) : result State :=
  _ <- bind_positional (cl_code epoch_iteration) 5 ;;
  saga_algorithm_body epoch_iteration st.

(** The driver loop [for nit in range(max_iter)], with its [break].  The
    callback receives [x] by reference and its return value is dropped: it
    is modelled by the content it leaves in [x]. *)
Fixpoint saga_loop (epoch_iteration : State -> result State)
    (callback : option (list Q -> list Q)) (tol : Q)
    (its : list Z) (rng : RNG Sh) (st : State) (success : bool) (nit : Z)
  : result (State * bool * Z) :=
  match its with
  | [] => Ok (st, success, nit)
  | it :: rest =>
      let x_old := x st in
      let '(idx', rng') := shuffle Sh rng (idx st) in
      st1 <- epoch_iteration (with_idx st idx') ;;
      let st2 := match callback with
                 | Some cb => with_x st1 (cb (x st1))
                 | None => st1
                 end in
      if Qltb (abs_change (x st2) x_old) tol
      then Ok (st2, true, it)
      else saga_loop epoch_iteration callback tol rest rng' st2 success it
  end.

(** [np.ascontiguousarray(x0).copy()] raises for none of the forms of
    [x0]; from [None] it builds an array that holds no number, which is
    never read, since the next line raises. *)
Definition ascontiguousarray (x0 : option array_like) : list Q :=
  match x0 with
  | Some a => items a
  | None => []
  end.

Definition minimizelp_SAGA (rng : RNG Sh)
    (f_deriv : Q -> Q -> Q) (n_samples : nat) (x0 : option array_like)
    (alpha beta : Q) (step_size : option Q) (max_iter : Z) (tol : Q)
    (verbose : bool) (callback : option (list Q -> list Q))
  : result OptimizeResult :=
  let x := ascontiguousarray x0 in
  n_features <- size x0 ;;
  match step_size with
  | None => Raise ValueError
  | Some s =>
      let step_size := [s] in
      epoch_iteration <- _factory_SAGA_epoch f_deriv alpha beta ;;
      let memory_gradient := zeros n_samples in
      let gradient_average := zeros n_features in
      let idx := arange n_samples in
      let success := false in
      let nit := 0%Z in
      ' (st, success, nit) <-
        saga_loop (call_epoch epoch_iteration) callback tol
          (py_range 0 max_iter) rng
          {| x := x; idx := idx; memory_gradient := memory_gradient;
             gradient_average := gradient_average; step_size := step_size |}
          success nit ;;
      let message := ""%string in
      Ok {| r_x := SAGA.x st; r_success := success; r_nit := nit;
            r_message := Some message; r_trace_func := None;
            r_trace_time := None; r_certificate := None |}
  end.

End Engine.

End SAGA.

(** ** Block coordinate descent *)

Module BCD.

Local Open Scope py_scope.
Local Open Scope Q_scope.

(** *** Matrices

    The dense content [f.A.A] of the design matrix: a shape and the entry at
    every position. *)
Record matrix : Type := {
  n_rows : nat;
  n_cols : nat;
  entry : nat -> nat -> Q
}.

Definition shape (A : matrix) : nat * nat := (n_rows A, n_cols A).

Definition transpose (A : matrix) : matrix :=
  {| n_rows := n_cols A; n_cols := n_rows A; entry := fun i j => entry A j i |}.

(** The three arrays of a compressed sparse matrix. *)
Record compressed : Type := {
  data : list Q;
  indices : list nat;
  indptr : list nat
}.

Definition nonzero (v : Q) : bool := negb (Qeq_bool v 0).

(** Column positions of the stored entries of row [i], increasing. *)
Definition row_nonzeros (A : matrix) (i : nat) : list nat :=
  filter (fun j => nonzero (entry A i j)) (seq 0 (n_cols A)).

(** [scipy.sparse.csr_matrix] of a dense array: the nonzero entries row by
    row, each row by increasing column; [indptr[i]] counts the entries
    stored before row [i]. *)
Definition csr_matrix (A : matrix) : compressed := {|
  data := flat_map (fun i => map (entry A i) (row_nonzeros A i)) (seq 0 (n_rows A));
  indices := flat_map (row_nonzeros A) (seq 0 (n_rows A));
  indptr := map (fun i => List.length (flat_map (row_nonzeros A) (seq 0 i)))
                (seq 0 (S (n_rows A)))
|}.

(** [scipy.sparse.csc_matrix]: the same layout, column by column. *)
Definition csc_matrix (A : matrix) : compressed := csr_matrix (transpose A).

(** Row [i] of the product [A x]. *)
Definition row_dot (A : matrix) (x : list Q) (i : nat) : Q :=
  fold_left (fun p j => p + entry A i j * nth j x 0) (seq 0 (n_cols A)) 0.

(** [A.dot(x)]: a dimension mismatch raises [ValueError]. *)
Definition dot (A : matrix) (x : list Q) : result (list Q) :=
  if Nat.eqb (List.length x) (n_cols A)
  then Ok (map (row_dot A x) (seq 0 (n_rows A)))
  else Raise ValueError.

(** *** The loss and penalty objects

    The classes of [copt.utils] are not part of the sources at hand; the
    members that [minimize_BCD] reads are fields of these records. *)
Record Loss : Type := {
  f_A : matrix;
  f_b : list Q;
  f_alpha : Q;
  f_n_features : nat;
  f_lipschitz_constant : string -> Q;
  f_partial_gradient_factory : Q -> Q -> Q;
  f_call : list Q -> Q
}.

Record Penalty : Type := {
  g_prox_factory : Q -> Q -> Q;
  g_call : list Q -> Q
}.

(** Modelled from the spec: [utils.ZeroLoss], the zero penalty, is missing
    from the sources; its proximal operator is the identity,
    prox(v, gamma) = v, and its value is zero. *)
Definition ZeroLoss : Penalty :=
  {| g_prox_factory := fun v gamma => v; g_call := fun _ => 0 |}.

(** [1. / L] for the NumPy scalar [L].  The rationals have no infinity:
    this is the quotient of the floats for every nonzero [L], and the
    statements about the default step are made for a nonzero [L]. *)
Definition reciprocal (L : Q) : Q := 1 / L.

(** Differences of [datetime.now()] readings, in seconds: [lag] is
    [(start - datetime.now())] taken right after [start], [elapsed] is the
    time spent in the kernel. *)
Record Clock : Type := {
  lag : Q;
  elapsed : Q
}.

(** [np.linspace(start, stop, num)] *)
Definition linspace (start stop : Q) (num : Z) : list Q :=
  map (fun i => start + inject_Z (Z.of_nat i) * ((stop - start) / inject_Z (num - 1)))
      (seq 0 (Z.to_nat num)).

(** [a[i]] for a non-negative position. *)
Definition getitem {T : Type} (a : list T) (i : Z) : result T :=
  match nth_error a (Z.to_nat i) with
  | Some v => Ok v
  | None => Raise IndexError
  end.

(** *** The kernel *)

(** Ghost record of what the kernel does, in order: the start of a pass
    with the order drawn for it, the update of a coordinate, the full
    recomputation of [Ax]. *)
Inductive event : Type :=
| Shuffle (it : Z) (order : list nat)
| Update (j : nat)
| Resync.

(** The arrays the kernel receives by reference and mutates in place,
    with the element type of [x], together with the ghost record of its
    events. *)
Record arrays : Type := {
  x : list Q;
  x_dtype : dtype;
  Ax : list Q;
  trace_x : list (list Q);
  events : list event
}.

Section Kernel.

Variable Sh : Shuffler.

(** Variables captured by the closure [_bcd_algorithm]. *)
Variables (n_samples n_features : nat) (max_iter : Z).
Variables (step_size f_alpha : Q) (partial_gradient prox : Q -> Q -> Q).

(** Positions of the entries of row or column [j] in a compressed matrix. *)
Definition span (M : compressed) (j : nat) : list nat :=
  range (nth j (indptr M) O) (nth (j + 1) (indptr M) O).

Definition coordinate_gradient (Ax b : list Q) (A_csc : compressed) (j : nat) : Q :=
  fold_left
    (fun grad_j i_indptr =>
       let i_idx := nth i_indptr (indices A_csc) O in
       grad_j + partial_gradient (nth i_idx Ax 0) (nth i_idx b 0)
                * nth i_indptr (data A_csc) 0 / inject_Z (Z.of_nat n_samples))
    (span A_csc j) 0.

Definition update_Ax (Ax x : list Q) (A_csc : compressed) (j : nat) (x_new : Q)
  : list Q :=
  fold_left
    (fun Ax i_indptr =>
       let i_idx := nth i_indptr (indices A_csc) O in
       store Ax i_idx (nth i_idx Ax 0 + nth i_indptr (data A_csc) 0 * (x_new - nth j x 0)))
    (span A_csc j) Ax.

Definition csr_row_dot (x : list Q) (A_csr : compressed) (i : nat) : Q :=
  fold_left
    (fun p j =>
       let j_idx := nth j (indices A_csr) O in
       p + nth j_idx x 0 * nth j (data A_csr) 0)
    (span A_csr i) 0.

Definition recompute_Ax (Ax x : list Q) (A_csr : compressed) : list Q :=
  fold_left (fun Ax i => store Ax i (csr_row_dot x A_csr i)) (range 0 n_samples) Ax.

(** Body of [for j in feature_indices]. *)
Definition coordinate_step (A_csr A_csc : compressed) (b : list Q)
    (st : arrays) (j : nat) : arrays :=
  let grad_j := coordinate_gradient (Ax st) b A_csc j in
  let x_new := prox (nth j (x st) 0 - step_size * (grad_j + f_alpha * nth j (x st) 0))
                    step_size in
  let Ax1 := update_Ax (Ax st) (x st) A_csc j x_new in
  let x1 := store (x st) j (astype (x_dtype st) x_new) in
  if Nat.eqb j 0
  then {| x := x1; x_dtype := x_dtype st; Ax := recompute_Ax Ax1 x1 A_csr;
          trace_x := trace_x st; events := events st ++ [Update j; Resync] |}
  else {| x := x1; x_dtype := x_dtype st; Ax := Ax1;
          trace_x := trace_x st; events := events st ++ [Update j] |}.

(** Appends an event to the ghost record; the arrays are left as they are. *)
Definition note (st : arrays) (e : event) : arrays :=
  {| x := x st; x_dtype := x_dtype st; Ax := Ax st; trace_x := trace_x st;
     events := events st ++ [e] |}.

(** Body of [for it in range(1, max_iter)]. *)
Definition epoch (A_csr A_csc : compressed) (b : list Q)
    (s : arrays * list nat * RNG Sh * Z) (it : Z) : arrays * list nat * RNG Sh * Z :=
  let '(st, feature_indices, rng, _) := s in
  let '(feature_indices, rng) := shuffle Sh rng feature_indices in
  (fold_left (coordinate_step A_csr A_csc b) feature_indices
             (note st (Shuffle it feature_indices)),
   feature_indices, rng, it).

Definition _bcd_algorithm (rng : RNG Sh) (st : arrays)
    (A_csr A_csc : compressed) (b : list Q) (tol : Q)
  : Z * pyval * arrays * RNG Sh :=
  let it := 0%Z in
  let feature_indices := arange n_features in
  let '(st, _, rng, it) :=
    fold_left (epoch A_csr A_csc b) (py_range 1 max_iter)
              (st, feature_indices, rng, it) in
  (it, PyNone, st, rng).

End Kernel.

(** *** The driver *)

Definition new_trace_x (trace : bool) (max_iter : Z) (n_features : nat)
  : result (list (list Q)) :=
  if trace
  then if (max_iter <? 0)%Z then Raise ValueError
       else Ok (repeat (zeros n_features) (Z.to_nat max_iter))
  else Ok [].

(** [for i in range(n_iter): trace_func.append(f(trace_x[i]) + g(trace_x[i]))] *)
Fixpoint trace_values (f : Loss) (g : Penalty) (trace_x : list (list Q))
    (positions : list Z) (trace_func : list Q) : result (list Q) :=
  match positions with
  | [] => Ok trace_func
  | i :: rest =>
      row <- getitem trace_x i ;;
      trace_values f g trace_x rest (trace_func ++ [f_call f row + g_call g row])
  end.

Definition minimize_BCD (Sh : Shuffler) (rng : RNG Sh) (clock : Clock)
    (f : Loss) (g : option Penalty) (x0 : option array_like)
    (step_size : option Q) (max_iter : Z) (trace verbose : bool) (tol : Q)
  : result OptimizeResult :=
  let xk := match x0 with
            | None => zeros (f_n_features f)
            | Some x0 => items x0
            end in
  let xk_dtype := match x0 with
                  | None => float64
                  | Some x0 => dtype_of x0
                  end in
  let g := match g with
           | None => ZeroLoss
           | Some g => g
           end in
  let step_size := match step_size with
                   | None => reciprocal (f_lipschitz_constant f "features")
                   | Some s => s
                   end in
  Ax <- dot (f_A f) xk ;;
  let f_alpha := f_alpha f in
  let '(n_samples, n_features) := shape (f_A f) in
  let success := false in
  let partial_gradient := f_partial_gradient_factory f in
  let prox := g_prox_factory g in
  trace_x <- new_trace_x trace max_iter n_features ;;
  let X_csc := csc_matrix (f_A f) in
  let X_csr := csr_matrix (f_A f) in
  let trace_func := [] in
  let trace_time := [lag clock] in
  let '(n_iter, certificate, st, _) :=
    _bcd_algorithm Sh n_samples n_features max_iter step_size f_alpha
                   partial_gradient prox rng
                   {| x := xk; x_dtype := xk_dtype; Ax := Ax; trace_x := trace_x;
                      events := [] |}
                   X_csr X_csc (f_b f) tol in
  let delta := elapsed clock in
  ' (trace_func, trace_time) <-
    (if trace
     then trace_func <- trace_values f g (BCD.trace_x st) (py_range 0 n_iter) [] ;;
          Ok (trace_func, linspace 0 delta n_iter)
     else Ok (trace_func, trace_time)) ;;
  Ok {| r_x := x st; r_success := success; r_nit := n_iter;
        r_message := None; r_trace_func := Some trace_func;
        r_trace_time := Some trace_time; r_certificate := Some certificate |}.

End BCD.

(** ** Concrete inputs *)

Module Examples.

Import BCD.
Local Open Scope Q_scope.

(** A generator whose shuffle leaves the order as it is. *)
Definition shuffle_keep : Shuffler :=
  {| RNG := unit;
     shuffle := fun r l => (l, r);
     shuffle_perm := fun r l => Permutation_refl l |}.

(** A generator whose shuffle reverses the order. *)
Definition shuffle_rev : Shuffler :=
  {| RNG := unit;
     shuffle := fun r l => (rev l, r);
     shuffle_perm := fun r l => Permutation_rev l |}.

Definition of_rows (rows : list (list Q)) (ncols : nat) : matrix :=
  {| n_rows := List.length rows; n_cols := ncols;
     entry := fun i j => nth j (nth i rows []) 0 |}.

(** Two samples, two features: rows (1, 0) and (1, 1), targets 1 and 2. *)
Definition A0 : matrix := of_rows [[1; 0]; [1; 1]] 2.
Definition b0 : list Q := [1; 2].

Definition residual2 (x : list Q) (i : nat) : Q :=
  (row_dot A0 x i - nth i b0 0) * (row_dot A0 x i - nth i b0 0).

(** Least squares on [A0], [b0]. *)
Definition f0 : Loss :=
  {| f_A := A0; f_b := b0; f_alpha := 0; f_n_features := 2;
     f_lipschitz_constant := fun _ => 2;
     f_partial_gradient_factory := fun p b => p - b;
     f_call := fun x => vsum (map (residual2 x) (seq 0 2)) |}.

Definition clock0 : Clock := {| lag := 0; elapsed := 1 |}.

(** An epoch that halves every coefficient. *)
Definition halve (st : SAGA.State) : SAGA.State :=
  SAGA.with_x st (map (fun v => v / 2) (SAGA.x st)).

Definition saga_state0 : SAGA.State :=
  {| SAGA.x := [1]; SAGA.idx := [O]; SAGA.memory_gradient := [0];
     SAGA.gradient_average := [0]; SAGA.step_size := [1] |}.

End Examples.

(** ** Vocabulary of the statements *)

Module Spec.

Import BCD.
Local Open Scope Q_scope.

(** *** Passes of the BCD kernel *)

(** What one coordinate adds to the record. *)
Definition step_events (j : nat) : list event :=
  if Nat.eqb j 0 then [Update j; Resync] else [Update j].

(** What one pass, numbered [it] and run in order [order], adds. *)
Definition pass_events (p : Z * list nat) : list event :=
  Shuffle (fst p) (snd p) :: flat_map step_events (snd p).

(** The orders the generator yields for the passes numbered [its], each
    shuffle starting from the order the previous one left. *)
Fixpoint draws (Sh : Shuffler) (its : list Z) (rng : RNG Sh)
    (feature_indices : list nat) : list (Z * list nat) :=
  match its with
  | [] => []
  | it :: rest =>
      let '(order, rng') := shuffle Sh rng feature_indices in
      (it, order) :: draws Sh rest rng' order
  end.

(** The coordinates a run visits, in order. *)
Definition visits (Sh : Shuffler) (max_iter : Z) (rng : RNG Sh)
    (n_features : nat) : list nat :=
  flat_map snd (draws Sh (py_range 1 max_iter) rng (arange n_features)).


Definition is_resync (e : event) : bool :=
  match e with Resync => true | _ => false end.


Definition resyncs (evs : list event) : nat :=
  List.length (filter is_resync evs).

(** The update that precedes each full recomputation. *)
Fixpoint resync_triggers (evs : list event) : list nat :=
  match evs with
  | Update j :: Resync :: rest => j :: resync_triggers rest
  | _ :: rest => resync_triggers rest
  | [] => []
  end.

(** The first coordinate of each pass. *)
Fixpoint pass_heads (evs : list event) : list nat :=
  match evs with
  | Shuffle _ order :: rest => firstn 1 order ++ pass_heads rest
  | _ :: rest => pass_heads rest
  | [] => []
  end.

(** *** Defaults of the BCD driver *)

Definition start_vector (f : Loss) (x0 : option array_like) : list Q :=
  match x0 with
  | None => zeros (f_n_features f)
  | Some x0 => items x0
  end.

(** Element type of the array the driver starts from. *)
Definition start_dtype (x0 : option array_like) : dtype :=
  match x0 with
  | None => float64
  | Some x0 => dtype_of x0
  end.

(** An array of element type [t] holds the number [v] as it is. *)
Definition held (t : dtype) (v : Q) : Prop := astype t v == v.

(** The step the driver hands to the kernel. *)
Definition step_in_use (f : Loss) (step_size : option Q) : Q :=
  match step_size with
  | None => reciprocal (f_lipschitz_constant f "features")
  | Some s => s
  end.

Definition penalty (g : option Penalty) : Penalty :=
  match g with
  | None => ZeroLoss
  | Some g => g
  end.

(** *** The cached prediction *)

(** [Ax] is the product of the design matrix with [x]. *)
Definition coherent (A : matrix) (x Ax : list Q) : Prop :=
  List.length x = n_cols A /\
  List.length Ax = n_rows A /\
  forall i, (i < n_rows A)%nat -> nth i Ax 0 == row_dot A x i.

(** The sum of [t j] over the positions [j] of [l]. *)
Fixpoint qsum (t : nat -> Q) (l : list nat) : Q :=
  match l with
  | [] => 0
  | j :: l' => t j + qsum t l'
  end.

(** Number of entries a compressed matrix stores before row [i]. *)
Definition offset (A : matrix) (i : nat) : nat :=
  List.length (flat_map (row_nonzeros A) (seq 0 i)).

(** *** Passes of the SAGA driver *)

Section SagaPasses.

Variable Sh : Shuffler.
Variable E : SAGA.State -> SAGA.State.
Variable callback : option (list Q -> list Q).

(** One trip through the body of the driver loop, up to the test. *)
Definition saga_pass (s : RNG Sh * SAGA.State) : RNG Sh * SAGA.State :=
  let '(rng, st) := s in
  let '(idx', rng') := shuffle Sh rng (SAGA.idx st) in
  let st1 := E (SAGA.with_idx st idx') in
  (rng', match callback with
         | Some cb => SAGA.with_x st1 (cb (SAGA.x st1))
         | None => st1
         end).

Definition after (s : RNG Sh * SAGA.State) (k : nat) : RNG Sh * SAGA.State :=
  Nat.iter k saga_pass s.

(** Sum of absolute coordinate changes made by pass [k] (counted from 0). *)
Definition change (s : RNG Sh * SAGA.State) (k : nat) : Q :=
  abs_change (SAGA.x (snd (after s (S k)))) (SAGA.x (snd (after s k))).

End SagaPasses.

(** The first index below [n] at which [c] is strictly below [tol]. *)
Fixpoint first_below (c : nat -> Q) (tol : Q) (n : nat) : option nat :=
  match n with
  | O => None
  | S n' => if Qltb (c O) tol then Some O
            else option_map S (first_below (fun i => c (S i)) tol n')
  end.

End Spec.

(** * copt.datasets: the dataset loaders

    The loaders act on the file system, the network and the standard
    output.  These are the fields of an explicit world, threaded through
    every call; the checksum, the archive reader and the svmlight parser
    are parameters of the host. *)

Module Datasets.

Local Open Scope string_scope.

Inductive io_exn : Type :=
| RecursionError
| FileNotFoundError (path : string)
| IsADirectoryError (path : string)
| URLError (url : string)
| ReadError (path : string)
| SvmlightError (path : string).

(** Files by path, directories by path, the URLs requested so far, the
    lines printed so far. *)
Record World : Type := {
  files : string -> option string;
  dirs : string -> bool;
  fetched : list string;
  stdout : list string
}.

Inductive outcome (A : Type) : Type :=
| Returned (a : A) (w : World)
| Raised (e : io_exn) (w : World).

Arguments Returned {A} a w.
Arguments Raised {A} e w.

Definition IO (A : Type) : Type := World -> outcome A.

Definition ret {A : Type} (a : A) : IO A := fun w => Returned a w.

Definition raise {A : Type} (e : io_exn) : IO A := fun w => Raised e w.

Definition io_bind {A B : Type} (c : IO A) (k : A -> IO B) : IO B :=
  fun w => match c w with
           | Returned a w' => k a w'
           | Raised e w' => Raised e w'
           end.

Declare Scope io_scope.
Delimit Scope io_scope with io.
Notation "x <- c ;; k" := (io_bind c (fun x => k))
  (at level 61, c at next level, right associativity) : io_scope.

Local Open Scope io_scope.

(** The world left by a call, however it ended. *)
Definition final {A : Type} (o : outcome A) : World :=
  match o with
  | Returned _ w => w
  | Raised _ w => w
  end.

(** What the network answers to a request. *)
Inductive response : Type :=
| Served (body : string)
| Unreachable.

(** What the loaders take from their host: the data directory read from
    the environment at import, [hashlib.md5(..).hexdigest()], the answer of
    the network to the [n]-th request, the members of a tar archive, and
    the parser behind [load_svmlight_file]. *)
Record Host : Type := {
  DATA_DIR : string;
  md5_hexdigest : string -> string;
  serve : nat -> string -> response;
  untar : string -> option (list (string * string));
  Dataset : Type;
  parse_svmlight : string -> option Dataset
}.

(** [os.path.join] of a directory and a relative name. *)
Definition path_join (dir name : string) : string := dir ++ "/" ++ name.

Definition write (w : World) (path body : string) : World :=
  {| files := fun p => if String.eqb p path then Some body else files w p;
     dirs := dirs w; fetched := fetched w; stdout := stdout w |}.

(** [os.path.exists] *)
Definition path_exists (path : string) : IO bool :=
  fun w => Returned (match files w path with
                     | Some _ => true
                     | None => dirs w path
                     end) w.

(** [os.makedirs] *)
Definition makedirs (path : string) : IO unit :=
  fun w => Returned tt
             {| files := files w;
                dirs := fun p => if String.eqb p path then true else dirs w p;
                fetched := fetched w; stdout := stdout w |}.

(** [print] *)
Definition print (line : string) : IO unit :=
  fun w => Returned tt
             {| files := files w; dirs := dirs w; fetched := fetched w;
                stdout := stdout w ++ [line] |}.

(** [open(path, 'rb').read()] *)
Definition read_bytes (path : string) : IO string :=
  fun w => match files w path with
           | Some body => Returned body w
           | None => if dirs w path then Raised (IsADirectoryError path) w
                     else Raised (FileNotFoundError path) w
           end.

(** [os.remove] *)
Definition remove (path : string) : IO unit :=
  fun w => match files w path with
           | Some _ =>
               Returned tt
                 {| files := fun p => if String.eqb p path then None else files w p;
                    dirs := dirs w; fetched := fetched w; stdout := stdout w |}
           | None => if dirs w path then Raised (IsADirectoryError path) w
                     else Raised (FileNotFoundError path) w
           end.

Section Loaders.

Variable H : Host.

(** [urllib.request.urlretrieve(url, path)] *)
Definition urlretrieve (url path : string) : IO unit :=
  fun w =>
    let w' := {| files := files w; dirs := dirs w;
                 fetched := fetched w ++ [url]; stdout := stdout w |} in
    match serve H (List.length (fetched w)) url with
    | Served body => Returned tt (write w' path body)
    | Unreachable => Raised (URLError url) w'
    end.

(** [tarfile.open(path).extractall(dir)] *)
Definition extractall (path dir : string) : IO unit :=
  body <- read_bytes path ;;
  match untar H body with
  | Some members =>
      fun w => Returned tt
                 (fold_left (fun w m => write w (path_join dir (fst m)) (snd m))
                            members w)
  | None => raise (ReadError path)
  end.

(** [datasets.load_svmlight_file(path)] *)
Definition load_svmlight_file (path : string) : IO (Dataset H) :=
  body <- read_bytes path ;;
  match parse_svmlight H body with
  | Some d => ret d
  | None => raise (SvmlightError path)
  end.

(** [if not os.path.exists(DATA_DIR): os.makedirs(DATA_DIR)] *)
Definition ensure_data_dir : IO unit :=
  present <- path_exists (DATA_DIR H) ;;
  if negb present then makedirs (DATA_DIR H) else ret tt.

(** The constants in which [load_rcv1], [load_url], [load_kdd10] and
    [load_kdd12] differ. *)
Record Source : Type := {
  file_name : string;
  missing : string;
  url : string;
  digest : string
}.

(** The body shared, word for word up to those constants, by [load_rcv1],
    [load_url], [load_kdd10] and [load_kdd12].  [depth] is the number of
    nested calls the interpreter still allows; the retry calls the loader
    with its default [md5_check=True]. *)
Fixpoint load_checked (src : Source) (depth : nat) (md5_check : bool)
  : IO (Dataset H) :=
  match depth with
  | O => raise RecursionError
  | S depth' =>
      _ <- ensure_data_dir ;;
      let file_path := path_join (DATA_DIR H) (file_name src) in
      present <- path_exists file_path ;;
      _ <- (if negb present
            then _ <- print (missing src) ;;
                 _ <- urlretrieve (url src) file_path ;;
                 print "Finished downloading"
            else ret tt) ;;
      if md5_check
      then body <- read_bytes file_path ;;
           let h := md5_hexdigest H body in
           if negb (String.eqb h (digest src))
           then _ <- print "MD5 hash do not coincide" ;;
                _ <- print "Removing file and re-downloading" ;;
                _ <- remove file_path ;;
                load_checked src depth' true
           else load_svmlight_file file_path
      else load_svmlight_file file_path
  end.

Definition rcv1 : Source := {|
  file_name := "rcv1_full.binary.bz2";
  missing := "RCV1 dataset is not present in data folder. Downloading it ...";
  url := "http://s3-eu-west-1.amazonaws.com/copt.bianp.net/datasets/rcv1_full.binary.bz2";
  digest := "6131cf16515e9cce08d112c880b6b817"
|}.

Definition url_combined : Source := {|
  file_name := "url_combined.bz2";
  missing := "URL dataset is not present in data folder. Downloading it ...";
  url := "https://www.csie.ntu.edu.tw/~cjlin/libsvmtools/datasets/binary/url_combined.bz2";
  digest := "83673b8f4224c81968af2fb6022ee487"
|}.

Definition kdd10 : Source := {|
  file_name := "kddb.bz2";
  missing := "KDD10 dataset is not present in data folder. Downloading it ...";
  url := "https://www.csie.ntu.edu.tw/~cjlin/libsvmtools/datasets/binary/kddb.bz2";
  digest := "bc5b630fef6989c2f201039fef497e14"
|}.

Definition kdd12 : Source := {|
  file_name := "kddb12.bz2";
  missing := "KDD12 dataset is not present in data folder. Downloading it ...";
  url := "https://www.csie.ntu.edu.tw/~cjlin/libsvmtools/datasets/binary/kdd12.bz2";
  digest := "c6fc57735c3cf687dd182d60a7b51cda"
|}.

Definition load_rcv1 : nat -> bool -> IO (Dataset H) := load_checked rcv1.
Definition load_url : nat -> bool -> IO (Dataset H) := load_checked url_combined.
Definition load_kdd10 : nat -> bool -> IO (Dataset H) := load_checked kdd10.
Definition load_kdd12 : nat -> bool -> IO (Dataset H) := load_checked kdd12.

(** [load_covtype] takes no argument and checks no checksum. *)
Definition load_covtype : IO (Dataset H) :=
  _ <- ensure_data_dir ;;
  let file_name := path_join (DATA_DIR H) "covtype.libsvm.binary.scale.bz2" in
  present <- path_exists file_name ;;
  _ <- (if negb present
        then _ <- print "Covtype dataset is not present in data folder. Downloading it ..." ;;
             _ <- urlretrieve
                    "https://www.csie.ntu.edu.tw/~cjlin/libsvmtools/datasets/binary/covtype.libsvm.binary.scale.bz2"
                    file_name ;;
             print "Finished downloading"
        else ret tt) ;;
  load_svmlight_file file_name.

(** [load_criteo] unpacks the archive right after the download, checks the
    checksum of the archive, and parses the unpacked training file. *)
Fixpoint load_criteo (depth : nat) (md5_check : bool) : IO (Dataset H) :=
  match depth with
  | O => raise RecursionError
  | S depth' =>
      _ <- ensure_data_dir ;;
      let file_path := path_join (DATA_DIR H) "criteo.kaggle2014.svm.tar.gz" in
      present <- path_exists file_path ;;
      _ <- (if negb present
            then _ <- print "criteo dataset is not present in data folder. Downloading it ..." ;;
                 _ <- urlretrieve
                        "https://s3-us-west-2.amazonaws.com/criteo-public-svm-data/criteo.kaggle2014.svm.tar.gz"
                        file_path ;;
                 _ <- extractall file_path (DATA_DIR H) ;;
                 print "Finished downloading"
            else ret tt) ;;
      if md5_check
      then body <- read_bytes file_path ;;
           let h := md5_hexdigest H body in
           if negb (String.eqb h "d852b491d1b3afa26c1e7b49594ffc3e")
           then _ <- print "MD5 hash do not coincide" ;;
                _ <- print "Removing file and re-downloading" ;;
                _ <- remove file_path ;;
                load_criteo depth' true
           else load_svmlight_file
                  (path_join (DATA_DIR H) "criteo.kaggle2014.train.svm")
      else load_svmlight_file
             (path_join (DATA_DIR H) "criteo.kaggle2014.train.svm")
  end.

(** The constants of [load_covtype], which has no checksum. *)
Definition covtype : Source := {|
  file_name := "covtype.libsvm.binary.scale.bz2";
  missing := "Covtype dataset is not present in data folder. Downloading it ...";
  url := "https://www.csie.ntu.edu.tw/~cjlin/libsvmtools/datasets/binary/covtype.libsvm.binary.scale.bz2";
  digest := ""
|}.

End Loaders.

(** *** Concrete hosts *)

(** A host whose checksum is the content itself, whose network serves
    [good] to every request, and whose parser returns the content. *)
Definition host_serving (good : string) : Host :=
  {| DATA_DIR := "data";
     md5_hexdigest := fun body => body;
     serve := fun _ _ => Served good;
     untar := fun body => Some [("criteo.kaggle2014.train.svm", body)];
     Dataset := string;
     parse_svmlight := fun body => Some body |}.

Definition empty_world : World :=
  {| files := fun _ => None; dirs := fun _ => false; fetched := []; stdout := [] |}.

(** A world holding the data directory and one file. *)
Definition world_with (path body : string) : World :=
  {| files := fun p => if String.eqb p path then Some body else None;
     dirs := fun p => String.eqb p "data"; fetched := []; stdout := [] |}.

End Datasets.

(** * The sample loop of the SAGA kernel

    Lines 149 to 167 of [_saga_algorithm]: the body of
    [for i in sample_indices].  The names the kernel takes from the
    factory ([A_data], [A_indices], [A_indptr], [n_samples], [prox]) and the
    names it reads that no scope binds ([partial_gradient], [b], [d],
    [f_alpha]) are parameters here; [step_size] is the number held by the
    one-element array the driver passes.  As in the coordinate-descent
    kernel, arrays are indexed with [nth]; [shaped] states the lengths under
    which every index the loop uses is in range. *)

Module SagaKernel.

Local Open Scope py_scope.
Local Open Scope Q_scope.

(** The arrays the sample loop mutates in place. *)
Record arrays : Type := {
  x : list Q;
  memory_gradient : list Q;
  gradient_average : list Q
}.

(** [a[i] = v] on an array of floats: [None] is no float. *)
Definition setitem (a : list Q) (i : nat) (v : pyval) : result (list Q) :=
  match v with
  | PyFloat q => Ok (store a i q)
  | PyNone => Raise TypeError
  end.

Section Samples.

Variable A : BCD.compressed.
Variable n_samples : nat.
Variables (partial_gradient : Q -> Q -> Q) (b d : list Q) (f_alpha : Q).
Variable prox : Q -> Q -> pyval.
Variable step_size : Q.

(** [p], the product of row [i] with [x]. *)
Definition prediction (x : list Q) (i : nat) : Q :=
  fold_left
    (fun p j =>
       let j_idx := nth j (BCD.indices A) O in
       p + nth j_idx x 0 * nth j (BCD.data A) 0)
    (BCD.span A i) 0.

(** One trip through the loop under [.. update coefficients ..], for the
    column [j_idx] and the entry [a] stored at the position visited. *)
Definition update_at (grad_i old_grad : Q) (st : arrays) (j_idx : nat) (a : Q)
  : result arrays :=
  let delta := (grad_i - old_grad) * a in
  let incr := delta + nth j_idx d 0
                      * (nth j_idx (gradient_average st) 0
                         + f_alpha * nth j_idx (x st) 0) in
  x' <- setitem (x st) j_idx
          (prox (nth j_idx (x st) 0 - step_size * incr)
                (step_size * nth j_idx d 0)) ;;
  Ok {| x := x';
        memory_gradient := memory_gradient st;
        gradient_average :=
          store (gradient_average st) j_idx
                (nth j_idx (gradient_average st) 0
                 + delta / inject_Z (Z.of_nat n_samples)) |}.

Definition update_coefficient (grad_i old_grad : Q) (st : arrays) (j : nat)
  : result arrays :=
  update_at grad_i old_grad st (nth j (BCD.indices A) O) (nth j (BCD.data A) 0).

(** A [for] loop whose body may raise. *)
Definition for_each {S T : Type} (body : S -> T -> result S) (l : list T)
    (s : S) : result S :=
  fold_left (fun acc t => bind acc (fun s => body s t)) l (Ok s).

(** Body of [for i in sample_indices]. *)
Definition sample_step (st : arrays) (i : nat) : result arrays :=
  let p := prediction (x st) i in
  let grad_i := partial_gradient p (nth i b 0) in
  let old_grad := nth i (memory_gradient st) 0 in
  let st1 := {| x := x st;
                memory_gradient := store (memory_gradient st) i grad_i;
                gradient_average := gradient_average st |} in
  for_each (update_coefficient grad_i old_grad) (BCD.span A i) st1.

(** [for i in sample_indices: ...] *)
Definition sample_loop (sample_indices : list nat) (st : arrays) : result arrays :=
  for_each sample_step sample_indices st.

End Samples.

(** The lengths of the arrays for the samples and features of [M]. *)
Definition shaped (M : BCD.matrix) (b d : list Q) (st : arrays) : Prop :=
  List.length b = BCD.n_rows M /\
  List.length d = BCD.n_cols M /\
  List.length (x st) = BCD.n_cols M /\
  List.length (memory_gradient st) = BCD.n_rows M /\
  List.length (gradient_average st) = BCD.n_cols M.

(** [gradient_average] holds, column by column, the sum over the samples of
    [memory_gradient[i] * A[i, j] / n_samples]. *)
Definition averaged (M : BCD.matrix) (st : arrays) : Prop :=
  List.length (memory_gradient st) = BCD.n_rows M /\
  List.length (gradient_average st) = BCD.n_cols M /\
  forall j, (j < BCD.n_cols M)%nat ->
    nth j (gradient_average st) 0
    == Spec.qsum (fun i => nth i (memory_gradient st) 0 * BCD.entry M i j
                           / inject_Z (Z.of_nat (BCD.n_rows M)))
                 (seq 0 (BCD.n_rows M)).

End SagaKernel.

(** * Properties *)

(** ** Scalars *)

Lemma Qltb_spec (a b : Q) : Qltb a b = true <-> (a < b)%Q.
Proof.
  unfold Qltb. rewrite negb_true_iff. split; intro H.
  - apply Qnot_le_lt. intro L. apply Qle_bool_iff in L. congruence.
  - destruct (Qle_bool b a) eqn:E; [|reflexivity].
    apply Qle_bool_iff in E. exfalso. apply (Qlt_not_le _ _ H E).
Qed.

Lemma Qltb_false (a b : Q) : Qltb a b = false <-> ~ (a < b)%Q.
Proof.
  rewrite <- Qltb_spec. destruct (Qltb a b); split; congruence.
Qed.

Lemma Qle_bool_false (a b : Q) : Qle_bool a b = false <-> (b < a)%Q.
Proof.
  rewrite <- Qltb_spec. unfold Qltb.
  destruct (Qle_bool a b); simpl; split; congruence.
Qed.

(** ** SAGA: the factory *)

Lemma select_prox_sign (beta : Q) :
  (Qle_bool 0 beta = true /\ exists prox, SAGA.select_prox beta = Ok prox) \/
  (Qle_bool 0 beta = false /\ SAGA.select_prox beta = Raise ValueError).
Proof.
  unfold SAGA.select_prox.
  destruct (Qltb 0 beta) eqn:Hpos.
  - left. apply Qltb_spec in Hpos. split; [|eauto].
    apply Qle_bool_iff. apply Qlt_le_weak. exact Hpos.
  - apply Qltb_false in Hpos.
    destruct (Qeq_bool beta 0) eqn:Hz.
    + left. apply Qeq_bool_iff in Hz. split; [|eauto].
      apply Qle_bool_iff. rewrite Hz. apply Qle_refl.
    + right. split; [|reflexivity].
      apply Qle_bool_false. apply Qnot_le_lt. intro Hle.
      apply Qeq_bool_neq in Hz. apply Hz.
      apply Qle_antisym; [|exact Hle].
      apply Qnot_lt_le. exact Hpos.
Qed.

Lemma load_global_A : Scope.load_global "A" = Raise (NameError "A").
Proof. reflexivity. Qed.

Lemma factory_raises (f_deriv : Q -> Q -> Q) (alpha beta : Q) :
  SAGA._factory_SAGA_epoch f_deriv alpha beta
  = Raise (if Qle_bool 0 beta then NameError "A" else ValueError).
Proof.
  unfold SAGA._factory_SAGA_epoch.
  destruct (select_prox_sign beta) as [[Hs [prox Hp]] | [Hs Hp]];
    rewrite Hs, Hp; reflexivity.
Qed.

(** Every name the L1 [prox] reads resolves. *)
Lemma prox_reads_resolve :
  Scope.unbound_loads [SAGA.code_factory] SAGA.code_prox = [].
Proof. reflexivity. Qed.

(** The driver passes five arguments to a kernel of eight parameters: were
    the factory to return, the first call of the epoch would raise. *)
Lemma call_epoch_arity (body : SAGA.closure -> SAGA.State -> result SAGA.State)
    (epoch_iteration : SAGA.closure) (st : SAGA.State) :
  SAGA.cl_code epoch_iteration = SAGA.code_saga_algorithm ->
  SAGA.call_epoch body epoch_iteration st = Raise TypeError.
Proof.
  intro H. unfold SAGA.call_epoch. rewrite H. reflexivity.
Qed.

(** The driver raises for every input: at [x0.size] when [x0] is no
    array, else at the test of [step_size], else in the factory. *)
Lemma minimizelp_SAGA_raises (Sh : Shuffler)
    (body : SAGA.closure -> SAGA.State -> result SAGA.State) (rng : RNG Sh)
    (f_deriv : Q -> Q -> Q) (n_samples : nat) (x0 : option array_like)
    (alpha beta : Q) (step_size : option Q)
    (max_iter : Z) (tol : Q) (verbose : bool)
    (callback : option (list Q -> list Q)) :
  SAGA.minimizelp_SAGA Sh body rng f_deriv n_samples x0 alpha beta step_size
                       max_iter tol verbose callback
  = Raise (match size x0 with
           | Raise e => e
           | Ok _ => match step_size with
                     | None => ValueError
                     | Some _ => if Qle_bool 0 beta then NameError "A"
                                 else ValueError
                     end
           end).
Proof.
  unfold SAGA.minimizelp_SAGA.
  destruct (size x0) as [n_features|e]; [|reflexivity].
  cbn [bind]. destruct step_size as [s|]; [|reflexivity].
  rewrite factory_raises. reflexivity.
Qed.

(** C1: with a step size given, [minimizelp_SAGA] raises for every input
    and never returns a result: for an array [x0], [ValueError] for a
    negative [beta], otherwise [NameError] for [A], the one name the
    factory reads that no scope binds; for an [x0] that is no array,
    [AttributeError] at [x0.size], earlier still.  The error of the factory
    comes before the driver loop starts its first epoch.  The kernel in
    turn reads four names that no scope binds: [partial_gradient], [b],
    [d] and [f_alpha]. *)
Theorem minimizelp_SAGA_never_returns :
  forall (Sh : Shuffler) (body : SAGA.closure -> SAGA.State -> result SAGA.State)
         (rng : RNG Sh) (f_deriv : Q -> Q -> Q) (n_samples : nat)
         (x0 : option array_like)
         (alpha beta s : Q) (max_iter : Z) (tol : Q) (verbose : bool)
         (callback : option (list Q -> list Q)),
    SAGA.minimizelp_SAGA Sh body rng f_deriv n_samples x0 alpha beta (Some s)
                         max_iter tol verbose callback
    = Raise (match size x0 with
             | Raise e => e
             | Ok _ => if Qle_bool 0 beta then NameError "A" else ValueError
             end)
    /\ SAGA._factory_SAGA_epoch f_deriv alpha beta
       = Raise (if Qle_bool 0 beta then NameError "A" else ValueError)
    /\ Scope.unbound_loads [] SAGA.code_factory = ["A"%string]
    /\ Scope.unbound_loads [SAGA.code_factory] SAGA.code_saga_algorithm
       = ["partial_gradient"; "b"; "d"; "f_alpha"]%string.
Proof.
  intros. split; [|split; [|split]].
  - apply (minimizelp_SAGA_raises Sh body rng f_deriv n_samples x0 alpha beta
             (Some s)).
  - apply factory_raises.
  - reflexivity.
  - reflexivity.
Qed.

(** ** SAGA: the proximal operator *)

Lemma select_prox_positive (beta : Q) :
  (0 < beta)%Q -> SAGA.select_prox beta = Ok (SAGA.prox_l1 beta).
Proof.
  intro H. unfold SAGA.select_prox.
  apply Qltb_spec in H. rewrite H. reflexivity.
Qed.

Lemma prox_l1_None (beta v gamma : Q) : SAGA.prox_l1 beta v gamma = PyNone.
Proof. reflexivity. Qed.

(** The value the L1 [prox] computes and drops vanishes on the
    threshold interval. *)
Lemma soft_threshold_dead_zone (beta v gamma : Q) :
  (- (beta * gamma) <= v)%Q -> (v <= beta * gamma)%Q ->
  (SAGA.soft_threshold beta v gamma == 0)%Q.
Proof.
  intros Hlo Hhi. unfold SAGA.soft_threshold.
  assert (H1 : Qmax (v - beta * gamma) 0 == 0) by (apply Q.max_r; lra).
  assert (H2 : Qmax (- v - beta * gamma) 0 == 0) by (apply Q.max_r; lra).
  rewrite H1, H2. reflexivity.
Qed.

(** C4: for the penalty weight 1, the coordinate value 3 and the step 1
    the factory selects the L1 operator, whose body computes the
    soft-threshold value 2 and then returns [None]. *)
Theorem prox_l1_returns_None :
  exists prox,
    SAGA.select_prox 1 = Ok prox
    /\ prox 3%Q 1%Q = PyNone
    /\ prox 3%Q 1%Q <> PyFloat (Qmax (3 - 1 * 1) 0 - Qmax (- (3) - 1 * 1) 0)
    /\ (SAGA.soft_threshold 1 3 1 == 2)%Q.
Proof.
  exists (SAGA.prox_l1 1). split; [reflexivity|].
  split; [reflexivity|]. split; [discriminate|].
  reflexivity.
Qed.

(** ** Arrays *)

Lemma length_store {T : Type} (l : list T) (i : nat) (v : T) :
  List.length (store l i v) = List.length l.
Proof.
  revert i. induction l as [|h t IH]; intros [|i]; simpl; auto.
Qed.

Lemma nth_store_same {T : Type} (l : list T) (i : nat) (v d : T) :
  (i < List.length l)%nat -> nth i (store l i v) d = v.
Proof.
  revert i. induction l as [|h t IH]; intros [|i] H; simpl in *; try lia; auto.
  apply IH. lia.
Qed.

Lemma nth_store_other {T : Type} (l : list T) (i k : nat) (v d : T) :
  i <> k -> nth k (store l i v) d = nth k l d.
Proof.
  revert i k. induction l as [|h t IH]; intros [|i] [|k] H; simpl; auto.
  congruence.
Qed.

Lemma last_cons_default {T : Type} (a d : T) (l : list T) :
  last (a :: l) d = last l a.
Proof.
  revert a d. induction l as [|h t IH]; intros a d; [reflexivity|].
  change (last (a :: h :: t) d) with (last (h :: t) d).
  rewrite !IH. reflexivity.
Qed.

Lemma py_range_length (a b : Z) : List.length (py_range a b) = Z.to_nat (b - a).
Proof. unfold py_range. rewrite length_map, length_seq. reflexivity. Qed.

Lemma py_range_empty (a b : Z) : (b <= a)%Z -> py_range a b = [].
Proof.
  intro H. unfold py_range.
  replace (Z.to_nat (b - a)) with O by lia. reflexivity.
Qed.

Lemma py_range_last (a b d : Z) :
  (a < b)%Z -> last (py_range a b) d = (b - 1)%Z.
Proof.
  intro H. unfold py_range.
  destruct (Z.to_nat (b - a)) as [|n] eqn:E; [lia|].
  rewrite seq_S, map_app. simpl. rewrite last_last. lia.
Qed.

(** ** BCD: what the kernel touches *)

Section KernelFacts.

Import BCD Spec.

Variable Sh : Shuffler.
Variables (n_samples n_features : nat).
Variables (step_size f_alpha : Q) (partial_gradient prox : Q -> Q -> Q).
Variables (A_csr A_csc : compressed) (b : list Q).

Local Notation step :=
  (coordinate_step n_samples step_size f_alpha partial_gradient prox A_csr A_csc b).
Local Notation pass :=
  (epoch Sh n_samples step_size f_alpha partial_gradient prox A_csr A_csc b).

Lemma step_trace_x (st : arrays) (j : nat) : trace_x (step st j) = trace_x st.
Proof. unfold coordinate_step. destruct (Nat.eqb j 0); reflexivity. Qed.

Lemma step_adds_events (st : arrays) (j : nat) :
  events (step st j) = events st ++ step_events j.
Proof.
  unfold coordinate_step, step_events. destruct (Nat.eqb j 0); reflexivity.
Qed.

Lemma step_x_dtype (st : arrays) (j : nat) : x_dtype (step st j) = x_dtype st.
Proof. unfold coordinate_step. destruct (Nat.eqb j 0); reflexivity. Qed.

(** The numbers a coordinate step writes depend on [x], its element type
    and [Ax] alone. *)
Lemma step_numbers (st1 st2 : arrays) (j : nat) :
  x st1 = x st2 -> x_dtype st1 = x_dtype st2 -> Ax st1 = Ax st2 ->
  x (step st1 j) = x (step st2 j) /\ Ax (step st1 j) = Ax (step st2 j).
Proof.
  intros Hx Ht HA. unfold coordinate_step. rewrite Hx, Ht, HA.
  destruct (Nat.eqb j 0); simpl; auto.
Qed.

Lemma steps_trace_x (l : list nat) (st : arrays) :
  trace_x (fold_left step l st) = trace_x st.
Proof.
  revert st. induction l as [|j l IH]; intro st; simpl; [reflexivity|].
  rewrite IH. apply step_trace_x.
Qed.

Lemma steps_add_events (l : list nat) (st : arrays) :
  events (fold_left step l st) = events st ++ flat_map step_events l.
Proof.
  revert st. induction l as [|j l IH]; intro st; simpl.
  - rewrite app_nil_r. reflexivity.
  - rewrite IH, step_adds_events, <- app_assoc. reflexivity.
Qed.

Lemma steps_length_x (l : list nat) (st : arrays) :
  List.length (x (fold_left step l st)) = List.length (x st).
Proof.
  revert st. induction l as [|j l IH]; intro st; simpl; [reflexivity|].
  rewrite IH. unfold coordinate_step.
  destruct (Nat.eqb j 0); cbn [x]; apply length_store.
Qed.

Lemma steps_x_dtype (l : list nat) (st : arrays) :
  x_dtype (fold_left step l st) = x_dtype st.
Proof.
  revert st. induction l as [|j l IH]; intro st; simpl; [reflexivity|].
  rewrite IH. apply step_x_dtype.
Qed.

Lemma steps_numbers (l : list nat) (st1 st2 : arrays) :
  x st1 = x st2 -> x_dtype st1 = x_dtype st2 -> Ax st1 = Ax st2 ->
  x (fold_left step l st1) = x (fold_left step l st2)
  /\ Ax (fold_left step l st1) = Ax (fold_left step l st2).
Proof.
  revert st1 st2. induction l as [|j l IH]; intros st1 st2 Hx Ht HA; simpl; auto.
  destruct (step_numbers st1 st2 j Hx Ht HA) as [Hx' HA'].
  apply IH; [assumption | rewrite !step_x_dtype; exact Ht | assumption].
Qed.

(** A run of passes: the trace buffer is left as it was, the record grows
    by the events of the passes drawn, the counter ends at the last pass
    number, and [x], [Ax] are those obtained by the coordinate steps in the
    order visited. *)
Lemma passes_run (its : list Z) :
  forall (st : arrays) (fi : list nat) (rng : RNG Sh) (it0 : Z)
         (st' : arrays) (fi' : list nat) (rng' : RNG Sh) (it' : Z),
    fold_left pass its (st, fi, rng, it0) = (st', fi', rng', it') ->
    trace_x st' = trace_x st
    /\ events st' = events st ++ flat_map pass_events (draws Sh its rng fi)
    /\ it' = last its it0
    /\ x st' = x (fold_left step (flat_map snd (draws Sh its rng fi)) st)
    /\ Ax st' = Ax (fold_left step (flat_map snd (draws Sh its rng fi)) st).
Proof.
  induction its as [|it rest IH]; intros st fi rng it0 st' fi' rng' it' H.
  - simpl in H. inversion H; subst. simpl. rewrite app_nil_r. auto.
  - simpl draws. destruct (shuffle Sh rng fi) as [order rng1] eqn:Hs.
    assert (Hp : pass (st, fi, rng, it0) it
                 = (fold_left step order (note st (Shuffle it order)), order, rng1, it))
      by (unfold epoch; rewrite Hs; reflexivity).
    cbn [fold_left] in H. rewrite Hp in H.
    apply IH in H. destruct H as (Ht & He & Hi & Hx & HA).
    rewrite steps_trace_x in Ht. rewrite steps_add_events in He.
    simpl in Ht, He. rewrite <- !app_assoc in He. simpl in He.
    split; [exact Ht|]. split; [exact He|].
    split.
    + rewrite Hi. symmetry. apply last_cons_default.
    + simpl flat_map. rewrite fold_left_app.
      set (s1 := fold_left step order (note st (Shuffle it order))) in *.
      set (s2 := fold_left step order st).
      assert (Hn : x s1 = x s2 /\ Ax s1 = Ax s2)
        by (apply steps_numbers; reflexivity).
      destruct Hn as [Hn1 Hn2].
      assert (Hnt : x_dtype s1 = x_dtype s2)
        by (unfold s1, s2; rewrite !steps_x_dtype; reflexivity).
      destruct (steps_numbers (flat_map snd (draws Sh rest rng1 order)) s1 s2
                              Hn1 Hnt Hn2)
        as [E1 E2].
      rewrite Hx, HA. split; assumption.
Qed.

Lemma draws_length (its : list Z) (rng : RNG Sh) (fi : list nat) :
  List.length (draws Sh its rng fi) = List.length its.
Proof.
  revert rng fi. induction its as [|it rest IH]; intros rng fi; simpl; auto.
  destruct (shuffle Sh rng fi) as [order rng']. simpl. rewrite IH. reflexivity.
Qed.

Lemma draws_permutations (its : list Z) (rng : RNG Sh) (fi : list nat) :
  Forall (fun p => Permutation fi (snd p)) (draws Sh its rng fi).
Proof.
  revert rng fi. induction its as [|it rest IH]; intros rng fi; simpl; auto.
  pose proof (shuffle_perm Sh rng fi) as Hp.
  destruct (shuffle Sh rng fi) as [order rng']. simpl in Hp.
  constructor; [exact Hp|].
  eapply Forall_impl; [|apply IH]. intros p Hq. simpl in Hq.
  eapply Permutation_trans; eassumption.
Qed.


End KernelFacts.



(** ** BCD: the kernel as a whole *)

Lemma py_range_1_last (max_iter : Z) :
  last (py_range 1 max_iter) 0%Z = Z.max 0 (max_iter - 1).
Proof.
  destruct (Z_lt_le_dec 1 max_iter) as [H|H].
  - rewrite py_range_last by exact H. lia.
  - rewrite py_range_empty by exact H. simpl. lia.
Qed.

Lemma kernel_run (Sh : Shuffler) (n_samples n_features : nat) (max_iter : Z)
    (step_size f_alpha : Q) (partial_gradient prox : Q -> Q -> Q)
    (rng : RNG Sh) (st : BCD.arrays) (A_csr A_csc : BCD.compressed)
    (b : list Q) (tol : Q)
    (it : Z) (cert : pyval) (st' : BCD.arrays) (rng' : RNG Sh) :
  BCD._bcd_algorithm Sh n_samples n_features max_iter step_size f_alpha
                     partial_gradient prox rng st A_csr A_csc b tol
  = (it, cert, st', rng') ->
  it = Z.max 0 (max_iter - 1)
  /\ cert = PyNone
  /\ BCD.trace_x st' = BCD.trace_x st
  /\ BCD.events st'
     = BCD.events st
       ++ flat_map Spec.pass_events
            (Spec.draws Sh (py_range 1 max_iter) rng (arange n_features))
  /\ BCD.x st'
     = BCD.x (fold_left
                (BCD.coordinate_step n_samples step_size f_alpha
                                     partial_gradient prox A_csr A_csc b)
                (Spec.visits Sh max_iter rng n_features) st)
  /\ BCD.Ax st'
     = BCD.Ax (fold_left
                 (BCD.coordinate_step n_samples step_size f_alpha
                                      partial_gradient prox A_csr A_csc b)
                 (Spec.visits Sh max_iter rng n_features) st).
Proof.
  unfold BCD._bcd_algorithm. intro H.
  destruct (fold_left _ (py_range 1 max_iter) _) as [[[s fi] r] i] eqn:K.
  inversion H; subst. clear H.
  apply passes_run in K. destruct K as (Ht & He & Hi & Hx & HA).
  rewrite py_range_1_last in Hi. unfold Spec.visits. auto 6.
Qed.

(** The kernel never reads [tol]. *)
Lemma kernel_ignores_tol (Sh : Shuffler) (n_samples n_features : nat)
    (max_iter : Z) (step_size f_alpha : Q) (partial_gradient prox : Q -> Q -> Q)
    (rng : RNG Sh) (st : BCD.arrays) (A_csr A_csc : BCD.compressed)
    (b : list Q) (tol tol' : Q) :
  BCD._bcd_algorithm Sh n_samples n_features max_iter step_size f_alpha
                     partial_gradient prox rng st A_csr A_csc b tol
  = BCD._bcd_algorithm Sh n_samples n_features max_iter step_size f_alpha
                       partial_gradient prox rng st A_csr A_csc b tol'.
Proof. reflexivity. Qed.

(** ** BCD: the driver *)

Lemma trace_values_constant (f : BCD.Loss) (g : BCD.Penalty) (row : list Q)
    (n k : nat) :
  forall (a : nat) (acc : list Q),
    (a + k <= n)%nat ->
    BCD.trace_values f g (repeat row n) (map Z.of_nat (seq a k)) acc
    = Ok (acc ++ repeat (BCD.f_call f row + BCD.g_call g row)%Q k).
Proof.
  induction k as [|k IH]; intros a acc H; simpl.
  - rewrite app_nil_r. reflexivity.
  - unfold BCD.getitem. rewrite Nat2Z.id.
    rewrite (nth_error_repeat row) by lia. simpl.
    rewrite IH by lia. rewrite <- app_assoc. reflexivity.
Qed.

Lemma py_range_0 (n : Z) : py_range 0 n = map Z.of_nat (seq 0 (Z.to_nat n)).
Proof.
  unfold py_range. rewrite Z.sub_0_r. apply map_ext. intro k. lia.
Qed.

(** What a call that returns went through, and what it returns. *)
Lemma minimize_BCD_returns (Sh : Shuffler) (rng : RNG Sh) (clock : BCD.Clock)
    (f : BCD.Loss) (g : option BCD.Penalty) (x0 : option array_like)
    (step_size : option Q) (max_iter : Z) (trace verbose : bool) (tol : Q)
    (r : OptimizeResult) :
  BCD.minimize_BCD Sh rng clock f g x0 step_size max_iter trace verbose tol = Ok r ->
  exists (s : Q) (Ax : list Q) (tx : list (list Q))
         (st : BCD.arrays) (rng' : RNG Sh) (tf tt : list Q),
    s = Spec.step_in_use f step_size
    /\ BCD.dot (BCD.f_A f) (Spec.start_vector f x0) = Ok Ax
    /\ BCD.new_trace_x trace max_iter (BCD.n_cols (BCD.f_A f)) = Ok tx
    /\ BCD._bcd_algorithm Sh (BCD.n_rows (BCD.f_A f)) (BCD.n_cols (BCD.f_A f))
         max_iter s (BCD.f_alpha f) (BCD.f_partial_gradient_factory f)
         (BCD.g_prox_factory (Spec.penalty g)) rng
         {| BCD.x := Spec.start_vector f x0;
            BCD.x_dtype := Spec.start_dtype x0; BCD.Ax := Ax; BCD.trace_x := tx;
            BCD.events := [] |}
         (BCD.csr_matrix (BCD.f_A f)) (BCD.csc_matrix (BCD.f_A f)) (BCD.f_b f) tol
       = (Z.max 0 (max_iter - 1), PyNone, st, rng')
    /\ (if trace
        then tf = repeat (BCD.f_call f (zeros (BCD.n_cols (BCD.f_A f)))
                          + BCD.g_call (Spec.penalty g) (zeros (BCD.n_cols (BCD.f_A f))))%Q
                         (Z.to_nat (max_iter - 1))
             /\ tt = BCD.linspace 0 (BCD.elapsed clock) (Z.max 0 (max_iter - 1))
        else tf = [] /\ tt = [BCD.lag clock])
    /\ r = {| r_x := BCD.x st; r_success := false;
              r_nit := Z.max 0 (max_iter - 1); r_message := None;
              r_trace_func := Some tf; r_trace_time := Some tt;
              r_certificate := Some PyNone |}.
Proof.
  unfold BCD.minimize_BCD.
  fold (Spec.start_vector f x0). fold (Spec.start_dtype x0).
  fold (Spec.penalty g). fold (Spec.step_in_use f step_size).
  intro H. cbv zeta in H.
  remember (Spec.step_in_use f step_size) as s eqn:Hs.
  destruct (BCD.dot (BCD.f_A f) (Spec.start_vector f x0)) as [Ax|e] eqn:Hd;
    [|discriminate].
  cbn [bind BCD.shape] in H.
  destruct (BCD.new_trace_x trace max_iter (BCD.n_cols (BCD.f_A f))) as [tx|e] eqn:Ht;
    [|discriminate].
  cbn [bind] in H.
  destruct (BCD._bcd_algorithm _ _ _ _ _ _ _ _ _ _ _ _ _ _)
    as [[[n_iter cert] st] rng'] eqn:K.
  pose proof (kernel_run _ _ _ _ _ _ _ _ _ _ _ _ _ _ _ _ _ _ K) as (Hi & Hc & Htx & _).
  subst n_iter cert. simpl in Htx. rewrite Htx in H. clear Htx.
  exists s, Ax, tx, st, rng'.
  destruct trace.
  - assert (Hnn : (0 <= max_iter)%Z).
    { unfold BCD.new_trace_x in Ht.
      destruct (max_iter <? 0)%Z eqn:Hneg; [discriminate|].
      apply Z.ltb_ge in Hneg. exact Hneg. }
    assert (Htx : tx = repeat (zeros (BCD.n_cols (BCD.f_A f))) (Z.to_nat max_iter)).
    { unfold BCD.new_trace_x in Ht.
      destruct (max_iter <? 0)%Z; [discriminate|]. congruence. }
    rewrite Htx, py_range_0 in H.
    rewrite trace_values_constant in H by lia.
    cbn [bind app] in H.
    replace (Z.to_nat (Z.max 0 (max_iter - 1))) with (Z.to_nat (max_iter - 1))
      in H by lia.
    eexists _, _.
    split; [reflexivity|]. split; [reflexivity|]. split; [reflexivity|].
    split; [exact K|]. split; [split; reflexivity|].
    congruence.
  - cbn [bind] in H.
    eexists _, _.
    split; [reflexivity|]. split; [reflexivity|]. split; [reflexivity|].
    split; [exact K|]. split; [split; reflexivity|].
    congruence.
Qed.

(** C10: whenever [minimize_BCD] returns, the result has [success] false
    and [certificate] equal to [None]. *)
Theorem minimize_BCD_never_succeeds :
  forall (Sh : Shuffler) (rng : RNG Sh) (clock : BCD.Clock) (f : BCD.Loss)
         (g : option BCD.Penalty) (x0 : option array_like) (step_size : option Q)
         (max_iter : Z) (trace verbose : bool) (tol : Q) (r : OptimizeResult),
    BCD.minimize_BCD Sh rng clock f g x0 step_size max_iter trace verbose tol = Ok r ->
    r_success r = false /\ r_certificate r = Some PyNone.
Proof.
  intros Sh rng clock f g x0 step_size max_iter trace verbose tol r H.
  apply minimize_BCD_returns in H.
  destruct H as (s & Ax & tx & st & rng' & tf & tt & _ & _ & _ & _ & _ & Hr).
  subst r. split; reflexivity.
Qed.

Lemma minimize_BCD_never_succeeds_witness :
  exists r,
    BCD.minimize_BCD Examples.shuffle_rev tt Examples.clock0 Examples.f0
                     None None None 3 true false 0 = Ok r
    /\ r_success r = false /\ r_certificate r = Some PyNone.
Proof.
  eexists. split; [vm_compute; reflexivity|].
  apply (minimize_BCD_never_succeeds Examples.shuffle_rev tt Examples.clock0
           Examples.f0 None None None 3 true false 0).
  vm_compute. reflexivity.
Defined.

(** C9: with [max_iter = 0], [minimizelp_SAGA] raises; [minimize_BCD]
    either raises or returns [success = false], [nit = 0] and [x] equal to
    the initial vector; its kernel runs no pass and leaves every array as
    it was. *)
Theorem max_iter_zero_no_epoch :
  forall (Sh : Shuffler) (body : SAGA.closure -> SAGA.State -> result SAGA.State)
         (rng : RNG Sh) (f_deriv : Q -> Q -> Q) (n_samples : nat)
         (x0 : option array_like)
         (alpha beta : Q) (step_size : option Q) (tol : Q) (verbose : bool)
         (callback : option (list Q -> list Q))
         (clock : BCD.Clock) (f : BCD.Loss) (g : option BCD.Penalty)
         (x0' : option array_like) (step_size' : option Q) (trace verbose' : bool)
         (tol' : Q)
         (n_features : nat) (s alpha' : Q) (partial_gradient prox : Q -> Q -> Q)
         (st : BCD.arrays) (A_csr A_csc : BCD.compressed) (b : list Q),
    raises (SAGA.minimizelp_SAGA Sh body rng f_deriv n_samples x0 alpha beta
                                 step_size 0 tol verbose callback)
    /\ (raises (BCD.minimize_BCD Sh rng clock f g x0' step_size' 0 trace verbose' tol')
        \/ exists r,
             BCD.minimize_BCD Sh rng clock f g x0' step_size' 0 trace verbose' tol' = Ok r
             /\ r_success r = false
             /\ r_nit r = 0%Z
             /\ r_x r = Spec.start_vector f x0')
    /\ BCD._bcd_algorithm Sh n_samples n_features 0 s alpha' partial_gradient prox
                          rng st A_csr A_csc b tol'
       = (0%Z, PyNone, st, rng).
Proof.
  intros. split; [|split].
  - eexists. apply minimizelp_SAGA_raises.
  - destruct (BCD.minimize_BCD Sh rng clock f g x0' step_size' 0 trace verbose' tol')
      as [r|e] eqn:H.
    + right. exists r. split; [reflexivity|].
      apply minimize_BCD_returns in H.
      destruct H as (s1 & Ax & tx & st1 & rng1 & tf & tt & _ & _ & _ & K & _ & Hr).
      unfold BCD._bcd_algorithm in K. simpl in K. inversion K; subst st1.
      subst r. simpl. auto.
    + left. exists e. reflexivity.
  - reflexivity.
Qed.

(** C2, as amended: with [step_size] unset, [minimizelp_SAGA] raises at
    entry for every input and produces no result: [ValueError] when [x0] is
    an array, [AttributeError] at [x0.size], one line earlier, when it is a
    list or [None].  [minimize_BCD] does not raise on that account: it
    takes the reciprocal of [f.lipschitz_constant('features')] as its step
    and, that constant being nonzero, goes on exactly as if that value had
    been passed. *)
Theorem step_size_unset :
  forall (Sh : Shuffler) (body : SAGA.closure -> SAGA.State -> result SAGA.State)
         (rng : RNG Sh) (f_deriv : Q -> Q -> Q) (n_samples : nat)
         (x0 : option array_like)
         (alpha beta : Q) (max_iter : Z) (tol : Q) (verbose : bool)
         (callback : option (list Q -> list Q))
         (clock : BCD.Clock) (f : BCD.Loss) (g : option BCD.Penalty)
         (x0' : option array_like) (max_iter' : Z) (trace verbose' : bool) (tol' : Q),
    SAGA.minimizelp_SAGA Sh body rng f_deriv n_samples x0 alpha beta None
                         max_iter tol verbose callback
    = Raise (match size x0 with
             | Raise e => e
             | Ok _ => ValueError
             end)
    /\ (~ BCD.f_lipschitz_constant f "features" == 0 ->
        BCD.minimize_BCD Sh rng clock f g x0' None max_iter' trace verbose' tol'
        = BCD.minimize_BCD Sh rng clock f g x0'
            (Some (1 / BCD.f_lipschitz_constant f "features")%Q)
            max_iter' trace verbose' tol').
Proof.
  intros. split.
  - apply (minimizelp_SAGA_raises Sh body rng f_deriv n_samples x0 alpha beta None).
  - intros _. reflexivity.
Qed.

Lemma step_size_unset_witness :
  SAGA.minimizelp_SAGA Examples.shuffle_rev (fun _ st => Ok st) tt
                       (fun p l => p - l)%Q 2 (Some (FloatArray [0; 0]%Q)) 0 0 None
                       5 0 false None
  = Raise ValueError
  /\ SAGA.minimizelp_SAGA Examples.shuffle_rev (fun _ st => Ok st) tt
                          (fun p l => p - l)%Q 2 (Some (FloatList [0; 0]%Q)) 0 0 None
                          5 0 false None
     = Raise (AttributeError "size")
  /\ BCD.minimize_BCD Examples.shuffle_rev tt Examples.clock0 Examples.f0
                      None None None 3 false false 0
     = BCD.minimize_BCD Examples.shuffle_rev tt Examples.clock0 Examples.f0
                        None None (Some (1 / 2)%Q) 3 false false 0.
Proof.
  split; [|split].
  - apply (proj1 (step_size_unset Examples.shuffle_rev (fun _ st => Ok st) tt
                    (fun p l => p - l)%Q 2 (Some (FloatArray [0; 0]%Q)) 0 0 5 0
                    false None Examples.clock0 Examples.f0 None None 3 false
                    false 0)).
  - apply (proj1 (step_size_unset Examples.shuffle_rev (fun _ st => Ok st) tt
                    (fun p l => p - l)%Q 2 (Some (FloatList [0; 0]%Q)) 0 0 5 0
                    false None Examples.clock0 Examples.f0 None None 3 false
                    false 0)).
  - apply (proj2 (step_size_unset Examples.shuffle_rev (fun _ st => Ok st) tt
                    (fun p l => p - l)%Q 2 (Some (FloatArray [0; 0]%Q)) 0 0 5 0
                    false None Examples.clock0 Examples.f0 None None 3 false
                    false 0)).
    vm_compute. discriminate.
Defined.

(** C2, as stated, fails for [minimize_BCD]: on the least-squares problem
    [f0], whose Lipschitz constant is 2, the call with [step_size] unset
    raises nothing; it returns the result of the call with step 1/2. *)
Lemma minimize_BCD_default_step_size :
  ~ raises (BCD.minimize_BCD Examples.shuffle_rev tt Examples.clock0 Examples.f0
                             None None None 3 false false 0)
  /\ exists r,
       BCD.minimize_BCD Examples.shuffle_rev tt Examples.clock0 Examples.f0
                        None None None 3 false false 0 = Ok r
       /\ BCD.minimize_BCD Examples.shuffle_rev tt Examples.clock0 Examples.f0
                           None None (Some (1 # 2)) 3 false false 0 = Ok r
       /\ map Qred (r_x r) = [15 # 16; 41 # 64].
Proof.
  split.
  - intros [e H]. vm_compute in H. discriminate.
  - eexists. split; [vm_compute; reflexivity|].
    split; vm_compute; reflexivity.
Qed.

(** ** BCD: passes and resynchronisation *)

Lemma py_range_1_length (max_iter : Z) :
  List.length (py_range 1 max_iter) = Z.to_nat (max_iter - 1).
Proof. apply py_range_length. Qed.




Lemma resync_triggers_update (j : nat) (l : list nat) :
  Spec.resync_triggers (BCD.Update j :: flat_map Spec.step_events l)
  = Spec.resync_triggers (flat_map Spec.step_events l).
Proof.
  destruct l as [|k l]; simpl; [reflexivity|].
  unfold Spec.step_events. destruct (Nat.eqb k 0); reflexivity.
Qed.

(** A full recomputation follows the update of feature 0, once for each
    occurrence of 0 in the order, and follows nothing else. *)
Lemma resync_triggers_steps (l : list nat) :
  Spec.resync_triggers (flat_map Spec.step_events l)
  = repeat O (count_occ Nat.eq_dec l O).
Proof.
  induction l as [|j l IH]; [reflexivity|].
  destruct j as [|j].
  - change (flat_map Spec.step_events (O :: l))
      with (BCD.Update O :: BCD.Resync :: flat_map Spec.step_events l).
    cbn [Spec.resync_triggers]. rewrite IH. simpl. reflexivity.
  - change (flat_map Spec.step_events (S j :: l))
      with (BCD.Update (S j) :: flat_map Spec.step_events l).
    rewrite resync_triggers_update, IH. simpl. reflexivity.
Qed.

Lemma resyncs_steps (l : list nat) :
  Spec.resyncs (flat_map Spec.step_events l) = count_occ Nat.eq_dec l O.
Proof.
  unfold Spec.resyncs.
  induction l as [|j l IH]; [reflexivity|].
  simpl flat_map. rewrite filter_app, length_app, IH.
  destruct j as [|j]; reflexivity.
Qed.

Lemma count_zero_arange (n : nat) :
  (0 < n)%nat -> count_occ Nat.eq_dec (arange n) O = 1%nat.
Proof.
  intro H. destruct n as [|n]; [lia|].
  unfold arange. simpl. f_equal.
  apply count_occ_not_In. rewrite in_seq. lia.
Qed.

Lemma count_zero_order (n : nat) (order : list nat) :
  (0 < n)%nat -> Permutation (arange n) order ->
  count_occ Nat.eq_dec order O = 1%nat.
Proof.
  intros Hn Hp. rewrite <- (count_zero_arange _ Hn).
  symmetry. apply (proj1 (Permutation_count_occ Nat.eq_dec _ _) Hp).
Qed.

(** C6, as amended: in every pass the full recomputation of [Ax] runs
    exactly once, right after the update of the feature whose index is the
    literal 0, wherever the shuffled order places that index. *)
Theorem resync_at_feature_zero :
  forall (Sh : Shuffler) (n_samples n_features : nat) (max_iter : Z)
         (step_size f_alpha : Q) (partial_gradient prox : Q -> Q -> Q)
         (rng : RNG Sh) (st : BCD.arrays) (A_csr A_csc : BCD.compressed)
         (b : list Q) (tol : Q)
         (it : Z) (cert : pyval) (st' : BCD.arrays) (rng' : RNG Sh),
    (0 < n_features)%nat ->
    BCD._bcd_algorithm Sh n_samples n_features max_iter step_size f_alpha
                       partial_gradient prox rng st A_csr A_csc b tol
    = (it, cert, st', rng') ->
    exists passes : list (Z * list nat),
      BCD.events st' = BCD.events st ++ flat_map Spec.pass_events passes
      /\ List.length passes = Z.to_nat (max_iter - 1)
      /\ Forall (fun p =>
                   Permutation (arange n_features) (snd p)
                   /\ Spec.pass_events p
                      = BCD.Shuffle (fst p) (snd p)
                        :: flat_map (fun j => if Nat.eqb j 0
                                              then [BCD.Update j; BCD.Resync]
                                              else [BCD.Update j]) (snd p)
                   /\ Spec.resync_triggers (Spec.pass_events p) = [O]
                   /\ Spec.resyncs (Spec.pass_events p) = 1%nat)
                passes.
Proof.
  intros until rng'. intros Hn H.
  pose proof (kernel_run _ _ _ _ _ _ _ _ _ _ _ _ _ _ _ _ _ _ H) as (_ & _ & _ & He & _).
  exists (Spec.draws Sh (py_range 1 max_iter) rng (arange n_features)).
  split; [exact He|].
  split; [rewrite draws_length; apply py_range_1_length|].
  eapply Forall_impl; [|apply draws_permutations].
  intros [k order] Hp. simpl in Hp.
  split; [exact Hp|]. split; [reflexivity|].
  pose proof (count_zero_order _ _ Hn Hp) as Hc.
  split.
  - unfold Spec.pass_events. cbn [fst snd Spec.resync_triggers].
    rewrite resync_triggers_steps, Hc. reflexivity.
  - unfold Spec.pass_events. cbn [fst snd].
    change (Spec.resyncs (BCD.Shuffle k order :: flat_map Spec.step_events order))
      with (Spec.resyncs (flat_map Spec.step_events order)).
    rewrite resyncs_steps. exact Hc.
Qed.

Lemma resync_at_feature_zero_witness :
  exists passes : list (Z * list nat),
    List.length passes = 1%nat
    /\ Forall (fun p => Spec.resync_triggers (Spec.pass_events p) = [O]) passes.
Proof.
  destruct (BCD._bcd_algorithm Examples.shuffle_rev 2 2 2 (1 # 2) 0
              (fun p b => p - b)%Q (fun v _ => v) tt
              {| BCD.x := [0; 0]%Q; BCD.x_dtype := float64;
                 BCD.Ax := [0; 0]%Q; BCD.trace_x := [];
                 BCD.events := [] |}
              (BCD.csr_matrix Examples.A0) (BCD.csc_matrix Examples.A0)
              Examples.b0 0)
    as [[[it cert] st'] rng'] eqn:K.
  destruct (resync_at_feature_zero Examples.shuffle_rev _ _ _ _ _ _ _ _ _ _ _ _ _
              _ _ _ _ Nat.lt_0_2 K)
    as (passes & _ & Hl & Hf).
  exists passes. split; [exact Hl|].
  eapply Forall_impl; [|exact Hf]. intros p (_ & _ & Ht & _). exact Ht.
Defined.

(** C6, as stated, fails: in a pass over two features run in the order
    1, 0 the first index processed is 1, yet the one full recomputation
    follows the update of feature 0, the second to be processed. *)
Lemma resync_not_at_first_index :
  let '(_, _, st, _) :=
    BCD._bcd_algorithm Examples.shuffle_rev 2 2 2 (1 # 2) 0
      (fun p b => p - b)%Q (fun v _ => v) tt
      {| BCD.x := [0; 0]%Q; BCD.x_dtype := float64;
         BCD.Ax := [0; 0]%Q; BCD.trace_x := [];
         BCD.events := [] |}
      (BCD.csr_matrix Examples.A0) (BCD.csc_matrix Examples.A0)
      Examples.b0 0 in
  BCD.events st
  = [BCD.Shuffle 1 [1; 0]%nat; BCD.Update 1; BCD.Update 0; BCD.Resync]
  /\ Spec.pass_heads (BCD.events st) = [1%nat]
  /\ Spec.resync_triggers (BCD.events st) = [0%nat]
  /\ Spec.resync_triggers (BCD.events st) <> Spec.pass_heads (BCD.events st).
Proof.
  vm_compute. repeat split; discriminate.
Qed.

(** ** BCD: the trace *)

(** With [trace] set, every entry of [trace_func] is the objective at the
    zero vector: the kernel never writes to the trace buffer. *)
Lemma trace_func_constant (Sh : Shuffler) (rng : RNG Sh) (clock : BCD.Clock)
    (f : BCD.Loss) (g : option BCD.Penalty) (x0 : option array_like)
    (step_size : option Q) (max_iter : Z) (verbose : bool) (tol : Q)
    (r : OptimizeResult) :
  BCD.minimize_BCD Sh rng clock f g x0 step_size max_iter true verbose tol = Ok r ->
  r_trace_func r
  = Some (repeat (BCD.f_call f (zeros (BCD.n_cols (BCD.f_A f)))
                  + BCD.g_call (Spec.penalty g) (zeros (BCD.n_cols (BCD.f_A f))))%Q
                 (Z.to_nat (max_iter - 1))).
Proof.
  intro H. apply minimize_BCD_returns in H.
  destruct H as (s & Ax & tx & st & rng' & tf & tt & _ & _ & _ & _ & [Htf _] & Hr).
  subst r tf. reflexivity.
Qed.

(** C8: on the least-squares problem [f0], three facts about the call with
    [trace] set and [max_iter = 3]: the coefficients move to (15/16, 41/64),
    where the objective is 745/4096; the trace buffer still holds its
    initial zero rows after the kernel; and [trace_func] is (5, 5), the
    objective at the zero vector twice over. *)
Theorem trace_func_ignores_iterates :
  exists r,
    BCD.minimize_BCD Examples.shuffle_rev tt Examples.clock0 Examples.f0
                     None None None 3 true false 0 = Ok r
    /\ map Qred (r_x r) = [15 # 16; 41 # 64]
    /\ Qred (BCD.f_call Examples.f0 (r_x r)) = 745 # 4096
    /\ r_trace_func r = Some [5; 5]%Q
    /\ BCD.f_call Examples.f0 [0; 0]%Q = 5%Q
    /\ (let '(_, _, st, _) :=
          BCD._bcd_algorithm Examples.shuffle_rev 2 2 3 (1 # 2) 0
            (fun p b => p - b)%Q (fun v _ => v) tt
            {| BCD.x := [0; 0]%Q; BCD.x_dtype := float64;
               BCD.Ax := [0; 0]%Q;
               BCD.trace_x := repeat (zeros 2) 3; BCD.events := [] |}
            (BCD.csr_matrix Examples.A0) (BCD.csc_matrix Examples.A0)
            Examples.b0 0 in
        BCD.trace_x st = repeat (zeros 2) 3).
Proof.
  eexists. split; [vm_compute; reflexivity|].
  repeat split; vm_compute; reflexivity.
Qed.

(** ** SAGA: the driver loop *)

Lemma first_below_ext (c c' : nat -> Q) (tol : Q) (n : nat) :
  (forall i, c i = c' i) ->
  Spec.first_below c tol n = Spec.first_below c' tol n.
Proof.
  revert c c'. induction n as [|n IH]; intros c c' H; simpl; [reflexivity|].
  rewrite (H O). destruct (Qltb (c' O) tol); [reflexivity|].
  f_equal. apply IH. intro i. apply H.
Qed.

Lemma first_below_Some (c : nat -> Q) (tol : Q) (n k : nat) :
  (k < n)%nat -> (forall i, (i < k)%nat -> ~ (c i < tol)%Q) -> (c k < tol)%Q ->
  Spec.first_below c tol n = Some k.
Proof.
  revert c k. induction n as [|n IH]; intros c k Hk Hbefore Hat; [lia|].
  simpl. destruct k as [|k].
  - apply Qltb_spec in Hat. rewrite Hat. reflexivity.
  - assert (H0 : Qltb (c O) tol = false) by (apply Qltb_false, Hbefore; lia).
    rewrite H0. rewrite (IH (fun i => c (S i)) k); [reflexivity| lia | | exact Hat].
    intros i Hi. apply Hbefore. lia.
Qed.

Lemma first_below_None (c : nat -> Q) (tol : Q) (n : nat) :
  (forall i, (i < n)%nat -> ~ (c i < tol)%Q) ->
  Spec.first_below c tol n = None.
Proof.
  revert c. induction n as [|n IH]; intros c H; [reflexivity|].
  simpl. assert (H0 : Qltb (c O) tol = false) by (apply Qltb_false, H; lia).
  rewrite H0. rewrite IH; [reflexivity|]. intros i Hi. apply H. lia.
Qed.

Section SagaLoop.

Import Spec.

Variable Sh : Shuffler.
Variable E : SAGA.State -> SAGA.State.
Variable callback : option (list Q -> list Q).
Variable tol : Q.

Lemma after_shift (s : RNG Sh * SAGA.State) (k : nat) :
  after Sh E callback (saga_pass Sh E callback s) k
  = after Sh E callback s (S k).
Proof. unfold after. symmetry. apply Nat.iter_succ_r. Qed.

Lemma change_shift (s : RNG Sh * SAGA.State) (k : nat) :
  change Sh E callback (saga_pass Sh E callback s) k
  = change Sh E callback s (S k).
Proof. unfold change. rewrite !after_shift. reflexivity. Qed.

(** One trip through the loop, in terms of [saga_pass]. *)
Lemma saga_loop_step (it : Z) (rest : list Z) (rng : RNG Sh) (st : SAGA.State)
    (success : bool) (nit : Z) :
  SAGA.saga_loop Sh (fun st => Ok (E st)) callback tol (it :: rest) rng st success nit
  = if Qltb (abs_change (SAGA.x (snd (saga_pass Sh E callback (rng, st))))
                        (SAGA.x st)) tol
    then Ok (snd (saga_pass Sh E callback (rng, st)), true, it)
    else SAGA.saga_loop Sh (fun st => Ok (E st)) callback tol rest
                        (fst (saga_pass Sh E callback (rng, st)))
                        (snd (saga_pass Sh E callback (rng, st))) success it.
Proof.
  cbn [SAGA.saga_loop]. unfold saga_pass.
  destruct (shuffle Sh rng (SAGA.idx st)) as [idx' rng']. reflexivity.
Qed.

(** The loop run on the pass numbers [a .. a + m - 1]. *)
Lemma saga_loop_run (m : nat) :
  forall (a : nat) (rng : RNG Sh) (st : SAGA.State) (success : bool) (nit : Z),
    SAGA.saga_loop Sh (fun st => Ok (E st)) callback tol
                   (map Z.of_nat (seq a m)) rng st success nit
    = match first_below (change Sh E callback (rng, st)) tol m with
      | Some k => Ok (snd (after Sh E callback (rng, st) (S k)), true,
                      Z.of_nat (a + k))
      | None => Ok (snd (after Sh E callback (rng, st) m), success,
                    match m with O => nit | S m' => Z.of_nat (a + m') end)
      end.
Proof.
  induction m as [|m IH]; intros a rng st success nit; [reflexivity|].
  cbn [seq map first_below]. rewrite saga_loop_step.
  change (change Sh E callback (rng, st) 0)
    with (abs_change (SAGA.x (snd (saga_pass Sh E callback (rng, st)))) (SAGA.x st)).
  destruct (Qltb (abs_change (SAGA.x (snd (saga_pass Sh E callback (rng, st))))
                             (SAGA.x st)) tol).
  - rewrite Nat.add_0_r. reflexivity.
  - destruct (saga_pass Sh E callback (rng, st)) as [rng' st2] eqn:Hpass.
    cbn [fst snd]. rewrite IH.
    rewrite (first_below_ext (fun i => change Sh E callback (rng, st) (S i))
                             (change Sh E callback (rng', st2)) tol m).
    2:{ intro i. rewrite <- change_shift, Hpass. reflexivity. }
    destruct (first_below (change Sh E callback (rng', st2)) tol m) as [k|].
    + cbn [option_map]. rewrite <- Hpass, after_shift.
      replace (S a + k)%nat with (a + S k)%nat by lia. reflexivity.
    + cbn [option_map]. rewrite <- Hpass, after_shift.
      destruct m as [|m']; [rewrite Nat.add_0_r; reflexivity|].
      replace (S a + m')%nat with (a + S m')%nat by lia. reflexivity.
Qed.

End SagaLoop.

(** C5: the tolerance test of [minimizelp_SAGA] is never reached.  On
    calls with an array [x0], a step size and [beta = 0], where the solver
    is to run epochs, compare the change of [x] with [tol] and return a
    result with [success] set one way or the other, the call raises
    [NameError] for [A] in the factory, before the first epoch: so with
    the large tolerance 10 and five epochs allowed, and so with the
    tolerance 0, which no change is strictly below, and two epochs
    allowed.  No input makes the call return a result. *)
Theorem saga_tolerance_test_unreachable :
  forall (Sh : Shuffler) (body : SAGA.closure -> SAGA.State -> result SAGA.State)
         (rng : RNG Sh) (f_deriv : Q -> Q -> Q),
    SAGA.minimizelp_SAGA Sh body rng f_deriv 1 (Some (FloatArray [1%Q])) 0 0
                         (Some 1%Q) 5 10 false None
    = Raise (NameError "A")
    /\ SAGA.minimizelp_SAGA Sh body rng f_deriv 1 (Some (FloatArray [1%Q])) 0 0
                            (Some 1%Q) 2 0 false None
       = Raise (NameError "A")
    /\ forall (n_samples : nat) (x0 : option array_like) (alpha beta : Q)
              (step_size : option Q) (max_iter : Z) (tol : Q) (verbose : bool)
              (callback : option (list Q -> list Q)) (r : OptimizeResult),
         SAGA.minimizelp_SAGA Sh body rng f_deriv n_samples x0 alpha beta
                              step_size max_iter tol verbose callback
         <> Ok r.
Proof.
  intros Sh body rng f_deriv. split; [|split].
  - rewrite minimizelp_SAGA_raises. reflexivity.
  - rewrite minimizelp_SAGA_raises. reflexivity.
  - intros. rewrite minimizelp_SAGA_raises. discriminate.
Qed.

(** X19: the driver loop of [minimizelp_SAGA] (lines 97 to 109), run with
    any epoch function that completes.  After each pass the sum of the
    absolute coordinate changes of [x] since the start of that pass is
    compared with [tol]: at the first pass [k] where it is strictly below
    [tol] the loop stops with [success] true, having run [k + 1] passes;
    when no pass below [max_iter] meets the test, it runs [max_iter]
    passes and ends with [success] false. *)
Theorem saga_loop_termination :
  forall (Sh : Shuffler) (E : SAGA.State -> SAGA.State)
         (callback : option (list Q -> list Q)) (tol : Q) (max_iter : Z)
         (rng : RNG Sh) (st : SAGA.State),
    (forall k : nat,
        (Z.of_nat k < max_iter)%Z ->
        (forall i, (i < k)%nat -> ~ (Spec.change Sh E callback (rng, st) i < tol)%Q) ->
        (Spec.change Sh E callback (rng, st) k < tol)%Q ->
        SAGA.saga_loop Sh (fun st => Ok (E st)) callback tol
                       (py_range 0 max_iter) rng st false 0
        = Ok (snd (Spec.after Sh E callback (rng, st) (S k)), true, Z.of_nat k))
    /\ ((forall i : nat,
            (Z.of_nat i < max_iter)%Z ->
            ~ (Spec.change Sh E callback (rng, st) i < tol)%Q) ->
        SAGA.saga_loop Sh (fun st => Ok (E st)) callback tol
                       (py_range 0 max_iter) rng st false 0
        = Ok (snd (Spec.after Sh E callback (rng, st) (Z.to_nat max_iter)),
              false, Z.max 0 (max_iter - 1))).
Proof.
  intros Sh E callback tol max_iter rng st.
  rewrite py_range_0, saga_loop_run. split.
  - intros k Hk Hbefore Hat.
    rewrite (first_below_Some _ tol (Z.to_nat max_iter) k) by (try lia; assumption).
    reflexivity.
  - intro Hnone.
    rewrite first_below_None by (intros i Hi; apply Hnone; lia).
    destruct (Z.to_nat max_iter) as [|m'] eqn:Em.
    + do 2 f_equal. lia.
    + do 2 f_equal. lia.
Qed.

Lemma saga_loop_termination_witness :
  SAGA.saga_loop Examples.shuffle_keep (fun st => Ok (Examples.halve st)) None
                 (1 # 5) (py_range 0 5) tt Examples.saga_state0 false 0
  = Ok (snd (Spec.after Examples.shuffle_keep Examples.halve None
                        (tt, Examples.saga_state0) 3), true, 2%Z)
  /\ SAGA.saga_loop Examples.shuffle_keep (fun st => Ok (Examples.halve st)) None
                    0 (py_range 0 2) tt Examples.saga_state0 false 0
     = Ok (snd (Spec.after Examples.shuffle_keep Examples.halve None
                           (tt, Examples.saga_state0) 2), false, 1%Z).
Proof.
  split.
  - apply (proj1 (saga_loop_termination Examples.shuffle_keep Examples.halve None
                    (1 # 5) 5 tt Examples.saga_state0) 2%nat).
    + lia.
    + intros i Hi. destruct i as [|[|i]]; [| |lia]; vm_compute; discriminate.
    + vm_compute. reflexivity.
  - apply (proj2 (saga_loop_termination Examples.shuffle_keep Examples.halve None
                    0 2 tt Examples.saga_state0)).
    intros i Hi. destruct i as [|[|i]]; [| |lia]; vm_compute; discriminate.
Defined.

(** ** Sums *)

Local Open Scope Q_scope.

Lemma fold_left_qsum (t : nat -> Q) (l : list nat) (a : Q) :
  fold_left (fun p j => p + t j) l a == a + Spec.qsum t l.
Proof.
  revert a. induction l as [|j l IH]; intro a; simpl.
  - ring.
  - rewrite IH. ring.
Qed.

Lemma qsum_ext (t t' : nat -> Q) (l : list nat) :
  (forall j, In j l -> t j == t' j) -> Spec.qsum t l == Spec.qsum t' l.
Proof.
  induction l as [|j l IH]; intro H; simpl.
  - reflexivity.
  - rewrite (H j) by (left; reflexivity).
    rewrite IH by (intros k Hk; apply H; right; exact Hk).
    reflexivity.
Qed.

(** Terms that vanish may be left out of a sum. *)
Lemma qsum_filter (t : nat -> Q) (P : nat -> bool) (l : list nat) :
  (forall j, In j l -> P j = false -> t j == 0) ->
  Spec.qsum t (filter P l) == Spec.qsum t l.
Proof.
  induction l as [|j l IH]; intro H; simpl.
  - reflexivity.
  - assert (IH' : Spec.qsum t (filter P l) == Spec.qsum t l)
      by (apply IH; intros k Hk; apply H; right; exact Hk).
    destruct (P j) eqn:Hj; simpl.
    + rewrite IH'. reflexivity.
    + rewrite IH', (H j) by (auto; left; reflexivity). ring.
Qed.

(** Changing one term of a sum over distinct positions. *)
Lemma qsum_bump (t t' : nat -> Q) (j : nat) (d : Q) (l : list nat) :
  NoDup l ->
  (forall k, k <> j -> t' k == t k) ->
  t' j == t j + d ->
  (In j l -> Spec.qsum t' l == Spec.qsum t l + d)
  /\ (~ In j l -> Spec.qsum t' l == Spec.qsum t l).
Proof.
  intros Hnd Hother Hj. induction Hnd as [|k l Hk Hnd IH]; simpl.
  - split; [intros []|]. intros _. reflexivity.
  - destruct IH as [IHin IHout]. split.
    + intros [->|Hin].
      * rewrite Hj, IHout by exact Hk. ring.
      * assert (k <> j) by (intro; subst; contradiction).
        rewrite Hother, IHin by assumption. ring.
    + intro Hn.
      assert (k <> j) by (intro; apply Hn; left; assumption).
      rewrite Hother, IHout by tauto. reflexivity.
Qed.

Lemma row_dot_qsum (A : BCD.matrix) (x : list Q) (i : nat) :
  BCD.row_dot A x i
  == Spec.qsum (fun j => BCD.entry A i j * nth j x 0) (seq 0 (BCD.n_cols A)).
Proof.
  unfold BCD.row_dot.
  rewrite (fold_left_qsum (fun j => BCD.entry A i j * nth j x 0)). ring.
Qed.

(** Overwriting [x[j]] moves row [i] of the product by
    [A[i, j] * (v - x[j])]. *)
Lemma row_dot_store (A : BCD.matrix) (x : list Q) (i j : nat) (v : Q) :
  (j < BCD.n_cols A)%nat -> List.length x = BCD.n_cols A ->
  BCD.row_dot A (store x j v) i
  == BCD.row_dot A x i + BCD.entry A i j * (v - nth j x 0).
Proof.
  intros Hj Hlen. rewrite !row_dot_qsum.
  apply (qsum_bump (fun k => BCD.entry A i k * nth k x 0)
                   (fun k => BCD.entry A i k * nth k (store x j v) 0) j
                   (BCD.entry A i j * (v - nth j x 0))
                   (seq 0 (BCD.n_cols A))).
  - apply seq_NoDup.
  - intros k Hk. rewrite nth_store_other by congruence. reflexivity.
  - rewrite nth_store_same by lia. ring.
  - apply in_seq. lia.
Qed.

(** ** The compressed layout *)

Lemma flat_map_seq_split {B : Type} (f : nat -> list B) (n i : nat) :
  (i < n)%nat ->
  flat_map f (seq 0 n)
  = flat_map f (seq 0 i) ++ f i ++ flat_map f (seq (S i) (n - S i)).
Proof.
  intro H.
  replace n with (i + S (n - S i))%nat at 1 by lia.
  rewrite seq_app, flat_map_app. simpl. reflexivity.
Qed.

Lemma map_nth_middle {B : Type} (d : B) (l2 : list B) :
  forall l1 l3 : list B,
    map (fun p => nth p (l1 ++ l2 ++ l3) d) (seq (List.length l1) (List.length l2))
    = l2.
Proof.
  induction l2 as [|a l2 IH]; intros l1 l3; [reflexivity|].
  simpl. f_equal.
  - apply nth_middle.
  - specialize (IH (l1 ++ [a]) l3).
    rewrite length_app, Nat.add_1_r, <- app_assoc in IH. exact IH.
Qed.

Lemma flat_map_map_length {B C : Type} (f : nat -> list B) (h : nat -> B -> C)
    (l : list nat) :
  List.length (flat_map (fun i => map (h i) (f i)) l)
  = List.length (flat_map f l).
Proof.
  induction l as [|i l IH]; simpl; [reflexivity|].
  rewrite !length_app, length_map, IH. reflexivity.
Qed.

Lemma offset_succ (A : BCD.matrix) (i : nat) :
  Spec.offset A (S i)
  = (Spec.offset A i + List.length (BCD.row_nonzeros A i))%nat.
Proof.
  unfold Spec.offset. rewrite seq_S, flat_map_app, length_app. simpl.
  rewrite app_nil_r. reflexivity.
Qed.

Lemma indptr_nth (A : BCD.matrix) (i : nat) :
  (i <= BCD.n_rows A)%nat ->
  nth i (BCD.indptr (BCD.csr_matrix A)) O = Spec.offset A i.
Proof.
  intro H. unfold BCD.csr_matrix, BCD.indptr.
  rewrite (nth_indep _ O (Spec.offset A O))
    by (rewrite length_map, length_seq; lia).
  change (Spec.offset A 0)
    with ((fun k => List.length (flat_map (BCD.row_nonzeros A) (seq 0 k))) O).
  rewrite map_nth, seq_nth by lia. reflexivity.
Qed.

(** The entries of row [i] sit at the positions
    [offset i .. offset (i + 1) - 1]. *)
Lemma span_csr (A : BCD.matrix) (i : nat) :
  (i < BCD.n_rows A)%nat ->
  BCD.span (BCD.csr_matrix A) i
  = seq (Spec.offset A i) (List.length (BCD.row_nonzeros A i)).
Proof.
  intro H. unfold BCD.span, range.
  rewrite !indptr_nth by lia. rewrite Nat.add_1_r, offset_succ.
  f_equal. lia.
Qed.

Lemma csr_indices_span (A : BCD.matrix) (i : nat) :
  (i < BCD.n_rows A)%nat ->
  map (fun p => nth p (BCD.indices (BCD.csr_matrix A)) O)
      (BCD.span (BCD.csr_matrix A) i)
  = BCD.row_nonzeros A i.
Proof.
  intro H. rewrite span_csr by exact H.
  unfold BCD.csr_matrix, BCD.indices.
  rewrite (flat_map_seq_split (BCD.row_nonzeros A) _ _ H).
  apply map_nth_middle.
Qed.

Lemma csr_data_span (A : BCD.matrix) (i : nat) :
  (i < BCD.n_rows A)%nat ->
  map (fun p => nth p (BCD.data (BCD.csr_matrix A)) 0)
      (BCD.span (BCD.csr_matrix A) i)
  = map (BCD.entry A i) (BCD.row_nonzeros A i).
Proof.
  intro H. rewrite span_csr by exact H.
  unfold BCD.csr_matrix, BCD.data.
  rewrite (flat_map_seq_split
             (fun k => map (BCD.entry A k) (BCD.row_nonzeros A k)) _ _ H).
  unfold Spec.offset.
  rewrite <- (flat_map_map_length (BCD.row_nonzeros A) (BCD.entry A) (seq 0 i)).
  rewrite <- (length_map (BCD.entry A i) (BCD.row_nonzeros A i)).
  apply map_nth_middle.
Qed.

Lemma fold_left_two_maps {S B C : Type} (G : S -> B -> C -> S)
    (u : nat -> B) (v : nat -> C) (ps : list nat) :
  forall acc : S,
    fold_left (fun acc p => G acc (u p) (v p)) ps acc
    = fold_left (fun acc q => G acc (fst q) (snd q))
                (combine (map u ps) (map v ps)) acc.
Proof.
  induction ps as [|p ps IH]; intro acc; simpl; [reflexivity|]. apply IH.
Qed.

Lemma fold_left_combine_map {S B C : Type} (G : S -> B -> C -> S)
    (h : B -> C) (l : list B) :
  forall acc : S,
    fold_left (fun acc q => G acc (fst q) (snd q)) (combine l (map h l)) acc
    = fold_left (fun acc j => G acc j (h j)) l acc.
Proof.
  induction l as [|j l IH]; intro acc; simpl; [reflexivity|]. apply IH.
Qed.

(** A loop over the stored positions of row [i] is a loop over the nonzero
    columns of that row. *)
Lemma fold_span {S : Type} (G : S -> nat -> Q -> S) (A : BCD.matrix) (i : nat)
    (acc : S) :
  (i < BCD.n_rows A)%nat ->
  fold_left (fun acc p => G acc (nth p (BCD.indices (BCD.csr_matrix A)) O)
                            (nth p (BCD.data (BCD.csr_matrix A)) 0))
            (BCD.span (BCD.csr_matrix A) i) acc
  = fold_left (fun acc j => G acc j (BCD.entry A i j)) (BCD.row_nonzeros A i) acc.
Proof.
  intro H.
  rewrite (fold_left_two_maps G
             (fun p => nth p (BCD.indices (BCD.csr_matrix A)) O)
             (fun p => nth p (BCD.data (BCD.csr_matrix A)) 0)).
  rewrite csr_indices_span, csr_data_span by exact H.
  apply fold_left_combine_map.
Qed.

Lemma row_nonzeros_In (A : BCD.matrix) (i j : nat) :
  In j (BCD.row_nonzeros A i)
  <-> (j < BCD.n_cols A)%nat /\ BCD.nonzero (BCD.entry A i j) = true.
Proof.
  unfold BCD.row_nonzeros. rewrite filter_In, in_seq. intuition lia.
Qed.

Lemma row_nonzeros_NoDup (A : BCD.matrix) (i : nat) :
  NoDup (BCD.row_nonzeros A i).
Proof. apply NoDup_filter, seq_NoDup. Qed.

Lemma nonzero_false (v : Q) : BCD.nonzero v = false -> v == 0.
Proof.
  unfold BCD.nonzero. intro H. apply negb_false_iff in H.
  apply Qeq_bool_iff. exact H.
Qed.

Lemma nonzero_true (v : Q) : BCD.nonzero v = true -> ~ v == 0.
Proof.
  unfold BCD.nonzero. intro H. apply negb_true_iff in H.
  apply Qeq_bool_neq. exact H.
Qed.

(** The row product read off the compressed rows is the row product. *)
Lemma csr_row_dot_correct (A : BCD.matrix) (x : list Q) (i : nat) :
  (i < BCD.n_rows A)%nat ->
  BCD.csr_row_dot x (BCD.csr_matrix A) i == BCD.row_dot A x i.
Proof.
  intro H. unfold BCD.csr_row_dot.
  rewrite (fold_span (fun p j v => p + nth j x 0 * v) A i 0 H).
  rewrite (fold_left_qsum (fun j => nth j x 0 * BCD.entry A i j)).
  rewrite row_dot_qsum. unfold BCD.row_nonzeros.
  rewrite qsum_filter.
  - rewrite (qsum_ext (fun j => nth j x 0 * BCD.entry A i j)
                      (fun j => BCD.entry A i j * nth j x 0)).
    + ring.
    + intros j _. ring.
  - intros j _ Hz. apply nonzero_false in Hz. rewrite Hz. ring.
Qed.

(** ** Writes at distinct positions *)

Section Scatter.

Variable g : Q -> nat -> Q.

Local Notation scatter :=
  (fold_left (fun (a : list Q) (k : nat) => store a k (g (nth k a 0) k))).

Lemma scatter_length (l : list nat) (a : list Q) :
  List.length (scatter l a) = List.length a.
Proof.
  revert a. induction l as [|k l IH]; intro a; simpl; [reflexivity|].
  rewrite IH. apply length_store.
Qed.

Lemma scatter_outside (l : list nat) (i : nat) :
  forall a : list Q, ~ In i l -> nth i (scatter l a) 0 = nth i a 0.
Proof.
  induction l as [|k l IH]; intros a Hn; simpl; [reflexivity|].
  rewrite IH by (intro; apply Hn; right; assumption).
  apply nth_store_other. intro; apply Hn; left; assumption.
Qed.

Lemma scatter_inside (l : list nat) (i : nat) :
  NoDup l ->
  forall a : list Q,
    In i l -> (i < List.length a)%nat ->
    nth i (scatter l a) 0 = g (nth i a 0) i.
Proof.
  induction 1 as [|k l Hk Hnd IH]; intros a Hin Hlen; [destruct Hin|].
  simpl. destruct Hin as [->|Hin].
  - rewrite scatter_outside by exact Hk. apply nth_store_same. exact Hlen.
  - assert (k <> i) by (intro; subst; contradiction).
    rewrite IH by (try rewrite length_store; assumption).
    rewrite nth_store_other by assumption. reflexivity.
Qed.

End Scatter.

(** ** BCD: the cached prediction *)

Section Prediction.

Import BCD Spec.

Variable A : matrix.
Variables (step_size alpha : Q) (partial_gradient prox : Q -> Q -> Q).
Variable b : list Q.

Local Notation step :=
  (coordinate_step (n_rows A) step_size alpha partial_gradient prox
                   (csr_matrix A) (csc_matrix A) b).

(** The loop under [.. update Ax ..], entry by entry. *)
Lemma update_Ax_scatter (Ax x : list Q) (j : nat) (x_new : Q) :
  (j < n_cols A)%nat ->
  update_Ax Ax x (csc_matrix A) j x_new
  = fold_left (fun a i => store a i (nth i a 0 + entry A i j * (x_new - nth j x 0)))
              (row_nonzeros (transpose A) j) Ax.
Proof.
  intro Hj. unfold update_Ax, csc_matrix.
  apply (fold_span (fun a i v => store a i (nth i a 0 + v * (x_new - nth j x 0)))
                   (transpose A) j Ax Hj).
Qed.

(** Every sample with a nonzero entry in column [j] gets
    [A[i, j] * (x_new - x[j])] added; every other sample is left alone. *)
Lemma update_Ax_nth (Ax x : list Q) (i j : nat) (x_new : Q) :
  (i < n_rows A)%nat -> (j < n_cols A)%nat -> List.length Ax = n_rows A ->
  nth i (update_Ax Ax x (csc_matrix A) j x_new) 0
  == nth i Ax 0 + entry A i j * (x_new - nth j x 0)
  /\ (nonzero (entry A i j) = true ->
      nth i (update_Ax Ax x (csc_matrix A) j x_new) 0
      = nth i Ax 0 + entry A i j * (x_new - nth j x 0))
  /\ (nonzero (entry A i j) = false ->
      nth i (update_Ax Ax x (csc_matrix A) j x_new) 0 = nth i Ax 0).
Proof.
  intros Hi Hj Hlen. rewrite update_Ax_scatter by exact Hj.
  assert (Hin : nonzero (entry A i j) = true ->
                nth i (fold_left
                         (fun a k => store a k (nth k a 0
                                                + entry A k j * (x_new - nth j x 0)))
                         (row_nonzeros (transpose A) j) Ax) 0
                = nth i Ax 0 + entry A i j * (x_new - nth j x 0)).
  { intro Hnz.
    apply (scatter_inside (fun v k => v + entry A k j * (x_new - nth j x 0))
                          _ _ (row_nonzeros_NoDup (transpose A) j)).
    - apply row_nonzeros_In. split; [exact Hi | exact Hnz].
    - lia. }
  assert (Hout : nonzero (entry A i j) = false ->
                 nth i (fold_left
                          (fun a k => store a k (nth k a 0
                                                 + entry A k j * (x_new - nth j x 0)))
                          (row_nonzeros (transpose A) j) Ax) 0
                 = nth i Ax 0).
  { intro Hz.
    apply (scatter_outside (fun v k => v + entry A k j * (x_new - nth j x 0))).
    rewrite row_nonzeros_In. simpl. intros [_ Hnz]. congruence. }
  split; [|split; assumption].
  destruct (nonzero (entry A i j)) eqn:Hnz.
  - rewrite Hin by reflexivity. reflexivity.
  - rewrite Hout by reflexivity. apply nonzero_false in Hnz. rewrite Hnz. ring.
Qed.

Lemma update_Ax_length (Ax x : list Q) (j : nat) (x_new : Q) :
  List.length (update_Ax Ax x (csc_matrix A) j x_new) = List.length Ax.
Proof.
  unfold update_Ax.
  revert Ax. induction (span (csc_matrix A) j) as [|p ps IH]; intro Ax; simpl;
    [reflexivity|].
  rewrite IH. apply length_store.
Qed.

Lemma recompute_Ax_length (Ax x : list Q) :
  List.length (recompute_Ax (n_rows A) Ax x (csr_matrix A)) = List.length Ax.
Proof.
  unfold recompute_Ax.
  apply (scatter_length (fun _ i => csr_row_dot x (csr_matrix A) i)).
Qed.

(** The loop under [.. recompute Ax ..] leaves the product in [Ax]. *)
Lemma recompute_Ax_nth (Ax x : list Q) (i : nat) :
  (i < n_rows A)%nat -> List.length Ax = n_rows A ->
  nth i (recompute_Ax (n_rows A) Ax x (csr_matrix A)) 0 == row_dot A x i.
Proof.
  intros Hi Hlen. unfold recompute_Ax, range. rewrite Nat.sub_0_r.
  rewrite (scatter_inside (fun _ k => csr_row_dot x (csr_matrix A) k)
                          _ _ (seq_NoDup (n_rows A) 0)).
  - apply csr_row_dot_correct. exact Hi.
  - apply in_seq. lia.
  - lia.
Qed.

(** What a coordinate step leaves in [x] and in [Ax]. *)
Lemma step_writes (st : arrays) (j : nat) :
  let x_new :=
    prox (nth j (x st) 0
          - step_size * (coordinate_gradient (n_rows A) partial_gradient (Ax st) b
                                             (csc_matrix A) j
                         + alpha * nth j (x st) 0))
         step_size in
  x (step st j) = store (x st) j (astype (x_dtype st) x_new)
  /\ Ax (step st j)
     = if Nat.eqb j 0
       then recompute_Ax (n_rows A)
                         (update_Ax (Ax st) (x st) (csc_matrix A) j x_new)
                         (store (x st) j (astype (x_dtype st) x_new)) (csr_matrix A)
       else update_Ax (Ax st) (x st) (csc_matrix A) j x_new.
Proof.
  unfold coordinate_step. destruct (Nat.eqb j 0); split; reflexivity.
Qed.

(** A coordinate step on an array of floats keeps [Ax] equal to the
    product. *)
Lemma step_coherent (st : arrays) (j : nat) :
  x_dtype st = float64 ->
  (j < n_cols A)%nat ->
  coherent A (x st) (Ax st) -> coherent A (x (step st j)) (Ax (step st j)).
Proof.
  intros Hfloat Hj (Hx & HA & Hdot). unfold coordinate_step.
  rewrite Hfloat. cbn [astype].
  set (x_new := prox _ _).
  destruct (Nat.eqb j 0); cbn [x Ax].
  - split; [rewrite length_store; exact Hx|].
    split; [rewrite recompute_Ax_length, update_Ax_length; exact HA|].
    intros i Hi. apply recompute_Ax_nth; [exact Hi|].
    rewrite update_Ax_length. exact HA.
  - split; [rewrite length_store; exact Hx|].
    split; [rewrite update_Ax_length; exact HA|].
    intros i Hi.
    destruct (update_Ax_nth (Ax st) (x st) i j x_new Hi Hj HA) as [Hupd _].
    rewrite Hupd, (Hdot i Hi), row_dot_store by assumption. reflexivity.
Qed.

Lemma steps_coherent (l : list nat) :
  forall st : arrays,
    x_dtype st = float64 ->
    Forall (fun j => (j < n_cols A)%nat) l ->
    coherent A (x st) (Ax st) ->
    coherent A (x (fold_left step l st)) (Ax (fold_left step l st)).
Proof.
  induction l as [|j l IH]; intros st Hfloat Hl Hc; simpl; [exact Hc|].
  inversion Hl; subst. apply IH; [|assumption|].
  - rewrite <- Hfloat. unfold coordinate_step. destruct (Nat.eqb j 0); reflexivity.
  - apply step_coherent; assumption.
Qed.

End Prediction.

Lemma dot_coherent (A : BCD.matrix) (x Ax : list Q) :
  BCD.dot A x = Ok Ax -> Spec.coherent A x Ax.
Proof.
  unfold BCD.dot. destruct (Nat.eqb (List.length x) (BCD.n_cols A)) eqn:E;
    [|discriminate].
  intro H. inversion H; subst Ax. clear H. apply Nat.eqb_eq in E.
  split; [exact E|]. split; [rewrite length_map, length_seq; reflexivity|].
  intros i Hi.
  rewrite (nth_indep _ 0 (BCD.row_dot A x O))
    by (rewrite length_map, length_seq; exact Hi).
  rewrite map_nth, seq_nth by exact Hi. reflexivity.
Qed.

Lemma Forall_prefix {T : Type} (P : T -> Prop) (k : nat) (l : list T) :
  Forall P l -> Forall P (firstn k l).
Proof.
  revert k. induction l as [|a l IH]; intros [|k] H; simpl; auto.
  inversion H; subst. constructor; auto.
Qed.

Lemma visits_in_range (Sh : Shuffler) (max_iter : Z) (rng : RNG Sh) (n : nat) :
  Forall (fun j => (j < n)%nat) (Spec.visits Sh max_iter rng n).
Proof.
  unfold Spec.visits.
  pose proof (draws_permutations Sh (py_range 1 max_iter) rng (arange n)) as H.
  induction H as [|p ds Hp _ IH]; simpl; [constructor|].
  apply Forall_app. split; [|exact IH].
  apply Forall_forall. intros j Hj.
  apply Permutation_sym in Hp. apply (Permutation_in _ Hp) in Hj.
  apply in_seq in Hj. lia.
Qed.

Lemma nonzero_of_zero (v : Q) : v == 0 -> BCD.nonzero v = false.
Proof.
  intro H. unfold BCD.nonzero. apply negb_false_iff.
  apply Qeq_bool_iff. exact H.
Qed.

(** X20: in a [minimize_BCD] solve that starts from an array of floats
    (the default zero vector, or float data), with scalars taken as exact
    rationals, [Ax] is the product of the design matrix with [x] when
    the kernel starts, after every coordinate update, whatever orders the
    shuffles draw, and when the kernel returns.  A coordinate step stores
    [x_new] in [x[j]] and leaves in [Ax] what the loop under
    [.. update Ax ..] makes of it, run with the value [x[j]] had before the
    store, followed by the full recomputation when [j] is 0.  That loop
    adds [A[i, j] * (x_new - x[j])] to [Ax[i]] for every sample [i]; it
    writes to the samples whose entry in column [j] is nonzero and to no
    other; the recomputation leaves the product of row [i] with [x] in
    [Ax[i]]. *)
Theorem Ax_is_product_throughout :
  forall (Sh : Shuffler) (rng : RNG Sh) (f : BCD.Loss) (g : option BCD.Penalty)
         (x0 : option array_like) (step_size : Q) (max_iter : Z)
         (tx : list (list Q)) (tol : Q) (Ax : list Q),
    Spec.start_dtype x0 = float64 ->
    BCD.dot (BCD.f_A f) (Spec.start_vector f x0) = Ok Ax ->
    let A := BCD.f_A f in
    let step :=
      BCD.coordinate_step (BCD.n_rows A) step_size (BCD.f_alpha f)
        (BCD.f_partial_gradient_factory f) (BCD.g_prox_factory (Spec.penalty g))
        (BCD.csr_matrix A) (BCD.csc_matrix A) (BCD.f_b f) in
    let st0 := {| BCD.x := Spec.start_vector f x0;
                  BCD.x_dtype := Spec.start_dtype x0; BCD.Ax := Ax;
                  BCD.trace_x := tx; BCD.events := [] |} in
    Spec.coherent A (Spec.start_vector f x0) Ax
    /\ (forall k : nat,
           Spec.coherent A
             (BCD.x (fold_left step
                       (firstn k (Spec.visits Sh max_iter rng (BCD.n_cols A))) st0))
             (BCD.Ax (fold_left step
                        (firstn k (Spec.visits Sh max_iter rng (BCD.n_cols A))) st0)))
    /\ (forall (it : Z) (cert : pyval) (st' : BCD.arrays) (rng' : RNG Sh),
           BCD._bcd_algorithm Sh (BCD.n_rows A) (BCD.n_cols A) max_iter step_size
             (BCD.f_alpha f) (BCD.f_partial_gradient_factory f)
             (BCD.g_prox_factory (Spec.penalty g)) rng st0
             (BCD.csr_matrix A) (BCD.csc_matrix A) (BCD.f_b f) tol
           = (it, cert, st', rng') ->
           BCD.x st'
           = BCD.x (fold_left step (Spec.visits Sh max_iter rng (BCD.n_cols A)) st0)
           /\ BCD.Ax st'
              = BCD.Ax (fold_left step (Spec.visits Sh max_iter rng (BCD.n_cols A)) st0)
           /\ Spec.coherent A (BCD.x st') (BCD.Ax st'))
    /\ (forall (st : BCD.arrays) (j : nat),
           BCD.x_dtype st = float64 ->
           let x_new :=
             BCD.g_prox_factory (Spec.penalty g)
               (nth j (BCD.x st) 0
                - step_size
                  * (BCD.coordinate_gradient (BCD.n_rows A)
                       (BCD.f_partial_gradient_factory f) (BCD.Ax st) (BCD.f_b f)
                       (BCD.csc_matrix A) j
                     + BCD.f_alpha f * nth j (BCD.x st) 0))
               step_size in
           BCD.x (step st j) = store (BCD.x st) j x_new
           /\ BCD.Ax (step st j)
              = if Nat.eqb j 0
                then BCD.recompute_Ax (BCD.n_rows A)
                       (BCD.update_Ax (BCD.Ax st) (BCD.x st) (BCD.csc_matrix A) j x_new)
                       (store (BCD.x st) j x_new) (BCD.csr_matrix A)
                else BCD.update_Ax (BCD.Ax st) (BCD.x st) (BCD.csc_matrix A) j x_new)
    /\ (forall (Ax' x' : list Q) (i j : nat) (x_new : Q),
           List.length Ax' = BCD.n_rows A ->
           (i < BCD.n_rows A)%nat -> (j < BCD.n_cols A)%nat ->
           nth i (BCD.update_Ax Ax' x' (BCD.csc_matrix A) j x_new) 0
           == nth i Ax' 0 + BCD.entry A i j * (x_new - nth j x' 0)
           /\ (BCD.entry A i j == 0 ->
               nth i (BCD.update_Ax Ax' x' (BCD.csc_matrix A) j x_new) 0
               = nth i Ax' 0)
           /\ (~ BCD.entry A i j == 0 ->
               nth i (BCD.update_Ax Ax' x' (BCD.csc_matrix A) j x_new) 0
               = nth i Ax' 0 + BCD.entry A i j * (x_new - nth j x' 0))
           /\ nth i (BCD.recompute_Ax (BCD.n_rows A) Ax' x' (BCD.csr_matrix A)) 0
              == BCD.row_dot A x' i).
Proof.
  intros Sh rng f g x0 step_size max_iter tx tol Ax Hfloat Hdot A step st0.
  pose proof (dot_coherent _ _ _ Hdot) as H0. fold A in H0.
  assert (Hprefix : forall l,
             Forall (fun j => (j < BCD.n_cols A)%nat) l ->
             Spec.coherent A (BCD.x (fold_left step l st0))
                           (BCD.Ax (fold_left step l st0))).
  { intros l Hl. apply steps_coherent; [exact Hfloat | exact Hl | exact H0]. }
  split; [exact H0|]. split; [|split; [|split]].
  - intro k. apply Hprefix. apply Forall_prefix. apply visits_in_range.
  - intros it cert st' rng' K.
    pose proof (kernel_run _ _ _ _ _ _ _ _ _ _ _ _ _ _ _ _ _ _ K)
      as (_ & _ & _ & _ & Hx & HA).
    split; [exact Hx|]. split; [exact HA|].
    rewrite Hx, HA. apply Hprefix. apply visits_in_range.
  - intros st j Hst x_new.
    pose proof (step_writes A step_size (BCD.f_alpha f)
                  (BCD.f_partial_gradient_factory f)
                  (BCD.g_prox_factory (Spec.penalty g)) (BCD.f_b f) st j) as Hw.
    cbv zeta in Hw. rewrite Hst in Hw. cbn [astype] in Hw. exact Hw.
  - intros Ax' x' i j x_new Hlen Hi Hj.
    destruct (update_Ax_nth A Ax' x' i j x_new Hi Hj Hlen) as (Hupd & Hin & Hout).
    split; [exact Hupd|]. split; [|split].
    + intro Hz. apply Hout. apply nonzero_of_zero. exact Hz.
    + intro Hnz. apply Hin. destruct (BCD.nonzero (BCD.entry A i j)) eqn:E;
        [reflexivity|]. apply nonzero_false in E. contradiction.
    + apply recompute_Ax_nth; assumption.
Qed.

Lemma Ax_is_product_throughout_witness :
  BCD.dot (BCD.f_A Examples.f0) (Spec.start_vector Examples.f0 None) = Ok [0; 0]
  /\ forall k : nat,
       Spec.coherent Examples.A0
         (BCD.x (fold_left
                   (BCD.coordinate_step 2 (1 # 2) 0 (fun p b => p - b)
                      (fun v _ => v) (BCD.csr_matrix Examples.A0)
                      (BCD.csc_matrix Examples.A0) Examples.b0)
                   (firstn k (Spec.visits Examples.shuffle_rev 3 tt 2))
                   {| BCD.x := [0; 0]; BCD.x_dtype := float64;
                      BCD.Ax := [0; 0]; BCD.trace_x := [];
                      BCD.events := [] |}))
         (BCD.Ax (fold_left
                    (BCD.coordinate_step 2 (1 # 2) 0 (fun p b => p - b)
                       (fun v _ => v) (BCD.csr_matrix Examples.A0)
                       (BCD.csc_matrix Examples.A0) Examples.b0)
                    (firstn k (Spec.visits Examples.shuffle_rev 3 tt 2))
                    {| BCD.x := [0; 0]; BCD.x_dtype := float64;
                       BCD.Ax := [0; 0]; BCD.trace_x := [];
                       BCD.events := [] |})).
Proof.
  split; [reflexivity|].
  apply (Ax_is_product_throughout Examples.shuffle_rev tt Examples.f0 None None
           (1 # 2) 3 [] 0 [0; 0]).
  - reflexivity.
  - reflexivity.
Defined.

(** C7: the product is lost when the start vector holds integers.
    [np.array] keeps the integer type, so the store [x[j] = x_new] drops
    the fractional part of [x_new] while [Ax] has received the whole
    increment.  On the least-squares problem [f0] started from the integers
    (0, 0), with step 1/2 and the order 1, 0, the first update computes
    [x_new] = 1/2: [x] stays (0, 0), [Ax] becomes (0, 1/2), and the product
    of the matrix with [x] is (0, 0); the call returns (0, 0).  Started
    from the floats (0, 0), the same update leaves (0, 1/2) in [x] and in
    [Ax], which is the product. *)
Theorem integer_start_breaks_the_product :
  let x0 := Some (IntList [0; 0]%Z) in
  let step :=
    BCD.coordinate_step 2 (1 # 2) 0 (fun p b => p - b) (fun v _ => v)
      (BCD.csr_matrix Examples.A0) (BCD.csc_matrix Examples.A0) Examples.b0 in
  let st0 := {| BCD.x := Spec.start_vector Examples.f0 x0;
                BCD.x_dtype := Spec.start_dtype x0; BCD.Ax := [0; 0];
                BCD.trace_x := []; BCD.events := [] |} in
  let st0' := {| BCD.x := [0; 0]; BCD.x_dtype := float64; BCD.Ax := [0; 0];
                 BCD.trace_x := []; BCD.events := [] |} in
  BCD.dot (BCD.f_A Examples.f0) (Spec.start_vector Examples.f0 x0) = Ok [0; 0]
  /\ Spec.visits Examples.shuffle_rev 2 tt 2 = [1; 0]%nat
  /\ BCD.x (step st0 1%nat) = [0; 0]
  /\ map Qred (BCD.Ax (step st0 1%nat)) = [0; 1 # 2]
  /\ map (BCD.row_dot Examples.A0 (BCD.x (step st0 1%nat))) [0; 1]%nat = [0; 0]
  /\ ~ Spec.coherent Examples.A0
         (BCD.x (fold_left step
                   (firstn 1 (Spec.visits Examples.shuffle_rev 2 tt 2)) st0))
         (BCD.Ax (fold_left step
                    (firstn 1 (Spec.visits Examples.shuffle_rev 2 tt 2)) st0))
  /\ (exists r,
         BCD.minimize_BCD Examples.shuffle_rev tt Examples.clock0 Examples.f0
                          None x0 (Some (1 # 2)) 2 false false 0 = Ok r
         /\ r_x r = [0; 0])
  /\ map Qred (BCD.x (step st0' 1%nat)) = [0; 1 # 2]
  /\ map Qred (BCD.Ax (step st0' 1%nat)) = [0; 1 # 2]
  /\ map Qred (map (BCD.row_dot Examples.A0 (BCD.x (step st0' 1%nat))) [0; 1]%nat)
     = [0; 1 # 2].
Proof.
  cbv zeta.
  split; [reflexivity|]. split; [reflexivity|].
  split; [vm_compute; reflexivity|]. split; [vm_compute; reflexivity|].
  split; [vm_compute; reflexivity|]. split; [|split].
  - intros (_ & _ & Hdot). specialize (Hdot 1%nat).
    vm_compute in Hdot. specialize (Hdot (le_n 2)). discriminate Hdot.
  - eexists. split; vm_compute; reflexivity.
  - repeat split; vm_compute; reflexivity.
Qed.

(** * Further properties of the solvers *)

(** ** The coordinate gradient *)

Lemma qsum_zero (t : nat -> Q) (l : list nat) :
  (forall j, In j l -> t j == 0) -> Spec.qsum t l == 0.
Proof.
  induction l as [|j l IH]; intro Hz; simpl.
  - reflexivity.
  - rewrite (Hz j) by (left; reflexivity).
    rewrite IH by (intros k Hk; apply Hz; right; exact Hk). ring.
Qed.

(** X1: the loop of [_bcd_algorithm] that accumulates [grad_j] over the
    stored entries of column [j] computes the sum over all samples of
    [partial_gradient(Ax[i], b[i]) * A[i, j] / n_samples]: samples whose
    entry in the column is zero contribute nothing. *)
Theorem coordinate_gradient_is_dense_sum :
  forall (A : BCD.matrix) (n_samples : nat) (partial_gradient : Q -> Q -> Q)
         (Ax b : list Q) (j : nat),
    (j < BCD.n_cols A)%nat ->
    BCD.coordinate_gradient n_samples partial_gradient Ax b (BCD.csc_matrix A) j
    == Spec.qsum (fun i => partial_gradient (nth i Ax 0) (nth i b 0)
                           * BCD.entry A i j / inject_Z (Z.of_nat n_samples))
                 (seq 0 (BCD.n_rows A)).
Proof.
  intros A n_samples pg Ax b j Hj.
  unfold BCD.coordinate_gradient, BCD.csc_matrix.
  rewrite (fold_span (fun g i v => g + pg (nth i Ax 0) (nth i b 0) * v
                                       / inject_Z (Z.of_nat n_samples))
                     (BCD.transpose A) j 0 Hj).
  rewrite (fold_left_qsum
             (fun i => pg (nth i Ax 0) (nth i b 0) * BCD.entry (BCD.transpose A) j i
                       / inject_Z (Z.of_nat n_samples))).
  unfold BCD.row_nonzeros. rewrite qsum_filter.
  - simpl. ring.
  - intros i _ Hz. apply nonzero_false in Hz. rewrite Hz.
    unfold Qdiv. ring.
Qed.

Lemma coordinate_gradient_is_dense_sum_witness :
  BCD.coordinate_gradient 2 (fun p b => p - b) [0; 0] Examples.b0
                          (BCD.csc_matrix Examples.A0) 0
  == Spec.qsum (fun i => (nth i [0; 0] 0 - nth i Examples.b0 0)
                         * BCD.entry Examples.A0 i 0 / inject_Z (Z.of_nat 2))
               (seq 0 2).
Proof.
  apply (coordinate_gradient_is_dense_sum Examples.A0 2 (fun p b => p - b)
           [0; 0] Examples.b0 0).
  simpl. lia.
Defined.

(** ** Steps that do not move *)

Lemma truncate_compat (a b : Q) : a == b -> truncate a = truncate b.
Proof.
  unfold Qeq, truncate. intro H.
  rewrite <- (Z.quot_mul_cancel_r (Qnum a) (Zpos (Qden a)) (Zpos (Qden b)))
    by discriminate.
  rewrite H, (Z.mul_comm (Zpos (Qden a)) (Zpos (Qden b))).
  apply Z.quot_mul_cancel_r; discriminate.
Qed.

Lemma astype_compat (t : dtype) (a b : Q) : a == b -> astype t a == astype t b.
Proof.
  intro H. destruct t; simpl; [exact H|].
  rewrite (truncate_compat a b H). reflexivity.
Qed.

Lemma integer_held (t : dtype) (z : Z) : Spec.held t (inject_Z z).
Proof.
  unfold Spec.held. destruct t; simpl; [reflexivity|].
  unfold truncate. simpl. rewrite Z.quot_1_r. reflexivity.
Qed.

(** What a store has converted is held as it is. *)
Lemma astype_held (t : dtype) (v : Q) : Spec.held t (astype t v).
Proof.
  destruct t; simpl; [unfold Spec.held; reflexivity | apply integer_held].
Qed.

Lemma held_compat (t : dtype) (a b : Q) : a == b -> Spec.held t a -> Spec.held t b.
Proof.
  unfold Spec.held. intros Hab Ha.
  rewrite <- (astype_compat t a b Hab), Ha. exact Hab.
Qed.

(** The array [np.array] builds holds every entry as it is. *)
Lemma items_held (a : array_like) (k : nat) :
  Spec.held (dtype_of a) (nth k (items a) 0).
Proof.
  destruct a as [l|l|l|l]; simpl; try reflexivity.
  - change 0 with (inject_Z 0). rewrite map_nth. apply integer_held.
  - change 0 with (inject_Z 0). rewrite map_nth. apply integer_held.
Qed.

Lemma start_vector_held (f : BCD.Loss) (x0 : option array_like) (k : nat) :
  Spec.held (Spec.start_dtype x0) (nth k (Spec.start_vector f x0) 0).
Proof.
  destruct x0 as [a|]; simpl; [apply items_held | reflexivity].
Qed.

Section StillSteps.

Import BCD.

Variables (n_samples : nat) (step_size alpha : Q) (partial_gradient : Q -> Q -> Q).
Variables (A_csr A_csc : compressed) (b : list Q).

Hypothesis still :
  step_size == 0 \/ (alpha == 0 /\ forall p l, partial_gradient p l == 0).

Local Notation step :=
  (coordinate_step n_samples step_size alpha partial_gradient
                   (fun v gamma => v) A_csr A_csc b).

Lemma gradient_of_zero_loss (Ax : list Q) (j : nat) :
  (forall p l, partial_gradient p l == 0) ->
  coordinate_gradient n_samples partial_gradient Ax b A_csc j == 0.
Proof.
  intro Hz. unfold coordinate_gradient.
  rewrite (fold_left_qsum
             (fun k => partial_gradient (nth (nth k (indices A_csc) O) Ax 0)
                                        (nth (nth k (indices A_csc) O) b 0)
                       * nth k (data A_csc) 0 / inject_Z (Z.of_nat n_samples))).
  rewrite qsum_zero; [ring|].
  intros k _. rewrite Hz. unfold Qdiv. ring.
Qed.

Lemma still_step (st : arrays) (j k : nat) :
  (forall c, Spec.held (x_dtype st) (nth c (x st) 0)) ->
  List.length (x (step st j)) = List.length (x st)
  /\ nth k (x (step st j)) 0 == nth k (x st) 0.
Proof.
  intro Hheld.
  assert (Hx : x (step st j)
               = store (x st) j
                   (astype (x_dtype st)
                      (nth j (x st) 0
                       - step_size
                         * (coordinate_gradient n_samples partial_gradient (Ax st) b
                                                A_csc j
                            + alpha * nth j (x st) 0)))).
  { unfold coordinate_step. destruct (Nat.eqb j 0); reflexivity. }
  rewrite Hx. split; [apply length_store|].
  destruct (Nat.eq_dec j k) as [->|Hne].
  - destruct (Nat.lt_ge_cases k (List.length (x st))) as [Hlt|Hge].
    + rewrite nth_store_same by exact Hlt.
      apply (Qeq_trans _ (astype (x_dtype st) (nth k (x st) 0)));
        [apply astype_compat | exact (Hheld k)].
      destruct still as [Hs|[Ha Hg]].
      * rewrite Hs. ring.
      * rewrite (gradient_of_zero_loss (Ax st) k Hg), Ha. ring.
    + rewrite (nth_overflow (store _ _ _)) by (rewrite length_store; exact Hge).
      rewrite (nth_overflow (x st)) by exact Hge. reflexivity.
  - rewrite nth_store_other by exact Hne. reflexivity.
Qed.

Lemma still_steps (l : list nat) :
  forall (st : arrays) (k : nat),
    (forall c, Spec.held (x_dtype st) (nth c (x st) 0)) ->
    List.length (x (fold_left step l st)) = List.length (x st)
    /\ nth k (x (fold_left step l st)) 0 == nth k (x st) 0.
Proof.
  induction l as [|j l IH]; intros st k Hheld; simpl.
  - split; reflexivity.
  - assert (Hheld' : forall c, Spec.held (x_dtype (step st j)) (nth c (x (step st j)) 0)).
    { intro c. destruct (still_step st j c Hheld) as [_ Hc].
      replace (x_dtype (step st j)) with (x_dtype st)
        by (unfold coordinate_step; destruct (Nat.eqb j 0); reflexivity).
      apply (held_compat _ (nth c (x st) 0)); [symmetry; exact Hc | apply Hheld]. }
    destruct (IH (step st j) k Hheld') as [Hl Hn].
    destruct (still_step st j k Hheld) as [Hl' Hn'].
    split; [congruence|]. rewrite Hn. exact Hn'.
Qed.

End StillSteps.

(** X2: when [minimize_BCD] runs without a penalty and either the step
    size is zero, or [alpha] is zero and the partial derivative of the loss
    vanishes everywhere, the vector it returns has the entries of the
    initial vector, whatever the number of passes and the shuffles. *)
Theorem zero_step_leaves_x :
  forall (Sh : Shuffler) (rng : RNG Sh) (clock : BCD.Clock) (f : BCD.Loss)
         (x0 : option array_like) (step_size : Q) (max_iter : Z)
         (trace verbose : bool) (tol : Q) (r : OptimizeResult),
    step_size == 0
    \/ (BCD.f_alpha f == 0
        /\ forall p l, BCD.f_partial_gradient_factory f p l == 0) ->
    BCD.minimize_BCD Sh rng clock f None x0 (Some step_size) max_iter
                     trace verbose tol = Ok r ->
    List.length (r_x r) = List.length (Spec.start_vector f x0)
    /\ forall k : nat, nth k (r_x r) 0 == nth k (Spec.start_vector f x0) 0.
Proof.
  intros Sh rng clock f x0 step_size max_iter trace verbose tol r Hstill Hrun.
  apply minimize_BCD_returns in Hrun.
  destruct Hrun as (s & Ax & tx & st & rng' & tf & tt & Hs & _ & _ & K & _ & Hr).
  cbn [Spec.step_in_use] in Hs. subst s. subst r. cbn [r_x].
  pose proof (kernel_run _ _ _ _ _ _ _ _ _ _ _ _ _ _ _ _ _ _ K)
    as (_ & _ & _ & _ & Hx & _).
  rewrite Hx.
  pose proof (still_steps (BCD.n_rows (BCD.f_A f)) step_size (BCD.f_alpha f)
                (BCD.f_partial_gradient_factory f)
                (BCD.csr_matrix (BCD.f_A f)) (BCD.csc_matrix (BCD.f_A f))
                (BCD.f_b f) Hstill
                (Spec.visits Sh max_iter rng (BCD.n_cols (BCD.f_A f)))
                {| BCD.x := Spec.start_vector f x0;
                   BCD.x_dtype := Spec.start_dtype x0; BCD.Ax := Ax;
                   BCD.trace_x := tx; BCD.events := [] |}) as Hstay.
  cbn [BCD.x BCD.x_dtype] in Hstay.
  split.
  - exact (proj1 (Hstay O (start_vector_held f x0))).
  - intro k. exact (proj2 (Hstay k (start_vector_held f x0))).
Qed.

Lemma zero_step_leaves_x_witness :
  exists r,
    BCD.minimize_BCD Examples.shuffle_rev tt Examples.clock0 Examples.f0 None
                     (Some (FloatArray [1; 2])) (Some 0) 3 false false 0 = Ok r
    /\ forall k : nat, nth k (r_x r) 0 == nth k [1; 2] 0.
Proof.
  eexists. split; [vm_compute; reflexivity|].
  apply (zero_step_leaves_x Examples.shuffle_rev tt Examples.clock0 Examples.f0
           (Some (FloatArray [1; 2])) 0 3 false false 0).
  - left. reflexivity.
  - vm_compute. reflexivity.
Defined.

(** ** When the BCD driver raises *)

Lemma new_trace_x_cases (trace : bool) (max_iter : Z) (n_features : nat) :
  BCD.new_trace_x trace max_iter n_features
  = if negb trace || (0 <=? max_iter)%Z
    then Ok (if trace then repeat (zeros n_features) (Z.to_nat max_iter) else [])
    else Raise ValueError.
Proof.
  unfold BCD.new_trace_x. destruct trace; cbn [negb orb]; [|reflexivity].
  destruct (Z.ltb_spec max_iter 0), (Z.leb_spec 0 max_iter); try lia; reflexivity.
Qed.

(** X3: with a step size given, [minimize_BCD] raises in two cases only,
    both with [ValueError] and before any pass: the initial vector does not
    have one entry per column of the design matrix, or [trace] is set and
    [max_iter] is negative.  In every other case it returns, and the vector
    it returns has one entry per column. *)
Theorem minimize_BCD_raises_exactly_when :
  forall (Sh : Shuffler) (rng : RNG Sh) (clock : BCD.Clock) (f : BCD.Loss)
         (g : option BCD.Penalty) (x0 : option array_like) (step_size : Q)
         (max_iter : Z) (trace verbose : bool) (tol : Q),
    (Nat.eqb (List.length (Spec.start_vector f x0)) (BCD.n_cols (BCD.f_A f))
     && (negb trace || (0 <=? max_iter)%Z) = true ->
     exists r,
       BCD.minimize_BCD Sh rng clock f g x0 (Some step_size) max_iter
                        trace verbose tol = Ok r
       /\ List.length (r_x r) = BCD.n_cols (BCD.f_A f))
    /\ (Nat.eqb (List.length (Spec.start_vector f x0)) (BCD.n_cols (BCD.f_A f))
        && (negb trace || (0 <=? max_iter)%Z) = false ->
        BCD.minimize_BCD Sh rng clock f g x0 (Some step_size) max_iter
                         trace verbose tol = Raise ValueError).
Proof.
  intros Sh rng clock f g x0 step_size max_iter trace verbose tol.
  assert (Hdot : BCD.dot (BCD.f_A f) (Spec.start_vector f x0)
                 = if Nat.eqb (List.length (Spec.start_vector f x0))
                              (BCD.n_cols (BCD.f_A f))
                   then Ok (map (BCD.row_dot (BCD.f_A f) (Spec.start_vector f x0))
                                (seq 0 (BCD.n_rows (BCD.f_A f))))
                   else Raise ValueError) by reflexivity.
  split; intro Hc.
  - apply andb_prop in Hc. destruct Hc as [Hlen Htr].
    rewrite Hlen in Hdot.
    pose proof (new_trace_x_cases trace max_iter (BCD.n_cols (BCD.f_A f))) as Hnew.
    rewrite Htr in Hnew.
    assert (Hret : exists r,
               BCD.minimize_BCD Sh rng clock f g x0 (Some step_size) max_iter
                                trace verbose tol = Ok r).
    { unfold BCD.minimize_BCD.
      fold (Spec.start_vector f x0). fold (Spec.penalty g).
      cbn [bind]. rewrite Hdot. cbn [bind BCD.shape]. rewrite Hnew. cbn [bind].
      destruct (BCD._bcd_algorithm _ _ _ _ _ _ _ _ _ _ _ _ _ _)
        as [[[n_iter cert] st] rng'] eqn:K.
      pose proof (kernel_run _ _ _ _ _ _ _ _ _ _ _ _ _ _ _ _ _ _ K)
        as (Hi & _ & Htx & _).
      cbn [BCD.trace_x] in Htx.
      destruct trace.
      - cbn [negb orb] in Htr. apply Z.leb_le in Htr.
        rewrite Htx, py_range_0, Hi.
        rewrite trace_values_constant by lia.
        cbn [bind]. eexists. reflexivity.
      - cbn [bind]. eexists. reflexivity. }
    destruct Hret as (r & Hr). exists r. split; [exact Hr|].
    pose proof Hr as Hr'. apply minimize_BCD_returns in Hr'.
    destruct Hr' as (s & Ax & tx & st & rng' & tf & tt & Hs & Hd & _ & K & _ & Hres).
    subst r. cbn [r_x].
    pose proof (kernel_run _ _ _ _ _ _ _ _ _ _ _ _ _ _ _ _ _ _ K)
      as (_ & _ & _ & _ & Hx & HA).
    rewrite Hx, steps_length_x. cbn [BCD.x].
    apply Nat.eqb_eq. exact Hlen.
  - unfold BCD.minimize_BCD.
    fold (Spec.start_vector f x0). fold (Spec.penalty g).
    cbn [bind]. rewrite Hdot.
    destruct (Nat.eqb (List.length (Spec.start_vector f x0)) (BCD.n_cols (BCD.f_A f)));
      [|reflexivity].
    cbn [andb] in Hc. cbn [bind BCD.shape].
    rewrite new_trace_x_cases, Hc. reflexivity.
Qed.

Lemma minimize_BCD_raises_exactly_when_witness :
  (exists r,
      BCD.minimize_BCD Examples.shuffle_rev tt Examples.clock0 Examples.f0 None
                       None (Some (1 # 2)) 3 true false 0 = Ok r
      /\ List.length (r_x r) = 2%nat)
  /\ BCD.minimize_BCD Examples.shuffle_rev tt Examples.clock0 Examples.f0 None
                      (Some (FloatArray [1])) (Some (1 # 2)) 3 true false 0
     = Raise ValueError.
Proof.
  split.
  - apply (proj1 (minimize_BCD_raises_exactly_when Examples.shuffle_rev tt
                    Examples.clock0 Examples.f0 None None (1 # 2) 3 true false 0)).
    reflexivity.
  - apply (proj2 (minimize_BCD_raises_exactly_when Examples.shuffle_rev tt
                    Examples.clock0 Examples.f0 None (Some (FloatArray [1]))
                    (1 # 2) 3 true
                    false 0)).
    reflexivity.
Defined.

(** ** The trace of the BCD driver *)

Lemma linspace_length (start stop : Q) (num : Z) :
  List.length (BCD.linspace start stop num) = Z.to_nat num.
Proof. unfold BCD.linspace. rewrite length_map, length_seq. reflexivity. Qed.

(** X4: in the result of [minimize_BCD], with [trace] set [trace_func] and
    [trace_time] both have [nit] entries; with [trace] unset [trace_func]
    is empty while [trace_time] holds one entry. *)
Theorem trace_lengths :
  forall (Sh : Shuffler) (rng : RNG Sh) (clock : BCD.Clock) (f : BCD.Loss)
         (g : option BCD.Penalty) (x0 : option array_like) (step_size : option Q)
         (max_iter : Z) (trace verbose : bool) (tol : Q) (r : OptimizeResult),
    BCD.minimize_BCD Sh rng clock f g x0 step_size max_iter trace verbose tol = Ok r ->
    exists tf times : list Q,
      r_trace_func r = Some tf
      /\ r_trace_time r = Some times
      /\ if trace
         then List.length tf = Z.to_nat (r_nit r)
              /\ List.length times = Z.to_nat (r_nit r)
         else tf = [] /\ List.length times = 1%nat.
Proof.
  intros Sh rng clock f g x0 step_size max_iter trace verbose tol r Hrun.
  apply minimize_BCD_returns in Hrun.
  destruct Hrun as (s & Ax & tx & st & rng' & tf & tt & _ & _ & _ & _ & Htr & Hr).
  subst r. exists tf, tt. split; [reflexivity|]. split; [reflexivity|].
  cbn [r_nit]. destruct trace.
  - destruct Htr as [-> ->]. rewrite repeat_length, linspace_length. split; lia.
  - destruct Htr as [-> ->]. split; reflexivity.
Qed.

Lemma trace_lengths_witness :
  exists r tf times,
    BCD.minimize_BCD Examples.shuffle_rev tt Examples.clock0 Examples.f0 None
                     None None 3 true false 0 = Ok r
    /\ r_trace_func r = Some tf /\ r_trace_time r = Some times
    /\ List.length tf = 2%nat /\ List.length times = 2%nat.
Proof.
  destruct (BCD.minimize_BCD Examples.shuffle_rev tt Examples.clock0 Examples.f0
              None None None 3 true false 0) as [r|e] eqn:Hrun.
  - destruct (trace_lengths Examples.shuffle_rev tt Examples.clock0 Examples.f0
                None None None 3 true false 0 r Hrun) as (tf & times & Hf & Ht & Hl).
    exists r, tf, times. split; [reflexivity|]. split; [exact Hf|]. split; [exact Ht|].
    cbn beta iota in Hl.
    assert (Hn : r_nit r = 2%Z) by (vm_compute in Hrun; inversion Hrun; reflexivity).
    rewrite Hn in Hl. exact Hl.
  - vm_compute in Hrun. discriminate.
Defined.

(** X5: tracing only observes: the calls with [trace] set and unset, all
    else equal, return the same [x] and the same [nit] whenever both
    return. *)
Theorem trace_does_not_change_the_solve :
  forall (Sh : Shuffler) (rng : RNG Sh) (clock : BCD.Clock) (f : BCD.Loss)
         (g : option BCD.Penalty) (x0 : option array_like) (step_size : option Q)
         (max_iter : Z) (verbose : bool) (tol : Q) (r r' : OptimizeResult),
    BCD.minimize_BCD Sh rng clock f g x0 step_size max_iter true verbose tol = Ok r ->
    BCD.minimize_BCD Sh rng clock f g x0 step_size max_iter false verbose tol = Ok r' ->
    r_x r = r_x r' /\ r_nit r = r_nit r'.
Proof.
  intros Sh rng clock f g x0 step_size max_iter verbose tol r r' H1 H2.
  apply minimize_BCD_returns in H1. apply minimize_BCD_returns in H2.
  destruct H1 as (s & Ax & tx & st & rng1 & tf & tt & Hs & Hd & _ & K & _ & Hr).
  destruct H2 as (s' & Ax' & tx' & st' & rng2 & tf' & tt' & Hs' & Hd' & _ & K' & _ & Hr').
  subst s s'.
  rewrite Hd in Hd'. inversion Hd'; subst Ax'.
  subst r r'. cbn [r_x r_nit]. split; [|reflexivity].
  pose proof (kernel_run _ _ _ _ _ _ _ _ _ _ _ _ _ _ _ _ _ _ K)
    as (_ & _ & _ & _ & Hx & _).
  pose proof (kernel_run _ _ _ _ _ _ _ _ _ _ _ _ _ _ _ _ _ _ K')
    as (_ & _ & _ & _ & Hx' & _).
  rewrite Hx, Hx'.
  apply steps_numbers; reflexivity.
Qed.

Lemma trace_does_not_change_the_solve_witness :
  exists r r',
    BCD.minimize_BCD Examples.shuffle_rev tt Examples.clock0 Examples.f0 None
                     None None 3 true false 0 = Ok r
    /\ BCD.minimize_BCD Examples.shuffle_rev tt Examples.clock0 Examples.f0 None
                        None None 3 false false 0 = Ok r'
    /\ r_x r = r_x r'.
Proof.
  eexists. eexists. split; [vm_compute; reflexivity|].
  split; [vm_compute; reflexivity|].
  apply (trace_does_not_change_the_solve Examples.shuffle_rev tt Examples.clock0
           Examples.f0 None None None 3 false 0);
    vm_compute; reflexivity.
Defined.

(** ** The SAGA driver, further *)

Lemma py_range_cons (a b : Z) :
  (a < b)%Z -> py_range a b = a :: py_range (a + 1) b.
Proof.
  intro Hlt. unfold py_range.
  replace (Z.to_nat (b - a)) with (S (Z.to_nat (b - (a + 1)))) by lia.
  cbn [seq map]. f_equal; [lia|].
  rewrite <- seq_shift, map_map. apply map_ext. intro k. lia.
Qed.

(** X6: the driver of [minimizelp_SAGA] calls the epoch with five
    arguments while [_saga_algorithm] declares eight parameters.  So, for
    any closure over that kernel, the loop raises [TypeError] in its first
    pass when [max_iter] is positive, and otherwise runs no pass and ends
    with [success] false and the arrays untouched. *)
Theorem saga_epoch_call_cannot_bind :
  forall (Sh : Shuffler) (body : SAGA.closure -> SAGA.State -> result SAGA.State)
         (epoch_iteration : SAGA.closure) (callback : option (list Q -> list Q))
         (tol : Q) (max_iter : Z) (rng : RNG Sh) (st : SAGA.State),
    SAGA.cl_code epoch_iteration = SAGA.code_saga_algorithm ->
    SAGA.saga_loop Sh (SAGA.call_epoch body epoch_iteration) callback tol
                   (py_range 0 max_iter) rng st false 0
    = if (0 <? max_iter)%Z then Raise TypeError else Ok (st, false, 0%Z).
Proof.
  intros Sh body epoch_iteration callback tol max_iter rng st Hcode.
  destruct (Z.ltb_spec 0 max_iter) as [Hpos|Hle].
  - rewrite py_range_cons by exact Hpos. cbn [SAGA.saga_loop].
    destruct (shuffle Sh rng (SAGA.idx st)) as [idx' rng'].
    rewrite (call_epoch_arity body epoch_iteration _ Hcode). reflexivity.
  - rewrite py_range_empty by lia. reflexivity.
Qed.

Lemma saga_epoch_call_cannot_bind_witness :
  SAGA.saga_loop Examples.shuffle_keep
    (SAGA.call_epoch (fun _ st => Ok st)
       {| SAGA.cl_code := SAGA.code_saga_algorithm;
          SAGA.cl_f_deriv := fun p b => p - b; SAGA.cl_alpha := 0;
          SAGA.cl_prox := SAGA.prox_zero;
          SAGA.cl_A := (Scope.PyModule "", Scope.PyModule "",
                        Scope.PyModule "", Scope.PyModule "") |})
    None 0 (py_range 0 5) tt Examples.saga_state0 false 0
  = Raise TypeError.
Proof.
  apply (saga_epoch_call_cannot_bind Examples.shuffle_keep (fun _ st => Ok st)
           {| SAGA.cl_code := SAGA.code_saga_algorithm;
              SAGA.cl_f_deriv := fun p b => p - b; SAGA.cl_alpha := 0;
              SAGA.cl_prox := SAGA.prox_zero;
              SAGA.cl_A := (Scope.PyModule "", Scope.PyModule "",
                            Scope.PyModule "", Scope.PyModule "") |}
           None 0 5 tt Examples.saga_state0).
  reflexivity.
Defined.

(** X7: the value that the L1 [prox] of [_factory_SAGA_epoch] computes in
    its body, for a non-negative threshold [beta * step_size], is the soft
    threshold of [x]: [x] moved towards zero by the threshold, and zero
    when [x] lies within the threshold of zero.  It is odd in [x] and never
    larger than [x] in absolute value. *)
Theorem soft_threshold_shrinks :
  forall beta x step_size : Q,
    0 <= beta * step_size ->
    (beta * step_size < x ->
     SAGA.soft_threshold beta x step_size == x - beta * step_size)
    /\ (x < - (beta * step_size) ->
        SAGA.soft_threshold beta x step_size == x + beta * step_size)
    /\ (- (beta * step_size) <= x <= beta * step_size ->
        SAGA.soft_threshold beta x step_size == 0)
    /\ SAGA.soft_threshold beta (- x) step_size
       == - SAGA.soft_threshold beta x step_size
    /\ Qabs (SAGA.soft_threshold beta x step_size) <= Qabs x.
Proof.
  intros beta x step_size Ht.
  assert (Hup : beta * step_size < x ->
                SAGA.soft_threshold beta x step_size == x - beta * step_size).
  { intro Hx. unfold SAGA.soft_threshold.
    rewrite (Q.max_l (x - beta * step_size) 0) by lra.
    rewrite (Q.max_r (- x - beta * step_size) 0) by lra. ring. }
  assert (Hdown : x < - (beta * step_size) ->
                  SAGA.soft_threshold beta x step_size == x + beta * step_size).
  { intro Hx. unfold SAGA.soft_threshold.
    rewrite (Q.max_r (x - beta * step_size) 0) by lra.
    rewrite (Q.max_l (- x - beta * step_size) 0) by lra. ring. }
  assert (Hmid : - (beta * step_size) <= x <= beta * step_size ->
                 SAGA.soft_threshold beta x step_size == 0).
  { intros [Hlo Hhi]. apply soft_threshold_dead_zone; assumption. }
  split; [exact Hup|]. split; [exact Hdown|]. split; [exact Hmid|].
  split.
  - unfold SAGA.soft_threshold.
    setoid_replace (- - x - beta * step_size) with (x - beta * step_size) by ring.
    ring.
  - destruct (Qlt_le_dec (beta * step_size) x) as [H1|H1].
    + rewrite (Hup H1). rewrite !Qabs_pos by lra. lra.
    + destruct (Qlt_le_dec x (- (beta * step_size))) as [H2|H2].
      * rewrite (Hdown H2). rewrite !Qabs_neg by lra. lra.
      * rewrite (Hmid (conj H2 H1)). apply Qabs_nonneg.
Qed.

Lemma soft_threshold_shrinks_witness :
  SAGA.soft_threshold 1 3 1 == 3 - 1 * 1.
Proof.
  apply (proj1 (soft_threshold_shrinks 1 3 1 ltac:(vm_compute; discriminate))).
  reflexivity.
Defined.

Lemma first_below_found (c : nat -> Q) (tol : Q) (n : nat) :
  forall k, Spec.first_below c tol n = Some k -> (k < n)%nat /\ c k < tol.
Proof.
  revert c. induction n as [|n IH]; intros c k Hk; simpl in Hk; [discriminate|].
  destruct (Qltb (c O) tol) eqn:H0.
  - inversion Hk; subst. split; [lia | apply Qltb_spec; exact H0].
  - destruct (Spec.first_below (fun i => c (S i)) tol n) as [k'|] eqn:Hrec;
      [|discriminate].
    inversion Hk; subst. destruct (IH _ _ Hrec) as [Hlt Hc]. split; [lia | exact Hc].
Qed.

(** X8: run with an epoch function that completes, the driver loop of
    [minimizelp_SAGA] always ends, after some number [m] of passes that is
    at most [max_iter]; the [nit] it reports is [m - 1] (and 0 when no pass
    ran), one less than the passes run; [success] is set exactly when the
    last pass changed [x] by less than [tol] in total, and when it is not
    set all [max_iter] passes have run. *)
Theorem saga_loop_reports_last_index :
  forall (Sh : Shuffler) (E : SAGA.State -> SAGA.State)
         (callback : option (list Q -> list Q)) (tol : Q) (max_iter : Z)
         (rng : RNG Sh) (st : SAGA.State),
  exists (m : nat) (success : bool),
    SAGA.saga_loop Sh (fun st => Ok (E st)) callback tol
                   (py_range 0 max_iter) rng st false 0
    = Ok (snd (Spec.after Sh E callback (rng, st) m), success,
          Z.max 0 (Z.of_nat m - 1))
    /\ (m <= Z.to_nat max_iter)%nat
    /\ (success = true ->
        (0 < m)%nat /\ Spec.change Sh E callback (rng, st) (m - 1) < tol)
    /\ (success = false -> m = Z.to_nat max_iter).
Proof.
  intros Sh E callback tol max_iter rng st.
  rewrite py_range_0, saga_loop_run.
  destruct (Spec.first_below (Spec.change Sh E callback (rng, st)) tol
                             (Z.to_nat max_iter)) as [k|] eqn:Hk.
  - apply first_below_found in Hk. destruct Hk as [Hlt Hc].
    exists (S k), true. split; [do 2 f_equal; lia|]. split; [lia|].
    split; [|discriminate].
    intros _. split; [lia|]. replace (S k - 1)%nat with k by lia. exact Hc.
  - exists (Z.to_nat max_iter), false.
    split.
    + destruct (Z.to_nat max_iter) as [|m'] eqn:Em; do 2 f_equal; lia.
    + split; [lia|]. split; [discriminate | reflexivity].
Qed.

Lemma saga_loop_reports_last_index_witness :
  exists (m : nat) (success : bool),
    SAGA.saga_loop Examples.shuffle_keep (fun st => Ok (Examples.halve st)) None
                   (1 # 5) (py_range 0 5) tt Examples.saga_state0 false 0
    = Ok (snd (Spec.after Examples.shuffle_keep Examples.halve None
                          (tt, Examples.saga_state0) m), success,
          Z.max 0 (Z.of_nat m - 1))
    /\ (m <= 5)%nat.
Proof.
  destruct (saga_loop_reports_last_index Examples.shuffle_keep Examples.halve None
              (1 # 5) 5 tt Examples.saga_state0) as (m & success & Hrun & Hm & _).
  exists m, success. split; [exact Hrun | exact Hm].
Defined.

(** * Properties of the dataset loaders *)

Section LoaderFacts.

Import Datasets.
Local Open Scope string_scope.

Variable H : Host.

Lemma path_join_not_dir (dir name : string) :
  String.eqb (path_join dir name) dir = false.
Proof.
  unfold path_join. induction dir as [|c dir IH]; simpl.
  - reflexivity.
  - rewrite Ascii.eqb_refl. exact IH.
Qed.

(** The data directory is created when it is missing; files, requests and
    output are left alone. *)
Lemma ensure_data_dir_run (w : World) :
  exists w',
    ensure_data_dir H w = Returned tt w'
    /\ files w' = files w
    /\ fetched w' = fetched w
    /\ stdout w' = stdout w
    /\ (forall p, dirs w p = true -> dirs w' p = true)
    /\ (forall p, p <> DATA_DIR H -> dirs w' p = dirs w p).
Proof.
  unfold ensure_data_dir, io_bind, path_exists.
  destruct (match files w (DATA_DIR H) with
            | Some _ => true
            | None => dirs w (DATA_DIR H)
            end); simpl.
  - exists w. repeat split; auto.
  - eexists. split; [reflexivity|]. simpl. repeat split; auto.
    + intros p Hp. rewrite Hp. destruct (String.eqb p (DATA_DIR H)); reflexivity.
    + intros p Hp. apply String.eqb_neq in Hp. rewrite Hp. reflexivity.
Qed.

Lemma load_svmlight_file_run (path body : string) (w : World) :
  files w path = Some body ->
  load_svmlight_file H path w
  = match parse_svmlight H body with
    | Some d => Returned d w
    | None => Raised (SvmlightError path) w
    end.
Proof.
  intro Hf. unfold load_svmlight_file, io_bind, read_bytes. rewrite Hf.
  destruct (parse_svmlight H body); reflexivity.
Qed.

(** One call of a checked loader on a world where the file is present. *)
Lemma load_checked_present (src : Source) (depth : nat) (md5_check : bool)
    (w : World) (body : string) :
  files w (path_join (DATA_DIR H) (file_name src)) = Some body ->
  exists w',
    ensure_data_dir H w = Returned tt w'
    /\ load_checked H src (S depth) md5_check w
       = if md5_check && negb (String.eqb (md5_hexdigest H body) (digest src))
         then (_ <- print "MD5 hash do not coincide" ;;
               _ <- print "Removing file and re-downloading" ;;
               _ <- remove (path_join (DATA_DIR H) (file_name src)) ;;
               load_checked H src depth true)%io w'
         else load_svmlight_file H (path_join (DATA_DIR H) (file_name src)) w'.
Proof.
  intro Hf.
  destruct (ensure_data_dir_run w) as (w' & He & Hfiles & _).
  exists w'. split; [exact He|].
  cbn [load_checked]. unfold io_bind at 1. rewrite He.
  unfold io_bind at 1. unfold path_exists at 1. rewrite Hfiles, Hf.
  cbn [negb]. unfold io_bind at 1. unfold ret at 1.
  destruct md5_check; cbn [andb]; [|reflexivity].
  unfold io_bind at 1. unfold read_bytes at 1. rewrite Hfiles, Hf.
  destruct (negb (String.eqb (md5_hexdigest H body) (digest src))); reflexivity.
Qed.


(** One call of a checked loader on a world where nothing sits at the
    path of the file and the network serves [body]. *)
Lemma load_checked_download (src : Source) (depth : nat) (md5_check : bool)
    (w : World) (body : string) :
  files w (path_join (DATA_DIR H) (file_name src)) = None ->
  dirs w (path_join (DATA_DIR H) (file_name src)) = false ->
  serve H (List.length (fetched w)) (url src) = Served body ->
  exists w1,
    files w1 (path_join (DATA_DIR H) (file_name src)) = Some body
    /\ (forall p, p <> path_join (DATA_DIR H) (file_name src) ->
                  files w1 p = files w p)
    /\ (forall p, dirs w p = true -> dirs w1 p = true)
    /\ (forall p, p <> DATA_DIR H -> dirs w1 p = dirs w p)
    /\ fetched w1 = (fetched w ++ [url src])%list
    /\ stdout w1 = (stdout w ++ [missing src; "Finished downloading"])%list
    /\ load_checked H src (S depth) md5_check w
       = if md5_check && negb (String.eqb (md5_hexdigest H body) (digest src))
         then (_ <- print "MD5 hash do not coincide" ;;
               _ <- print "Removing file and re-downloading" ;;
               _ <- remove (path_join (DATA_DIR H) (file_name src)) ;;
               load_checked H src depth true)%io w1
         else load_svmlight_file H (path_join (DATA_DIR H) (file_name src)) w1.
Proof.
  intros Hf Hd Hs.
  destruct (ensure_data_dir_run w) as (w' & He & Hfiles & Hfetched & Hout & Hmono & Hdirs).
  set (path := path_join (DATA_DIR H) (file_name src)) in *.
  assert (Hd' : dirs w' path = false).
  { rewrite Hdirs; [exact Hd|]. intro E.
    pose proof (path_join_not_dir (DATA_DIR H) (file_name src)) as N.
    fold path in N. rewrite E, String.eqb_refl in N. discriminate. }
  set (w1 := {| files := fun p => if String.eqb p path then Some body else files w' p;
                dirs := dirs w';
                fetched := (fetched w' ++ [url src])%list;
                stdout := ((stdout w' ++ [missing src])
                           ++ ["Finished downloading"])%list |}).
  exists w1.
  split; [simpl; rewrite String.eqb_refl; reflexivity|].
  split; [intros p Hp; simpl; apply String.eqb_neq in Hp; rewrite Hp, Hfiles;
          reflexivity|].
  split; [exact Hmono|]. split; [exact Hdirs|].
  split; [simpl; rewrite Hfetched; reflexivity|].
  split; [simpl; rewrite Hout, <- app_assoc; reflexivity|].
  cbn [load_checked]. fold path. unfold io_bind at 1. rewrite He.
  unfold io_bind at 1. unfold path_exists at 1. rewrite Hfiles, Hf, Hd'.
  cbn [negb].
  assert (Hblock : (_ <- print (missing src) ;;
                    _ <- urlretrieve H (url src) path ;;
                    print "Finished downloading")%io w' = Returned tt w1).
  { unfold io_bind, print, urlretrieve, write. simpl.
    rewrite <- Hfetched in Hs. rewrite Hs. reflexivity. }
  unfold io_bind at 1. rewrite Hblock.
  destruct md5_check; cbn [andb]; [|reflexivity].
  unfold io_bind at 1. unfold read_bytes at 1.
  assert (Hw1 : files w1 path = Some body)
    by (simpl; rewrite String.eqb_refl; reflexivity).
  rewrite Hw1.
  destruct (negb (String.eqb (md5_hexdigest H body) (digest src))); reflexivity.
Qed.

(** The retry: two lines printed, the file removed, the loader called
    again. *)
Lemma retry_run (src : Source) (depth : nat) (w : World) (body : string) :
  files w (path_join (DATA_DIR H) (file_name src)) = Some body ->
  exists w2,
    files w2 (path_join (DATA_DIR H) (file_name src)) = None
    /\ (forall p, p <> path_join (DATA_DIR H) (file_name src) ->
                  files w2 p = files w p)
    /\ dirs w2 = dirs w
    /\ fetched w2 = fetched w
    /\ stdout w2 = (stdout w ++ ["MD5 hash do not coincide";
                                 "Removing file and re-downloading"])%list
    /\ (_ <- print "MD5 hash do not coincide" ;;
        _ <- print "Removing file and re-downloading" ;;
        _ <- remove (path_join (DATA_DIR H) (file_name src)) ;;
        load_checked H src depth true)%io w
       = load_checked H src depth true w2.
Proof.
  intro Hf. set (path := path_join (DATA_DIR H) (file_name src)) in *.
  exists {| files := fun p => if String.eqb p path then None else files w p;
            dirs := dirs w; fetched := fetched w;
            stdout := ((stdout w ++ ["MD5 hash do not coincide"])
                       ++ ["Removing file and re-downloading"])%list |}.
  split; [simpl; rewrite String.eqb_refl; reflexivity|].
  split; [intros p Hp; simpl; apply String.eqb_neq in Hp; rewrite Hp; reflexivity|].
  split; [reflexivity|]. split; [reflexivity|].
  split; [simpl; rewrite <- app_assoc; reflexivity|].
  unfold io_bind, print, remove. simpl. rewrite Hf. reflexivity.
Qed.


(** A directory sitting at the path of the file: no download, and the
    first read raises. *)
Lemma load_checked_directory (src : Source) (depth : nat) (md5_check : bool)
    (w : World) :
  files w (path_join (DATA_DIR H) (file_name src)) = None ->
  dirs w (path_join (DATA_DIR H) (file_name src)) = true ->
  exists w',
    files w' = files w /\ fetched w' = fetched w
    /\ load_checked H src (S depth) md5_check w
       = Raised (IsADirectoryError (path_join (DATA_DIR H) (file_name src))) w'.
Proof.
  intros Hf Hd.
  destruct (ensure_data_dir_run w) as (w' & He & Hfiles & Hfetched & _ & Hmono & _).
  exists w'. split; [exact Hfiles|]. split; [exact Hfetched|].
  cbn [load_checked]. unfold io_bind at 1. rewrite He.
  unfold io_bind at 1. unfold path_exists at 1.
  rewrite Hfiles, Hf, (Hmono _ Hd). cbn [negb].
  unfold io_bind at 1. unfold ret at 1.
  destruct md5_check.
  - unfold io_bind, read_bytes. rewrite Hfiles, Hf, (Hmono _ Hd). reflexivity.
  - unfold load_svmlight_file, io_bind, read_bytes.
    rewrite Hfiles, Hf, (Hmono _ Hd). reflexivity.
Qed.

(** Nothing at the path of the file and no answer from the network. *)
Lemma load_checked_unreachable (src : Source) (depth : nat) (md5_check : bool)
    (w : World) :
  files w (path_join (DATA_DIR H) (file_name src)) = None ->
  dirs w (path_join (DATA_DIR H) (file_name src)) = false ->
  serve H (List.length (fetched w)) (url src) = Unreachable ->
  exists w',
    files w' = files w /\ fetched w' = (fetched w ++ [url src])%list
    /\ load_checked H src (S depth) md5_check w = Raised (URLError (url src)) w'.
Proof.
  intros Hf Hd Hs.
  destruct (ensure_data_dir_run w) as (w' & He & Hfiles & Hfetched & Hout & Hmono & Hdirs).
  set (path := path_join (DATA_DIR H) (file_name src)) in *.
  assert (Hd' : dirs w' path = false).
  { rewrite Hdirs; [exact Hd|]. intro E.
    pose proof (path_join_not_dir (DATA_DIR H) (file_name src)) as N.
    fold path in N. rewrite E, String.eqb_refl in N. discriminate. }
  exists {| files := files w'; dirs := dirs w';
            fetched := (fetched w' ++ [url src])%list;
            stdout := (stdout w' ++ [missing src])%list |}.
  split; [exact Hfiles|]. split; [simpl; rewrite Hfetched; reflexivity|].
  cbn [load_checked]. fold path. unfold io_bind at 1. rewrite He.
  unfold io_bind at 1. unfold path_exists at 1. rewrite Hfiles, Hf, Hd'.
  cbn [negb].
  unfold io_bind, print, urlretrieve. simpl.
  rewrite <- Hfetched in Hs. rewrite Hs, Hfiles. reflexivity.
Qed.

Lemma ensure_data_dir_present (w : World) :
  dirs w (DATA_DIR H) = true -> ensure_data_dir H w = Returned tt w.
Proof.
  intro Hd. unfold ensure_data_dir, io_bind, path_exists. rewrite Hd.
  destruct (files w (DATA_DIR H)); reflexivity.
Qed.

End LoaderFacts.

(** X9: for [load_rcv1], [load_url], [load_kdd10] and [load_kdd12]: when
    the data directory exists and the file is there with the expected
    checksum (or the check is off), the loader parses that file and leaves
    the world exactly as it was: no request, no removal, nothing printed. *)
Theorem cached_file_is_parsed_in_place :
  forall (H : Datasets.Host) (src : Datasets.Source) (depth : nat)
         (md5_check : bool) (w : Datasets.World) (body : string),
    Datasets.dirs w (Datasets.DATA_DIR H) = true ->
    Datasets.files w (Datasets.path_join (Datasets.DATA_DIR H)
                                         (Datasets.file_name src)) = Some body ->
    (md5_check = true -> Datasets.md5_hexdigest H body = Datasets.digest src) ->
    Datasets.load_checked H src (S depth) md5_check w
    = match Datasets.parse_svmlight H body with
      | Some d => Datasets.Returned d w
      | None =>
          Datasets.Raised
            (Datasets.SvmlightError
               (Datasets.path_join (Datasets.DATA_DIR H) (Datasets.file_name src))) w
      end.
Proof.
  intros H src depth md5_check w body Hd Hf Hm.
  destruct (load_checked_present H src depth md5_check w body Hf)
    as (w' & He & Hrun).
  rewrite (ensure_data_dir_present H w Hd) in He. inversion He; subst w'.
  rewrite Hrun.
  replace (md5_check && negb (String.eqb (Datasets.md5_hexdigest H body)
                                         (Datasets.digest src))) with false.
  - apply load_svmlight_file_run. exact Hf.
  - destruct md5_check; [|reflexivity].
    rewrite (Hm eq_refl), String.eqb_refl. reflexivity.
Qed.

Lemma cached_file_is_parsed_in_place_witness :
  Datasets.load_rcv1 (Datasets.host_serving "other") 1 true
    (Datasets.world_with "data/rcv1_full.binary.bz2"
                         "6131cf16515e9cce08d112c880b6b817")
  = Datasets.Returned "6131cf16515e9cce08d112c880b6b817"%string
      (Datasets.world_with "data/rcv1_full.binary.bz2"
                           "6131cf16515e9cce08d112c880b6b817").
Proof.
  apply (cached_file_is_parsed_in_place (Datasets.host_serving "other")
           Datasets.rcv1 0 true
           (Datasets.world_with "data/rcv1_full.binary.bz2"
                                "6131cf16515e9cce08d112c880b6b817")
           "6131cf16515e9cce08d112c880b6b817").
  - reflexivity.
  - reflexivity.
  - intros _. reflexivity.
Defined.

(** X10: for the same four loaders: a dataset returned under [md5_check]
    was parsed from the file that the loader leaves at its path, and that
    file has the expected checksum, whatever was cached and whatever the
    network served on the way. *)
Theorem returned_dataset_has_checksum :
  forall (H : Datasets.Host) (src : Datasets.Source) (depth : nat)
         (w w' : Datasets.World) (d : Datasets.Dataset H),
    Datasets.load_checked H src depth true w = Datasets.Returned d w' ->
    exists body : string,
      Datasets.files w' (Datasets.path_join (Datasets.DATA_DIR H)
                                            (Datasets.file_name src)) = Some body
      /\ Datasets.md5_hexdigest H body = Datasets.digest src
      /\ Datasets.parse_svmlight H body = Some d.
Proof.
  intros H src depth. induction depth as [|depth IH]; intros w w' d Hrun.
  - discriminate.
  - set (path := Datasets.path_join (Datasets.DATA_DIR H) (Datasets.file_name src)).
    assert (Hcheck : forall w1 body,
               Datasets.files w1 path = Some body ->
               (if true && negb (String.eqb (Datasets.md5_hexdigest H body)
                                            (Datasets.digest src))
                then (Datasets.io_bind (Datasets.print "MD5 hash do not coincide")
                        (fun _ => Datasets.io_bind
                           (Datasets.print "Removing file and re-downloading")
                           (fun _ => Datasets.io_bind (Datasets.remove path)
                              (fun _ => Datasets.load_checked H src depth true)))) w1
                else Datasets.load_svmlight_file H path w1)
               = Datasets.Returned d w' ->
               exists body : string,
                 Datasets.files w' path = Some body
                 /\ Datasets.md5_hexdigest H body = Datasets.digest src
                 /\ Datasets.parse_svmlight H body = Some d).
    { intros w1 body Hf1 Hr. cbn [andb] in Hr.
      destruct (String.eqb (Datasets.md5_hexdigest H body) (Datasets.digest src))
        eqn:Hm; cbn [negb] in Hr.
      - rewrite (load_svmlight_file_run H path body w1 Hf1) in Hr.
        destruct (Datasets.parse_svmlight H body) as [d0|] eqn:Hp; [|discriminate].
        inversion Hr; subst. exists body.
        apply String.eqb_eq in Hm. auto.
      - destruct (retry_run H src depth w1 body Hf1) as (w2 & _ & _ & _ & _ & _ & Hretry).
        fold path in Hretry. rewrite Hretry in Hr. apply IH in Hr. exact Hr. }
    destruct (Datasets.files w path) as [body|] eqn:Hf.
    + destruct (load_checked_present H src depth true w body Hf) as (w1 & He & Hr).
      rewrite Hr in Hrun.
      destruct (ensure_data_dir_run H w) as (w1' & He' & Hfiles & _).
      rewrite He in He'. inversion He'; subst w1'.
      apply (Hcheck w1 body); [rewrite Hfiles; exact Hf | exact Hrun].
    + destruct (Datasets.dirs w path) eqn:Hd.
      * destruct (load_checked_directory H src depth true w Hf Hd) as (w1 & _ & _ & Hr).
        rewrite Hr in Hrun. discriminate.
      * destruct (Datasets.serve H (List.length (Datasets.fetched w)) (Datasets.url src))
          as [body|] eqn:Hs.
        -- destruct (load_checked_download H src depth true w body Hf Hd Hs)
             as (w1 & Hf1 & _ & _ & _ & _ & _ & Hr).
           rewrite Hr in Hrun. apply (Hcheck w1 body Hf1 Hrun).
        -- destruct (load_checked_unreachable H src depth true w Hf Hd Hs)
             as (w1 & _ & _ & Hr).
           rewrite Hr in Hrun. discriminate.
Qed.

Lemma returned_dataset_has_checksum_witness :
  exists body : string,
    Datasets.files
      (Datasets.final
         (Datasets.load_rcv1 (Datasets.host_serving "6131cf16515e9cce08d112c880b6b817")
            2 true
            (Datasets.world_with "data/rcv1_full.binary.bz2" "stale")))
      "data/rcv1_full.binary.bz2" = Some body
    /\ body = "6131cf16515e9cce08d112c880b6b817"%string.
Proof.
  destruct (Datasets.load_rcv1 (Datasets.host_serving "6131cf16515e9cce08d112c880b6b817")
              2 true (Datasets.world_with "data/rcv1_full.binary.bz2" "stale"))
    as [d w'|e w'] eqn:Hrun.
  - destruct (returned_dataset_has_checksum
                (Datasets.host_serving "6131cf16515e9cce08d112c880b6b817")
                Datasets.rcv1 2 _ w' d Hrun) as (body & Hf & Hm & _).
    exists body. split; [exact Hf | exact Hm].
  - vm_compute in Hrun. discriminate.
Defined.

(** X12: for the same four loaders: when nothing sits at the path of the
    file and every answer of the network has a wrong checksum, the loader
    never returns: each call downloads, removes and calls itself, until the
    interpreter's limit on nested calls raises [RecursionError].  After
    [depth] allowed calls it has sent [depth] requests and no file is
    left. *)
Theorem mismatch_recurses_to_the_limit :
  forall (H : Datasets.Host) (src : Datasets.Source),
    (forall n : nat, exists body : string,
        Datasets.serve H n (Datasets.url src) = Datasets.Served body
        /\ Datasets.md5_hexdigest H body <> Datasets.digest src) ->
    forall (depth : nat) (w : Datasets.World),
      Datasets.files w (Datasets.path_join (Datasets.DATA_DIR H)
                                           (Datasets.file_name src)) = None ->
      Datasets.dirs w (Datasets.path_join (Datasets.DATA_DIR H)
                                          (Datasets.file_name src)) = false ->
      exists w' : Datasets.World,
        Datasets.load_checked H src depth true w
        = Datasets.Raised Datasets.RecursionError w'
        /\ Datasets.files w' (Datasets.path_join (Datasets.DATA_DIR H)
                                                 (Datasets.file_name src)) = None
        /\ List.length (Datasets.fetched w')
           = (List.length (Datasets.fetched w) + depth)%nat.
Proof.
  intros H src Hbad depth.
  set (path := Datasets.path_join (Datasets.DATA_DIR H) (Datasets.file_name src)).
  induction depth as [|depth IH]; intros w Hf Hd.
  - exists w. split; [reflexivity|]. split; [exact Hf | lia].
  - destruct (Hbad (List.length (Datasets.fetched w))) as (body & Hs & Hm).
    destruct (load_checked_download H src depth true w body Hf Hd Hs)
      as (w1 & Hf1 & _ & _ & Hdirs1 & Hfetched1 & _ & Hr).
    apply String.eqb_neq in Hm. rewrite Hm in Hr. cbn [andb negb] in Hr.
    destruct (retry_run H src depth w1 body Hf1)
      as (w2 & Hf2 & _ & Hdirs2 & Hfetched2 & _ & Hretry).
    rewrite Hretry in Hr.
    assert (Hd2 : Datasets.dirs w2 path = false).
    { rewrite Hdirs2, Hdirs1; [exact Hd|]. intro E.
      pose proof (path_join_not_dir (Datasets.DATA_DIR H) (Datasets.file_name src)) as N.
      fold path in N. rewrite E, String.eqb_refl in N. discriminate. }
    destruct (IH w2 Hf2 Hd2) as (w' & Hrun & Hf' & Hlen).
    exists w'. split; [rewrite Hr; exact Hrun|]. split; [exact Hf'|].
    rewrite Hlen, Hfetched2, Hfetched1, length_app. simpl. lia.
Qed.

Lemma mismatch_recurses_to_the_limit_witness :
  exists w' : Datasets.World,
    Datasets.load_rcv1 (Datasets.host_serving "bad") 3 true Datasets.empty_world
    = Datasets.Raised Datasets.RecursionError w'
    /\ List.length (Datasets.fetched w') = 3%nat.
Proof.
  destruct (mismatch_recurses_to_the_limit (Datasets.host_serving "bad") Datasets.rcv1)
    with (depth := 3%nat) (w := Datasets.empty_world)
    as (w' & Hrun & _ & Hlen).
  - intro n. exists "bad"%string. split; [reflexivity | discriminate].
  - reflexivity.
  - reflexivity.
  - exists w'. split; [exact Hrun | exact Hlen].
Defined.

(** X13: for the same four loaders: a cached file with a wrong checksum is
    removed and fetched again; when the network then serves a body with the
    expected checksum, the loader returns the parse of that body after
    exactly one request, and the served body is what it leaves on disk. *)
Theorem corrupt_cache_is_replaced :
  forall (H : Datasets.Host) (src : Datasets.Source) (depth : nat)
         (w : Datasets.World) (stale good : string),
    Datasets.files w (Datasets.path_join (Datasets.DATA_DIR H)
                                         (Datasets.file_name src)) = Some stale ->
    Datasets.dirs w (Datasets.path_join (Datasets.DATA_DIR H)
                                        (Datasets.file_name src)) = false ->
    Datasets.md5_hexdigest H stale <> Datasets.digest src ->
    Datasets.serve H (List.length (Datasets.fetched w)) (Datasets.url src)
    = Datasets.Served good ->
    Datasets.md5_hexdigest H good = Datasets.digest src ->
    exists w' : Datasets.World,
      Datasets.load_checked H src (S (S depth)) true w
      = match Datasets.parse_svmlight H good with
        | Some d => Datasets.Returned d w'
        | None =>
            Datasets.Raised
              (Datasets.SvmlightError
                 (Datasets.path_join (Datasets.DATA_DIR H) (Datasets.file_name src)))
              w'
        end
      /\ Datasets.files w' (Datasets.path_join (Datasets.DATA_DIR H)
                                               (Datasets.file_name src)) = Some good
      /\ Datasets.fetched w' = Datasets.fetched w ++ [Datasets.url src]
      /\ Datasets.stdout w'
         = Datasets.stdout w
           ++ ["MD5 hash do not coincide"; "Removing file and re-downloading";
               Datasets.missing src; "Finished downloading"]%string.
Proof.
  intros H src depth w stale good Hf Hd Hstale Hs Hgood.
  set (path := Datasets.path_join (Datasets.DATA_DIR H) (Datasets.file_name src)) in *.
  assert (Hneq : path <> Datasets.DATA_DIR H).
  { intro E.
    pose proof (path_join_not_dir (Datasets.DATA_DIR H) (Datasets.file_name src)) as N.
    fold path in N. rewrite E, String.eqb_refl in N. discriminate. }
  destruct (load_checked_present H src (S depth) true w stale Hf) as (w1 & He & Hr).
  destruct (ensure_data_dir_run H w) as (w1' & He' & Hfiles1 & Hfetched1 & Hout1 & _ & Hdirs1).
  rewrite He in He'. inversion He'; subst w1'. clear He'.
  apply String.eqb_neq in Hstale. rewrite Hstale in Hr. cbn [andb negb] in Hr.
  assert (Hf1 : Datasets.files w1 path = Some stale) by (rewrite Hfiles1; exact Hf).
  destruct (retry_run H src (S depth) w1 stale Hf1)
    as (w2 & Hf2 & _ & Hdirs2 & Hfetched2 & Hout2 & Hretry).
  fold path in Hretry, Hr. rewrite Hretry in Hr.
  assert (Hd2 : Datasets.dirs w2 path = false)
    by (rewrite Hdirs2, Hdirs1; [exact Hd | exact Hneq]).
  assert (Hs2 : Datasets.serve H (List.length (Datasets.fetched w2)) (Datasets.url src)
                = Datasets.Served good)
    by (rewrite Hfetched2, Hfetched1; exact Hs).
  destruct (load_checked_download H src depth true w2 good Hf2 Hd2 Hs2)
    as (w3 & Hf3 & _ & _ & _ & Hfetched3 & Hout3 & Hr3).
  rewrite Hgood, String.eqb_refl in Hr3. cbn [andb negb] in Hr3.
  fold path in Hr3, Hf3.
  rewrite (load_svmlight_file_run H path good w3 Hf3) in Hr3.
  exists w3. split; [rewrite Hr, Hr3; reflexivity|].
  split; [exact Hf3|].
  split; [rewrite Hfetched3, Hfetched2, Hfetched1; reflexivity|].
  rewrite Hout3, Hout2, Hout1, <- app_assoc. reflexivity.
Qed.

Lemma corrupt_cache_is_replaced_witness :
  exists w' : Datasets.World,
    Datasets.load_kdd10 (Datasets.host_serving "bc5b630fef6989c2f201039fef497e14")
      2 true (Datasets.world_with "data/kddb.bz2" "stale")
    = Datasets.Returned "bc5b630fef6989c2f201039fef497e14"%string w'
    /\ Datasets.files w' "data/kddb.bz2" = Some "bc5b630fef6989c2f201039fef497e14"%string.
Proof.
  destruct (corrupt_cache_is_replaced
              (Datasets.host_serving "bc5b630fef6989c2f201039fef497e14")
              Datasets.kdd10 0
              (Datasets.world_with "data/kddb.bz2" "stale")
              "stale" "bc5b630fef6989c2f201039fef497e14")
    as (w' & Hrun & Hf & _).
  - reflexivity.
  - reflexivity.
  - discriminate.
  - reflexivity.
  - reflexivity.
  - exists w'. split; [exact Hrun | exact Hf].
Defined.

(** With the check off, a checked loader sends at most one request, keeps
    every file that was there, and returns only what the parser makes of
    the file at its path. *)
Lemma unchecked_load (H : Datasets.Host) (src : Datasets.Source) (depth : nat)
    (w : Datasets.World) :
  (forall p body, Datasets.files w p = Some body ->
                  Datasets.files
                    (Datasets.final (Datasets.load_checked H src (S depth) false w)) p
                  = Some body)
  /\ (List.length
        (Datasets.fetched
           (Datasets.final (Datasets.load_checked H src (S depth) false w)))
      <= List.length (Datasets.fetched w) + 1)%nat
  /\ (forall body,
         Datasets.files w (Datasets.path_join (Datasets.DATA_DIR H)
                                              (Datasets.file_name src)) = Some body ->
         exists w',
           Datasets.load_checked H src (S depth) false w
           = match Datasets.parse_svmlight H body with
             | Some d => Datasets.Returned d w'
             | None =>
                 Datasets.Raised
                   (Datasets.SvmlightError
                      (Datasets.path_join (Datasets.DATA_DIR H)
                                          (Datasets.file_name src))) w'
             end
           /\ Datasets.fetched w' = Datasets.fetched w)
  /\ (forall d w',
         Datasets.load_checked H src (S depth) false w = Datasets.Returned d w' ->
         exists body,
           Datasets.files w' (Datasets.path_join (Datasets.DATA_DIR H)
                                                 (Datasets.file_name src)) = Some body
           /\ Datasets.parse_svmlight H body = Some d).
Proof.
  set (path := Datasets.path_join (Datasets.DATA_DIR H) (Datasets.file_name src)).
  destruct (Datasets.files w path) as [body|] eqn:Hf.
  - destruct (load_checked_present H src depth false w body Hf) as (w1 & He & Hr).
    destruct (ensure_data_dir_run H w) as (w1' & He' & Hfiles & Hfetched & _).
    rewrite He in He'. inversion He'; subst w1'. clear He'.
    cbn [andb] in Hr. fold path in Hr.
    assert (Hf1 : Datasets.files w1 path = Some body) by (rewrite Hfiles; exact Hf).
    rewrite (load_svmlight_file_run H path body w1 Hf1) in Hr.
    assert (Hfin : Datasets.final (Datasets.load_checked H src (S depth) false w) = w1)
      by (rewrite Hr; destruct (Datasets.parse_svmlight H body); reflexivity).
    rewrite Hfin. repeat split.
    + intros p b Hp. rewrite Hfiles. exact Hp.
    + rewrite Hfetched. lia.
    + intros b Hb. inversion Hb; subst b. exists w1. split; [exact Hr | exact Hfetched].
    + intros d w' Hret. rewrite Hr in Hret.
      destruct (Datasets.parse_svmlight H body) as [d0|] eqn:Hp; [|discriminate].
      inversion Hret; subst. exists body. split; [exact Hf1 | exact Hp].
  - destruct (Datasets.dirs w path) eqn:Hd.
    + destruct (load_checked_directory H src depth false w Hf Hd)
        as (w1 & Hfiles & Hfetched & Hr).
      fold path in Hr. rewrite Hr. cbn [Datasets.final]. repeat split.
      * intros p b Hp. rewrite Hfiles. exact Hp.
      * rewrite Hfetched. lia.
      * intros b Hb. discriminate.
      * intros d w' Hret. discriminate.
    + destruct (Datasets.serve H (List.length (Datasets.fetched w)) (Datasets.url src))
        as [body|] eqn:Hs.
      * destruct (load_checked_download H src depth false w body Hf Hd Hs)
          as (w1 & Hf1 & Hother & _ & _ & Hfetched & _ & Hr).
        cbn [andb] in Hr. fold path in Hr, Hf1, Hother.
        rewrite (load_svmlight_file_run H path body w1 Hf1) in Hr.
        assert (Hfin : Datasets.final (Datasets.load_checked H src (S depth) false w) = w1)
          by (rewrite Hr; destruct (Datasets.parse_svmlight H body); reflexivity).
        rewrite Hfin. repeat split.
        -- intros p b Hp. rewrite Hother; [exact Hp|]. intro E. subst p. congruence.
        -- rewrite Hfetched, length_app. simpl. lia.
        -- intros b Hb. discriminate.
        -- intros d w' Hret. rewrite Hr in Hret.
           destruct (Datasets.parse_svmlight H body) as [d0|] eqn:Hp; [|discriminate].
           inversion Hret; subst. exists body. split; [exact Hf1 | exact Hp].
      * destruct (load_checked_unreachable H src depth false w Hf Hd Hs)
          as (w1 & Hfiles & Hfetched & Hr).
        fold path in Hr. rewrite Hr. cbn [Datasets.final]. repeat split.
        -- intros p b Hp. rewrite Hfiles. exact Hp.
        -- rewrite Hfetched, length_app. simpl. lia.
        -- intros b Hb. discriminate.
        -- intros d w' Hret. discriminate.
Qed.

(** X11: for [load_rcv1], [load_url], [load_kdd10] and [load_kdd12] called
    with [md5_check=False]: at most one request is sent, every file that
    existed is still there with its content, a file already at the path is
    parsed as it is, whatever its checksum, without any request, and no
    retry takes place, so a single allowed call suffices. *)
Theorem unchecked_load_trusts_the_cache :
  forall (H : Datasets.Host) (src : Datasets.Source) (depth : nat)
         (w : Datasets.World) (body : string),
    Datasets.files w (Datasets.path_join (Datasets.DATA_DIR H)
                                         (Datasets.file_name src)) = Some body ->
    (exists w',
        Datasets.load_checked H src (S depth) false w
        = match Datasets.parse_svmlight H body with
          | Some d => Datasets.Returned d w'
          | None =>
              Datasets.Raised
                (Datasets.SvmlightError
                   (Datasets.path_join (Datasets.DATA_DIR H)
                                       (Datasets.file_name src))) w'
          end
        /\ Datasets.fetched w' = Datasets.fetched w
        /\ forall p b, Datasets.files w p = Some b -> Datasets.files w' p = Some b)
    /\ Datasets.load_checked H src (S depth) false w
       = Datasets.load_checked H src 1 false w.
Proof.
  intros H src depth w body Hf. split.
  - destruct (unchecked_load H src depth w) as (Hkeep & _ & Hhit & _).
    destruct (Hhit body Hf) as (w' & Hr & Hfetched).
    exists w'. split; [exact Hr|]. split; [exact Hfetched|].
    intros p b Hp. specialize (Hkeep p b Hp). rewrite Hr in Hkeep.
    destruct (Datasets.parse_svmlight H body); exact Hkeep.
  - destruct (load_checked_present H src depth false w body Hf) as (w1 & He & Hr).
    destruct (load_checked_present H src 0 false w body Hf) as (w2 & He2 & Hr2).
    rewrite He in He2. inversion He2; subst w2.
    rewrite Hr, Hr2. reflexivity.
Qed.

Lemma unchecked_load_trusts_the_cache_witness :
  exists w',
    Datasets.load_url (Datasets.host_serving "other") 1 false
      (Datasets.world_with "data/url_combined.bz2" "anything")
    = Datasets.Returned "anything"%string w'
    /\ Datasets.fetched w' = [].
Proof.
  destruct (unchecked_load_trusts_the_cache (Datasets.host_serving "other")
              Datasets.url_combined 0
              (Datasets.world_with "data/url_combined.bz2" "anything") "anything")
    as ((w' & Hr & Hfetched & _) & _).
  - reflexivity.
  - exists w'. split; [exact Hr | exact Hfetched].
Defined.

Lemma load_covtype_unchecked (H : Datasets.Host) :
  Datasets.load_covtype H = Datasets.load_checked H Datasets.covtype 1 false.
Proof. reflexivity. Qed.

(** X14: [load_covtype] verifies nothing: it sends at most one request,
    and only when nothing is at the path; it keeps every file that was
    there; and a dataset it returns is the parse of the file it leaves at
    the path, with no checksum involved. *)
Theorem covtype_is_never_checked :
  forall (H : Datasets.Host) (w : Datasets.World),
    (forall p body, Datasets.files w p = Some body ->
                    Datasets.files (Datasets.final (Datasets.load_covtype H w)) p
                    = Some body)
    /\ (List.length (Datasets.fetched (Datasets.final (Datasets.load_covtype H w)))
        <= List.length (Datasets.fetched w) + 1)%nat
    /\ (forall body,
           Datasets.files w (Datasets.path_join (Datasets.DATA_DIR H)
                                                "covtype.libsvm.binary.scale.bz2")
           = Some body ->
           exists w',
             Datasets.load_covtype H w
             = match Datasets.parse_svmlight H body with
               | Some d => Datasets.Returned d w'
               | None =>
                   Datasets.Raised
                     (Datasets.SvmlightError
                        (Datasets.path_join (Datasets.DATA_DIR H)
                                            "covtype.libsvm.binary.scale.bz2")) w'
               end
             /\ Datasets.fetched w' = Datasets.fetched w)
    /\ (forall d w',
           Datasets.load_covtype H w = Datasets.Returned d w' ->
           exists body,
             Datasets.files w' (Datasets.path_join (Datasets.DATA_DIR H)
                                                   "covtype.libsvm.binary.scale.bz2")
             = Some body
             /\ Datasets.parse_svmlight H body = Some d).
Proof.
  intros H w. rewrite load_covtype_unchecked.
  apply (unchecked_load H Datasets.covtype 0 w).
Qed.

Lemma covtype_is_never_checked_witness :
  exists w',
    Datasets.load_covtype (Datasets.host_serving "other")
      (Datasets.world_with "data/covtype.libsvm.binary.scale.bz2" "anything")
    = Datasets.Returned "anything"%string w'
    /\ Datasets.fetched w' = [].
Proof.
  destruct (covtype_is_never_checked (Datasets.host_serving "other")
              (Datasets.world_with "data/covtype.libsvm.binary.scale.bz2" "anything"))
    as (_ & _ & Hhit & _).
  destruct (Hhit "anything"%string) as (w' & Hr & Hfetched); [reflexivity|].
  exists w'. split; [exact Hr | exact Hfetched].
Defined.

(** ** The criteo loader *)

Lemma path_join_inj (dir n1 n2 : string) :
  Datasets.path_join dir n1 = Datasets.path_join dir n2 -> n1 = n2.
Proof.
  unfold Datasets.path_join. induction dir as [|c dir IH]; simpl; intro E.
  - inversion E. reflexivity.
  - inversion E. auto.
Qed.

Section Unpacking.

Import Datasets.

Variable dir : string.

Local Notation unpack :=
  (fold_left (fun w m => write w (path_join dir (fst m)) (snd m))).

Lemma unpack_frame (members : list (string * string)) :
  forall w : World,
    dirs (unpack members w) = dirs w
    /\ fetched (unpack members w) = fetched w
    /\ stdout (unpack members w) = stdout w.
Proof.
  induction members as [|m members IH]; intro w; simpl; [auto|].
  destruct (IH (write w (path_join dir (fst m)) (snd m))) as (Hd & Hf & Ho).
  rewrite Hd, Hf, Ho. auto.
Qed.

Lemma unpack_elsewhere (members : list (string * string)) (p : string) :
  forall w : World,
    (forall m, In m members -> path_join dir (fst m) <> p) ->
    files (unpack members w) p = files w p.
Proof.
  induction members as [|m members IH]; intros w Hp; simpl; [reflexivity|].
  rewrite IH by (intros m' Hm'; apply Hp; right; exact Hm').
  simpl. assert (Hne : p <> path_join dir (fst m))
    by (intro E; apply (Hp m); [left; reflexivity | congruence]).
  apply String.eqb_neq in Hne. rewrite Hne. reflexivity.
Qed.

Lemma unpack_member (members : list (string * string)) (name body : string) :
  NoDup (map fst members) ->
  forall w : World,
    In (name, body) members ->
    files (unpack members w) (path_join dir name) = Some body.
Proof.
  induction members as [|m members IH]; intros Hnd w Hin; [destruct Hin|].
  simpl in Hnd. inversion Hnd as [|? ? Hnotin Hnd']; subst.
  simpl. destruct Hin as [->|Hin].
  - rewrite unpack_elsewhere.
    + simpl. rewrite String.eqb_refl. reflexivity.
    + intros m' Hm' E. apply path_join_inj in E. apply Hnotin.
      simpl. rewrite <- E. apply in_map. exact Hm'.
  - apply IH; assumption.
Qed.

End Unpacking.

(** X15: [load_criteo] checks the archive and parses the unpacked file.
    When the data directory exists and the archive is there with the
    expected checksum (or the check is off), the loader returns whatever
    the parser makes of [criteo.kaggle2014.train.svm] as it sits on disk,
    with no checksum of its own; when that file is missing the call raises
    and the archive is not unpacked again.  The world is left as it was. *)
Theorem criteo_parses_the_unpacked_file_as_is :
  forall (H : Datasets.Host) (depth : nat) (md5_check : bool)
         (w : Datasets.World) (archive : string),
    Datasets.dirs w (Datasets.DATA_DIR H) = true ->
    Datasets.files w (Datasets.path_join (Datasets.DATA_DIR H)
                                         "criteo.kaggle2014.svm.tar.gz")
    = Some archive ->
    (md5_check = true ->
     Datasets.md5_hexdigest H archive = "d852b491d1b3afa26c1e7b49594ffc3e"%string) ->
    Datasets.load_criteo H (S depth) md5_check w
    = match Datasets.files w (Datasets.path_join (Datasets.DATA_DIR H)
                                                 "criteo.kaggle2014.train.svm") with
      | Some body =>
          match Datasets.parse_svmlight H body with
          | Some d => Datasets.Returned d w
          | None =>
              Datasets.Raised
                (Datasets.SvmlightError
                   (Datasets.path_join (Datasets.DATA_DIR H)
                                       "criteo.kaggle2014.train.svm")) w
          end
      | None =>
          if Datasets.dirs w (Datasets.path_join (Datasets.DATA_DIR H)
                                                 "criteo.kaggle2014.train.svm")
          then Datasets.Raised
                 (Datasets.IsADirectoryError
                    (Datasets.path_join (Datasets.DATA_DIR H)
                                        "criteo.kaggle2014.train.svm")) w
          else Datasets.Raised
                 (Datasets.FileNotFoundError
                    (Datasets.path_join (Datasets.DATA_DIR H)
                                        "criteo.kaggle2014.train.svm")) w
      end.
Proof.
  intros H depth md5_check w archive Hd Hf Hm.
  cbn [Datasets.load_criteo]. unfold Datasets.io_bind at 1.
  rewrite (ensure_data_dir_present H w Hd).
  unfold Datasets.io_bind at 1. unfold Datasets.path_exists at 1. rewrite Hf.
  cbn [negb]. unfold Datasets.io_bind at 1. unfold Datasets.ret at 1.
  assert (Hload :
    Datasets.load_svmlight_file H
      (Datasets.path_join (Datasets.DATA_DIR H) "criteo.kaggle2014.train.svm") w
    = match Datasets.files w (Datasets.path_join (Datasets.DATA_DIR H)
                                                 "criteo.kaggle2014.train.svm") with
      | Some body =>
          match Datasets.parse_svmlight H body with
          | Some d => Datasets.Returned d w
          | None =>
              Datasets.Raised
                (Datasets.SvmlightError
                   (Datasets.path_join (Datasets.DATA_DIR H)
                                       "criteo.kaggle2014.train.svm")) w
          end
      | None =>
          if Datasets.dirs w (Datasets.path_join (Datasets.DATA_DIR H)
                                                 "criteo.kaggle2014.train.svm")
          then Datasets.Raised
                 (Datasets.IsADirectoryError
                    (Datasets.path_join (Datasets.DATA_DIR H)
                                        "criteo.kaggle2014.train.svm")) w
          else Datasets.Raised
                 (Datasets.FileNotFoundError
                    (Datasets.path_join (Datasets.DATA_DIR H)
                                        "criteo.kaggle2014.train.svm")) w
      end).
  { unfold Datasets.load_svmlight_file, Datasets.io_bind, Datasets.read_bytes.
    destruct (Datasets.files w (Datasets.path_join (Datasets.DATA_DIR H)
                                                   "criteo.kaggle2014.train.svm"))
      as [body|].
    - destruct (Datasets.parse_svmlight H body); reflexivity.
    - destruct (Datasets.dirs w (Datasets.path_join (Datasets.DATA_DIR H)
                                                    "criteo.kaggle2014.train.svm"));
        reflexivity. }
  destruct md5_check; [|exact Hload].
  unfold Datasets.io_bind at 1. unfold Datasets.read_bytes at 1. rewrite Hf.
  rewrite (Hm eq_refl). cbn [String.eqb Ascii.eqb negb]. exact Hload.
Qed.

Lemma criteo_parses_the_unpacked_file_as_is_witness :
  Datasets.load_criteo (Datasets.host_serving "other") 1 true
    (Datasets.world_with "data/criteo.kaggle2014.svm.tar.gz"
                         "d852b491d1b3afa26c1e7b49594ffc3e")
  = Datasets.Raised
      (Datasets.FileNotFoundError "data/criteo.kaggle2014.train.svm")
      (Datasets.world_with "data/criteo.kaggle2014.svm.tar.gz"
                           "d852b491d1b3afa26c1e7b49594ffc3e").
Proof.
  apply (criteo_parses_the_unpacked_file_as_is (Datasets.host_serving "other") 0 true
           (Datasets.world_with "data/criteo.kaggle2014.svm.tar.gz"
                                "d852b491d1b3afa26c1e7b49594ffc3e")
           "d852b491d1b3afa26c1e7b49594ffc3e").
  - reflexivity.
  - reflexivity.
  - intros _. reflexivity.
Defined.

(** X16: [load_criteo] unpacks a downloaded archive before it checks it.
    When nothing sits at the path of the archive and the network serves an
    archive with a wrong checksum, every member of that archive has been
    written under the data directory by the time the checksum is compared;
    the retry then removes the archive alone and calls the loader again in
    a world that still holds those members. *)
Theorem criteo_unpacks_before_checking :
  forall (H : Datasets.Host) (depth : nat) (w : Datasets.World)
         (bad : string) (members : list (string * string)),
    Datasets.files w (Datasets.path_join (Datasets.DATA_DIR H)
                                         "criteo.kaggle2014.svm.tar.gz") = None ->
    Datasets.dirs w (Datasets.path_join (Datasets.DATA_DIR H)
                                        "criteo.kaggle2014.svm.tar.gz") = false ->
    Datasets.serve H (List.length (Datasets.fetched w))
      "https://s3-us-west-2.amazonaws.com/criteo-public-svm-data/criteo.kaggle2014.svm.tar.gz"
    = Datasets.Served bad ->
    Datasets.md5_hexdigest H bad <> "d852b491d1b3afa26c1e7b49594ffc3e"%string ->
    Datasets.untar H bad = Some members ->
    NoDup (map fst members) ->
    ~ In "criteo.kaggle2014.svm.tar.gz"%string (map fst members) ->
    exists w2 : Datasets.World,
      Datasets.load_criteo H (S depth) true w = Datasets.load_criteo H depth true w2
      /\ Datasets.files w2 (Datasets.path_join (Datasets.DATA_DIR H)
                                               "criteo.kaggle2014.svm.tar.gz") = None
      /\ (forall name body,
             In (name, body) members ->
             Datasets.files w2 (Datasets.path_join (Datasets.DATA_DIR H) name)
             = Some body)
      /\ Datasets.fetched w2
         = Datasets.fetched w
           ++ ["https://s3-us-west-2.amazonaws.com/criteo-public-svm-data/criteo.kaggle2014.svm.tar.gz"%string].
Proof.
  intros H depth w bad members Hf Hd Hs Hbad Htar Hnd Hself.
  set (tar := Datasets.path_join (Datasets.DATA_DIR H) "criteo.kaggle2014.svm.tar.gz") in *.
  set (link := "https://s3-us-west-2.amazonaws.com/criteo-public-svm-data/criteo.kaggle2014.svm.tar.gz"%string) in *.
  destruct (ensure_data_dir_run H w)
    as (w0 & He & Hfiles & Hfetched & Hout & Hmono & Hdirs).
  assert (Hd0 : Datasets.dirs w0 tar = false).
  { rewrite Hdirs; [exact Hd|]. intro E.
    pose proof (path_join_not_dir (Datasets.DATA_DIR H) "criteo.kaggle2014.svm.tar.gz") as N.
    fold tar in N. rewrite E, String.eqb_refl in N. discriminate. }
  set (unpack := fold_left
                   (fun w m => Datasets.write w
                                 (Datasets.path_join (Datasets.DATA_DIR H) (fst m))
                                 (snd m)) members).
  set (w1 := Datasets.write
               {| Datasets.files := Datasets.files w0; Datasets.dirs := Datasets.dirs w0;
                  Datasets.fetched := Datasets.fetched w0 ++ [link];
                  Datasets.stdout :=
                    Datasets.stdout w0
                    ++ ["criteo dataset is not present in data folder. Downloading it ..."%string] |}
               tar bad).
  assert (Hnotself : forall m, In m members ->
                               Datasets.path_join (Datasets.DATA_DIR H) (fst m) <> tar).
  { intros m Hm E. apply path_join_inj in E. apply Hself.
    rewrite <- E. apply in_map. exact Hm. }
  assert (Hf1 : Datasets.files w1 tar = Some bad)
    by (unfold w1; simpl; rewrite String.eqb_refl; reflexivity).
  assert (Hfu : Datasets.files (unpack w1) tar = Some bad).
  { unfold unpack. rewrite unpack_elsewhere by exact Hnotself. exact Hf1. }
  destruct (unpack_frame (Datasets.DATA_DIR H) members w1) as (Hud & Huf & Huo).
  fold unpack in Hud, Huf, Huo.
  set (w2 := {| Datasets.files :=
                  fun p => if String.eqb p tar then None
                           else Datasets.files (unpack w1) p;
                Datasets.dirs := Datasets.dirs (unpack w1);
                Datasets.fetched := Datasets.fetched (unpack w1);
                Datasets.stdout :=
                  ((Datasets.stdout (unpack w1) ++ ["Finished downloading"%string])
                   ++ ["MD5 hash do not coincide"%string])
                  ++ ["Removing file and re-downloading"%string] |}).
  exists w2.
  split; [|split; [|split]].
  - cbn [Datasets.load_criteo]. fold tar link.
    unfold Datasets.io_bind at 1. rewrite He.
    unfold Datasets.io_bind at 1. unfold Datasets.path_exists at 1.
    rewrite Hfiles, Hf, Hd0. cbn [negb].
    assert (Hblock :
      (Datasets.io_bind
         (Datasets.print "criteo dataset is not present in data folder. Downloading it ...")
         (fun _ => Datasets.io_bind (Datasets.urlretrieve H link tar)
            (fun _ => Datasets.io_bind
               (Datasets.extractall H tar (Datasets.DATA_DIR H))
               (fun _ => Datasets.print "Finished downloading")))) w0
      = Datasets.Returned tt
          {| Datasets.files := Datasets.files (unpack w1);
             Datasets.dirs := Datasets.dirs (unpack w1);
             Datasets.fetched := Datasets.fetched (unpack w1);
             Datasets.stdout :=
               Datasets.stdout (unpack w1) ++ ["Finished downloading"%string] |}).
    { unfold Datasets.io_bind at 1. unfold Datasets.print at 1.
      unfold Datasets.io_bind at 1. unfold Datasets.urlretrieve at 1.
      cbn [Datasets.fetched Datasets.files Datasets.dirs Datasets.stdout].
      rewrite <- Hfetched in Hs. rewrite Hs. fold w1.
      unfold Datasets.io_bind at 1. unfold Datasets.extractall.
      unfold Datasets.io_bind at 1. unfold Datasets.read_bytes at 1.
      rewrite Hf1, Htar. fold unpack. reflexivity. }
    unfold Datasets.io_bind at 1. rewrite Hblock.
    unfold Datasets.io_bind at 1. unfold Datasets.read_bytes at 1.
    cbn [Datasets.files]. rewrite Hfu.
    apply String.eqb_neq in Hbad. rewrite Hbad. cbn [negb].
    unfold Datasets.io_bind, Datasets.print, Datasets.remove.
    cbn [Datasets.files Datasets.dirs Datasets.fetched Datasets.stdout].
    rewrite Hfu. reflexivity.
  - simpl. rewrite String.eqb_refl. reflexivity.
  - intros name body Hin. simpl.
    assert (Hne : Datasets.path_join (Datasets.DATA_DIR H) name <> tar)
      by (apply (Hnotself (name, body)); exact Hin).
    apply String.eqb_neq in Hne. rewrite Hne.
    apply unpack_member; assumption.
  - simpl. rewrite Huf. unfold w1. simpl. rewrite Hfetched. reflexivity.
Qed.

Lemma criteo_unpacks_before_checking_witness :
  exists w2 : Datasets.World,
    Datasets.load_criteo (Datasets.host_serving "bad") 2 true Datasets.empty_world
    = Datasets.load_criteo (Datasets.host_serving "bad") 1 true w2
    /\ Datasets.files w2 "data/criteo.kaggle2014.train.svm" = Some "bad"%string.
Proof.
  destruct (criteo_unpacks_before_checking (Datasets.host_serving "bad") 1
              Datasets.empty_world "bad"
              [("criteo.kaggle2014.train.svm", "bad")]%string)
    as (w2 & Hrun & _ & Hmem & _).
  - reflexivity.
  - reflexivity.
  - reflexivity.
  - discriminate.
  - reflexivity.
  - repeat constructor. intros [].
  - intros [E|[]]. discriminate.
  - exists w2. split; [exact Hrun|].
    apply (Hmem "criteo.kaggle2014.train.svm"%string "bad"%string).
    left. reflexivity.
Defined.

(** * Properties of the SAGA sample loop *)

Section SampleLoop.

Import SagaKernel.

Lemma for_each_raised {S T : Type} (body : S -> T -> result S) (l : list T)
    (e : exn) :
  fold_left (fun acc t => bind acc (fun s => body s t)) l (Raise e) = Raise e.
Proof. induction l as [|t l IH]; simpl; [reflexivity | exact IH]. Qed.

Lemma for_each_cons {S T : Type} (body : S -> T -> result S) (t : T)
    (l : list T) (s : S) :
  for_each body (t :: l) s = bind (body s t) (for_each body l).
Proof.
  unfold for_each. simpl. destruct (body s t) as [s'|e]; simpl.
  - reflexivity.
  - apply for_each_raised.
Qed.

Variable M : BCD.matrix.
Variables (partial_gradient : Q -> Q -> Q) (b d : list Q) (f_alpha : Q).
Variable prox : Q -> Q -> pyval.
Variable step_size : Q.

Local Notation n := (BCD.n_rows M).
Local Notation at_column :=
  (update_at n d f_alpha prox step_size).
Local Notation step :=
  (sample_step (BCD.csr_matrix M) n partial_gradient b d f_alpha prox step_size).

(** The coefficient loop of sample [i] visits the nonzero columns of row
    [i]. *)
Lemma coefficient_loop_columns (grad_i old_grad : Q) (st : arrays) (i : nat) :
  (i < n)%nat ->
  for_each (update_coefficient (BCD.csr_matrix M) n d f_alpha prox step_size
                               grad_i old_grad)
           (BCD.span (BCD.csr_matrix M) i) st
  = for_each (fun st j => at_column grad_i old_grad st j (BCD.entry M i j))
             (BCD.row_nonzeros M i) st.
Proof.
  intro Hi. unfold for_each, update_coefficient.
  apply (fold_span (fun acc j a => bind acc (fun s => at_column grad_i old_grad s j a))
                   M i (Ok st) Hi).
Qed.

(** What a completed coefficient loop over distinct columns has written. *)
Lemma coefficient_loop_writes (grad_i old_grad : Q) (c : nat -> Q) (l : list nat) :
  NoDup l ->
  forall st st' : arrays,
    for_each (fun st j => at_column grad_i old_grad st j (c j)) l st = Ok st' ->
    memory_gradient st' = memory_gradient st
    /\ List.length (gradient_average st') = List.length (gradient_average st)
    /\ List.length (x st') = List.length (x st)
    /\ (forall j, ~ In j l ->
                  nth j (gradient_average st') 0 = nth j (gradient_average st) 0
                  /\ nth j (x st') 0 = nth j (x st) 0)
    /\ (forall j, In j l -> (j < List.length (gradient_average st))%nat ->
                  nth j (gradient_average st') 0
                  = nth j (gradient_average st) 0
                    + (grad_i - old_grad) * c j / inject_Z (Z.of_nat n)).
Proof.
  induction 1 as [|k l Hk Hnd IH]; intros st st' Hrun.
  - unfold for_each in Hrun. simpl in Hrun. inversion Hrun; subst.
    repeat split; auto. intros j [].
  - rewrite for_each_cons in Hrun.
    destruct (at_column grad_i old_grad st k (c k)) as [st1|e] eqn:Hk1;
      [|discriminate].
    cbn [bind] in Hrun. apply IH in Hrun.
    destruct Hrun as (Hm & Hlg & Hlx & Hout & Hin).
    unfold update_at in Hk1.
    destruct (prox _ _) as [|v]; [discriminate|]. cbn [setitem bind] in Hk1.
    inversion Hk1; subst st1. clear Hk1. cbn [memory_gradient gradient_average x] in *.
    rewrite length_store in Hlg, Hlx.
    split; [exact Hm|]. split; [exact Hlg|]. split; [exact Hlx|]. split.
    + intros j Hj.
      assert (Hne : k <> j) by (intro; apply Hj; left; assumption).
      destruct (Hout j) as [Hg Hx]; [intro; apply Hj; right; assumption|].
      rewrite Hg, Hx, !nth_store_other by exact Hne. split; reflexivity.
    + intros j [->|Hj] Hlt.
      * destruct (Hout j Hk) as [Hg _]. rewrite Hg.
        apply nth_store_same. exact Hlt.
      * assert (Hne : k <> j) by (intro; subst; contradiction).
        rewrite Hin by (try rewrite length_store; assumption).
        rewrite nth_store_other by exact Hne. reflexivity.
Qed.

(** What a completed sample step has written. *)
Lemma sample_step_writes (st st' : arrays) (i : nat) :
  (i < n)%nat ->
  step st i = Ok st' ->
  memory_gradient st'
  = store (memory_gradient st) i
          (partial_gradient (prediction (BCD.csr_matrix M) (x st) i) (nth i b 0))
  /\ List.length (gradient_average st') = List.length (gradient_average st)
  /\ List.length (x st') = List.length (x st)
  /\ (forall j, BCD.nonzero (BCD.entry M i j) = false ->
                nth j (gradient_average st') 0 = nth j (gradient_average st) 0
                /\ nth j (x st') 0 = nth j (x st) 0)
  /\ (forall j, BCD.nonzero (BCD.entry M i j) = true ->
                (j < BCD.n_cols M)%nat ->
                (j < List.length (gradient_average st))%nat ->
                nth j (gradient_average st') 0
                = nth j (gradient_average st) 0
                  + (partial_gradient (prediction (BCD.csr_matrix M) (x st) i)
                                      (nth i b 0)
                     - nth i (memory_gradient st) 0)
                    * BCD.entry M i j / inject_Z (Z.of_nat n)).
Proof.
  intros Hi Hrun. unfold sample_step in Hrun.
  rewrite coefficient_loop_columns in Hrun by exact Hi.
  apply (coefficient_loop_writes _ _ (BCD.entry M i) _ (row_nonzeros_NoDup M i))
    in Hrun.
  cbn [memory_gradient gradient_average x] in Hrun.
  destruct Hrun as (Hm & Hlg & Hlx & Hout & Hin).
  split; [exact Hm|]. split; [exact Hlg|]. split; [exact Hlx|]. split.
  - intros j Hz. apply Hout. rewrite row_nonzeros_In. intros [_ Hnz]. congruence.
  - intros j Hnz Hj Hlt. apply Hin; [|exact Hlt].
    apply row_nonzeros_In. split; assumption.
Qed.

(** A completed sample step keeps [gradient_average] the average. *)
Lemma sample_step_averaged (st st' : arrays) (i : nat) :
  (i < n)%nat -> averaged M st -> step st i = Ok st' -> averaged M st'.
Proof.
  intros Hi (Hlm & Hlg & Hav) Hrun.
  destruct (sample_step_writes st st' i Hi Hrun) as (Hm & Hlg' & _ & Hout & Hin).
  set (grad_i := partial_gradient (prediction (BCD.csr_matrix M) (x st) i) (nth i b 0))
    in *.
  split; [rewrite Hm, length_store; exact Hlm|].
  split; [rewrite Hlg'; exact Hlg|].
  intros j Hj. rewrite Hm.
  destruct (qsum_bump
              (fun k => nth k (memory_gradient st) 0 * BCD.entry M k j
                        / inject_Z (Z.of_nat n))
              (fun k => nth k (store (memory_gradient st) i grad_i) 0 * BCD.entry M k j
                        / inject_Z (Z.of_nat n))
              i
              ((grad_i - nth i (memory_gradient st) 0) * BCD.entry M i j
               / inject_Z (Z.of_nat n))
              (seq 0 n) (seq_NoDup n 0)) as [Hbump _].
  - intros k Hk. rewrite nth_store_other by congruence. reflexivity.
  - rewrite nth_store_same by lia. unfold Qdiv. ring.
  - rewrite Hbump by (apply in_seq; lia).
    destruct (BCD.nonzero (BCD.entry M i j)) eqn:Hnz.
    + rewrite (Hin j Hnz Hj) by lia. rewrite (Hav j Hj). reflexivity.
    + destruct (Hout j Hnz) as [Hg _]. rewrite Hg, (Hav j Hj).
      apply nonzero_false in Hnz. rewrite Hnz. unfold Qdiv. ring.
Qed.

Lemma sample_loop_averaged (order : list nat) :
  forall st st' : arrays,
    Forall (fun i => (i < n)%nat) order ->
    averaged M st ->
    sample_loop (BCD.csr_matrix M) n partial_gradient b d f_alpha prox step_size
                order st = Ok st' ->
    averaged M st'.
Proof.
  unfold sample_loop.
  induction order as [|i order IH]; intros st st' Hord Hav Hrun.
  - unfold for_each in Hrun. simpl in Hrun. inversion Hrun; subst. exact Hav.
  - rewrite for_each_cons in Hrun. inversion Hord; subst.
    destruct (step st i) as [st1|e] eqn:Hstep; [|discriminate].
    cbn [bind] in Hrun.
    apply (IH st1 st'); [assumption | | exact Hrun].
    apply (sample_step_averaged st st1 i); assumption.
Qed.

Lemma sample_step_shaped (st st' : arrays) (i : nat) :
  (i < n)%nat -> shaped M b d st -> step st i = Ok st' -> shaped M b d st'.
Proof.
  intros Hi (Hb & Hd & Hx & Hm & Hg) Hrun.
  destruct (sample_step_writes st st' i Hi Hrun) as (Hm' & Hlg & Hlx & _).
  repeat split; try assumption.
  - rewrite Hlx. exact Hx.
  - rewrite Hm', length_store. exact Hm.
  - rewrite Hlg. exact Hg.
Qed.

Lemma sample_loop_shaped (order : list nat) :
  forall st st' : arrays,
    Forall (fun i => (i < n)%nat) order ->
    shaped M b d st ->
    sample_loop (BCD.csr_matrix M) n partial_gradient b d f_alpha prox step_size
                order st = Ok st' ->
    shaped M b d st'.
Proof.
  unfold sample_loop.
  induction order as [|i order IH]; intros st st' Hord Hsh Hrun.
  - unfold for_each in Hrun. simpl in Hrun. inversion Hrun; subst. exact Hsh.
  - rewrite for_each_cons in Hrun. inversion Hord; subst.
    destruct (step st i) as [st1|e] eqn:Hstep; [|discriminate].
    cbn [bind] in Hrun.
    apply (IH st1 st'); [assumption | | exact Hrun].
    apply (sample_step_shaped st st1 i); assumption.
Qed.

End SampleLoop.

Lemma zeros_nth (k m : nat) : nth k (zeros m) 0 = 0.
Proof.
  unfold zeros. destruct (Nat.lt_ge_cases k m) as [H|H].
  - apply nth_repeat_lt. exact H.
  - apply nth_overflow. rewrite repeat_length. exact H.
Qed.

(** X17: in the sample loop of [_saga_algorithm], run on the compressed
    rows of a matrix with arrays of the lengths of its samples and
    features, [gradient_average[j]] stays the sum over the samples of
    [memory_gradient[i] * A[i, j] / n_samples]: the two zero arrays the
    driver allocates satisfy this, and every pass over the samples that
    completes keeps it and the lengths, in whatever order the samples
    come. *)
Theorem gradient_average_is_the_average :
  forall (M : BCD.matrix) (partial_gradient : Q -> Q -> Q) (b d : list Q)
         (f_alpha : Q) (prox : Q -> Q -> pyval) (step_size : Q)
         (order : list nat) (st st' : SagaKernel.arrays),
    Forall (fun i => (i < BCD.n_rows M)%nat) order ->
    SagaKernel.shaped M b d st ->
    SagaKernel.averaged M st ->
    SagaKernel.sample_loop (BCD.csr_matrix M) (BCD.n_rows M) partial_gradient b d
                           f_alpha prox step_size order st = Ok st' ->
    SagaKernel.shaped M b d st'
    /\ SagaKernel.averaged M st'
    /\ forall x0 : list Q,
         SagaKernel.averaged M
           {| SagaKernel.x := x0;
              SagaKernel.memory_gradient := zeros (BCD.n_rows M);
              SagaKernel.gradient_average := zeros (BCD.n_cols M) |}.
Proof.
  intros M pg b d f_alpha prox step_size order st st' Hord Hsh Hav Hrun.
  split; [|split].
  - apply (sample_loop_shaped M pg b d f_alpha prox step_size order st st');
      assumption.
  - apply (sample_loop_averaged M pg b d f_alpha prox step_size order st st');
      assumption.
  - intro x0. unfold SagaKernel.averaged. cbn.
    split; [apply repeat_length|]. split; [apply repeat_length|].
    intros j Hj. rewrite zeros_nth. symmetry. apply qsum_zero.
    intros i _. rewrite zeros_nth. unfold Qdiv. ring.
Qed.

Lemma gradient_average_is_the_average_witness :
  exists st' : SagaKernel.arrays,
    SagaKernel.sample_loop (BCD.csr_matrix Examples.A0) 2 (fun p l => p - l)
      Examples.b0 [1; 1] 0 SAGA.prox_zero (1 # 2) [1; 0]%nat
      {| SagaKernel.x := [0; 0]; SagaKernel.memory_gradient := zeros 2;
         SagaKernel.gradient_average := zeros 2 |} = Ok st'
    /\ SagaKernel.averaged Examples.A0 st'.
Proof.
  eexists. split; [vm_compute; reflexivity|].
  apply (gradient_average_is_the_average Examples.A0 (fun p l => p - l)
           Examples.b0 [1; 1] 0 SAGA.prox_zero (1 # 2) [1; 0]%nat
           {| SagaKernel.x := [0; 0]; SagaKernel.memory_gradient := zeros 2;
              SagaKernel.gradient_average := zeros 2 |}).
  - repeat constructor.
  - repeat split.
  - unfold SagaKernel.averaged. cbn. repeat split.
    intros j Hj. destruct j as [|[|j]]; [| |simpl in Hj; lia]; reflexivity.
  - vm_compute. reflexivity.
Defined.

(** X18: a sample step of [_saga_algorithm] that completes touches only
    what the sample stores: [memory_gradient] changes at [i] alone, where
    it receives the partial derivative at the product of row [i] with [x],
    and [x] and [gradient_average] keep their lengths and their entries at
    every column where row [i] has a zero. *)
Theorem sample_step_is_sparse :
  forall (M : BCD.matrix) (partial_gradient : Q -> Q -> Q) (b d : list Q)
         (f_alpha : Q) (prox : Q -> Q -> pyval) (step_size : Q)
         (st st' : SagaKernel.arrays) (i : nat),
    (i < BCD.n_rows M)%nat ->
    SagaKernel.shaped M b d st ->
    SagaKernel.sample_step (BCD.csr_matrix M) (BCD.n_rows M) partial_gradient b d
                           f_alpha prox step_size st i = Ok st' ->
    SagaKernel.shaped M b d st'
    /\ (exists p : Q,
          p == BCD.row_dot M (SagaKernel.x st) i
          /\ nth i (SagaKernel.memory_gradient st') 0
             = partial_gradient p (nth i b 0))
    /\ (forall k : nat,
          k <> i ->
          nth k (SagaKernel.memory_gradient st') 0
          = nth k (SagaKernel.memory_gradient st) 0)
    /\ forall j : nat,
         BCD.entry M i j == 0 ->
         nth j (SagaKernel.x st') 0 = nth j (SagaKernel.x st) 0
         /\ nth j (SagaKernel.gradient_average st') 0
            = nth j (SagaKernel.gradient_average st) 0.
Proof.
  intros M pg b d f_alpha prox step_size st st' i Hi Hsh Hrun.
  destruct (sample_step_writes M pg b d f_alpha prox step_size st st' i Hi Hrun)
    as (Hm & _ & _ & Hout & _).
  split;
    [apply (sample_step_shaped M pg b d f_alpha prox step_size st st' i);
     assumption|].
  destruct Hsh as (_ & _ & _ & Hlm & _).
  split; [|split].
  - exists (SagaKernel.prediction (BCD.csr_matrix M) (SagaKernel.x st) i).
    split; [apply (csr_row_dot_correct M (SagaKernel.x st) i Hi)|].
    rewrite Hm. apply nth_store_same. lia.
  - intros k Hk. rewrite Hm. apply nth_store_other. congruence.
  - intros j Hz. destruct (Hout j (nonzero_of_zero _ Hz)) as [Hg Hx].
    split; assumption.
Qed.

Lemma sample_step_is_sparse_witness :
  exists st' : SagaKernel.arrays,
    SagaKernel.sample_step (BCD.csr_matrix Examples.A0) 2 (fun p l => p - l)
      Examples.b0 [1; 1] 0 SAGA.prox_zero (1 # 2)
      {| SagaKernel.x := [0; 0]; SagaKernel.memory_gradient := zeros 2;
         SagaKernel.gradient_average := zeros 2 |} 0 = Ok st'
    /\ nth 1 (SagaKernel.x st') 0 = 0.
Proof.
  eexists. split; [vm_compute; reflexivity|].
  apply (sample_step_is_sparse Examples.A0 (fun p l => p - l) Examples.b0 [1; 1] 0
           SAGA.prox_zero (1 # 2)
           {| SagaKernel.x := [0; 0]; SagaKernel.memory_gradient := zeros 2;
              SagaKernel.gradient_average := zeros 2 |} _ 0%nat).
  - simpl. lia.
  - repeat split.
  - vm_compute. reflexivity.
  - reflexivity.
Defined.
